(** * docker-deploy-app: deployment lifecycle, tunnel injection, backups

    A shallow embedding of the Go sources of the deployment manager:
    the stack-name validator and the deployment model
    ([internal/models]), the Newt tunnel injector
    ([internal/docker/newt_injector.go]), the deployment handlers
    ([DeploymentsHandler]), the backup manager
    ([internal/backup]) and the streaming encryption wrapper.

    Go strings are byte strings and are modelled by [string]; Go maps
    by [gmap]; file-system paths by their list of components. *)

From Stdlib Require Import String Ascii List ZArith NArith Lia Bool.
From Stdlib Require Import Numbers.DecimalString Sorting.Permutation.
From stdpp Require Import base option gmap strings list fin_maps.
Import ListNotations.

Local Open Scope string_scope.
Local Open Scope bool_scope.
Local Open Scope list_scope.

(** ** The [strings] package, as far as the sources use it *)

Module Strings.

(** [strings.HasPrefix(s, prefix)] *)
Definition HasPrefix (s pre : string) : bool := String.prefix pre s.

(** [strings.Contains(s, substr)] *)
Fixpoint Contains (s substr : string) : bool :=
  String.prefix substr s ||
  match s with
  | EmptyString => false
  | String _ s' => Contains s' substr
  end.

(** [strings.Join(elems, sep)] *)
Fixpoint Join (elems : list string) (sep : string) : string :=
  match elems with
  | [] => ""
  | [e] => e
  | e :: rest => e +:+ sep +:+ Join rest sep
  end.

(** [strings.Split(s, sep)[0]] for a one-byte separator: the part of
    [s] before the first occurrence of [sep]. *)
Fixpoint SplitHead (s : string) (sep : ascii) : string :=
  match s with
  | EmptyString => ""
  | String c s' => if Ascii.eqb c sep then "" else String c (SplitHead s' sep)
  end.

(** The ASCII white space of [unicode.IsSpace]: tab, line feed,
    vertical tab, form feed, carriage return and the blank. *)
Definition isAsciiSpace (c : ascii) : bool :=
  ((9 <=? nat_of_ascii c)%nat && (nat_of_ascii c <=? 13)%nat) || Ascii.eqb c " ".

Fixpoint TrimLeft (s : string) : string :=
  match s with
  | EmptyString => ""
  | String c s' => if isAsciiSpace c then TrimLeft s' else s
  end.

Fixpoint TrimRight (s : string) : string :=
  match s with
  | EmptyString => ""
  | String c s' =>
      match TrimRight s' with
      | EmptyString => if isAsciiSpace c then "" else String c ""
      | t => String c t
      end
  end.

(** [strings.TrimSpace] on ASCII text (the library also strips the
    white space of Unicode beyond ASCII). *)
Definition TrimSpaceASCII (s : string) : string := TrimRight (TrimLeft s).

End Strings.

(** ** internal/models: deployments *)

Module Models.

(** [DeploymentStatus] and its five constants. *)
Inductive DeploymentStatus :=
| StatusPending
| StatusDeploying
| StatusRunning
| StatusStopped
| StatusFailed.

#[global] Instance DeploymentStatus_eq_dec : EqDecision DeploymentStatus.
Proof. solve_decision. Defined.

(** The deployment's own [NewtConfig] (the one with an [Image]). *)
Record NewtConfig := {
  Endpoint : string;
  NewtID : string;
  Secret : string;
  Image : string
}.

Record DeploymentConfig := {
  TemplateID : string;
  StackName : string;
  Environment : gmap string string;
  NewtConfig_ : option NewtConfig;
  AutoStart : bool;
  IncludeNewt : bool
}.

(** The validation errors declared next to the model. *)
Inductive ValidationError :=
| ErrDeploymentTemplateRequired
| ErrDeploymentStackNameRequired
| ErrDeploymentInvalidStackName
| ErrNewtConfigRequired
| ErrNewtEndpointRequired
| ErrNewtIDRequired
| ErrNewtSecretRequired.

Definition byte_between (lo hi : nat) (c : ascii) : bool :=
  (lo <=? nat_of_ascii c)%nat && (nat_of_ascii c <=? hi)%nat.

(** ['a' <= c && c <= 'z'], ['A' .. 'Z'], ['0' .. '9'] *)
Definition is_lower (c : ascii) : bool := byte_between 97 122 c.
Definition is_upper (c : ascii) : bool := byte_between 65 90 c.
Definition is_digit (c : ascii) : bool := byte_between 48 57 c.
Definition is_alnum (c : ascii) : bool := is_lower c || is_upper c || is_digit c.

(** The loop body's test of [isValidStackName]. *)
Definition stack_char_ok (c : ascii) : bool :=
  is_alnum c || Ascii.eqb c "-" || Ascii.eqb c "_".

Fixpoint all_chars (p : ascii -> bool) (s : string) : bool :=
  match s with
  | EmptyString => true
  | String c s' => if p c then all_chars p s' else false
  end.

(** [isValidStackName].  [len(name)] counts bytes and the loop ranges
    over runes; a rune outside ASCII (or the replacement rune of an
    ill-formed sequence) fails the loop's test exactly as each of its
    bytes, all of them above 127, does here. *)
Definition isValidStackName (name : string) : bool :=
  if (String.length name =? 0)%nat || (63 <? String.length name)%nat then false
  else if negb (all_chars stack_char_ok name) then false
  else match name with
       | EmptyString => false
       | String c _ => is_alnum c
       end.

Section Validate.
(** [strings.TrimSpace], a function of the Go library. *)
Variable TrimSpace : string -> string.

(** [NewtConfig.Validate] *)
Definition NewtConfig_Validate (nc : NewtConfig) : option ValidationError :=
  if String.eqb (TrimSpace (Endpoint nc)) "" then Some ErrNewtEndpointRequired
  else if String.eqb (TrimSpace (NewtID nc)) "" then Some ErrNewtIDRequired
  else if String.eqb (TrimSpace (Secret nc)) "" then Some ErrNewtSecretRequired
  else None.

(** [DeploymentConfig.Validate]: [None] is Go's [nil] error. *)
Definition DeploymentConfig_Validate (dc : DeploymentConfig) : option ValidationError :=
  if String.eqb (TrimSpace (TemplateID dc)) "" then Some ErrDeploymentTemplateRequired
  else if String.eqb (TrimSpace (StackName dc)) "" then Some ErrDeploymentStackNameRequired
  else if negb (isValidStackName (StackName dc)) then Some ErrDeploymentInvalidStackName
  else if IncludeNewt dc && negb (bool_decide (is_Some (NewtConfig_ dc)))
       then Some ErrNewtConfigRequired
  else match NewtConfig_ dc with
       | Some nc => NewtConfig_Validate nc
       | None => None
       end.
End Validate.

(** [Deployment.CanDelete] *)
Definition CanDelete (status : DeploymentStatus) : bool :=
  negb (bool_decide (status = StatusDeploying)).

End Models.

(** ** internal/docker: the Compose document *)

(** [interface{}] fields of a service ([command], [entrypoint]): absent,
    a scalar, or a sequence of scalars. *)
Inductive AnyValue :=
| AnyNil
| AnyScalar (s : string)
| AnySeq (l : list string).

Module ComposeHealthCheck.
Record t := {
  Test : list string;
  Interval : string;
  Timeout : string;
  Retries : Z;
  StartPeriod : string
}.
End ComposeHealthCheck.

Module ComposeService.
Record t := {
  Image : string;
  ContainerName : string;
  Restart : string;
  Environment : list string;
  Ports : list string;
  Volumes : list string;
  Networks : list string;
  DependsOn : list string;
  HealthCheck : option ComposeHealthCheck.t;
  Labels : gmap string string;
  Command : AnyValue;
  Entrypoint : AnyValue
}.

(** [service.Networks = nets], every other field kept. *)
Definition with_Networks (service : t) (nets : list string) : t :=
  {| Image := Image service; ContainerName := ContainerName service;
     Restart := Restart service; Environment := Environment service;
     Ports := Ports service; Volumes := Volumes service;
     Networks := nets; DependsOn := DependsOn service;
     HealthCheck := HealthCheck service; Labels := Labels service;
     Command := Command service; Entrypoint := Entrypoint service |}.
End ComposeService.

Module ComposeNetwork.
Record t := {
  Driver : string;
  External : bool;
  Name : string;
  Labels : gmap string string
}.
End ComposeNetwork.

Module ComposeVolume.
Record t := {
  Driver : string;
  External : bool;
  Name : string;
  Labels : gmap string string
}.
End ComposeVolume.

Module DockerCompose.
Record t := {
  Version : string;
  Services : gmap string ComposeService.t;
  Networks : gmap string ComposeNetwork.t;
  Volumes : gmap string ComposeVolume.t
}.
End DockerCompose.

(** ** internal/docker/newt_injector.go *)

Module NewtInjector.

Record ValidationResult := {
  Valid : bool;
  HasNewt : bool;
  NetworkOK : bool;
  Issues : list string;
  Warnings : list string;
  Suggestions : list string
}.

(** [NewtConfig.GetEnvironmentVars] *)
Definition GetEnvironmentVars (nc : Models.NewtConfig) : list string :=
  [ "PANGOLIN_ENDPOINT=" +:+ Models.Endpoint nc;
    "NEWT_ID=" +:+ Models.NewtID nc;
    "NEWT_SECRET=" +:+ Models.Secret nc;
    "LOG_LEVEL=INFO";
    "HEALTH_FILE=/tmp/healthy" ].

(** [createNewtService] *)
Definition createNewtService (config : Models.NewtConfig) : ComposeService.t :=
  {| ComposeService.Image :=
       if String.eqb (Models.Image config) "" then "fosrl/newt:latest"
       else Models.Image config;
     ComposeService.ContainerName := "newt";
     ComposeService.Restart := "unless-stopped";
     ComposeService.Environment := GetEnvironmentVars config;
     ComposeService.Ports := [];
     ComposeService.Volumes := ["/var/run/docker.sock:/var/run/docker.sock:ro"];
     ComposeService.Networks := ["app_network"];
     ComposeService.DependsOn := [];
     ComposeService.HealthCheck :=
       Some {| ComposeHealthCheck.Test := ["CMD"; "test"; "-f"; "/tmp/healthy"];
               ComposeHealthCheck.Interval := "30s";
               ComposeHealthCheck.Timeout := "10s";
               ComposeHealthCheck.Retries := 3;
               ComposeHealthCheck.StartPeriod := "60s" |};
     ComposeService.Labels :=
       <["app.type" := "tunnel"]> (<["app.name" := "newt"]>
       (<["app.managed" := "true"]> (<["traefik.enable" := "false"]> ∅)));
     ComposeService.Command := AnyNil;
     ComposeService.Entrypoint := AnyNil |}.

(** The keys of the [requiredEnvs] map of [validateNewtService]. *)
Definition requiredEnvNames : list string :=
  ["PANGOLIN_ENDPOINT"; "NEWT_ID"; "NEWT_SECRET"].

(** [requiredEnvs[required]] once the two nested loops are over. *)
Definition envFound (environment : list string) (required : string) : bool :=
  existsb (fun env => Strings.HasPrefix env (required +:+ "=")) environment.

Section RangeOrder.
(** The order in which [range requiredEnvs] yields the three keys;
    Go leaves it unspecified. *)
Variable rangeOrder : list string.

(** [validateNewtService]: [None] is the [nil] error, [Some msg] an
    error whose [Error()] is [msg]. *)
Definition validateNewtService (service : ComposeService.t) : option string :=
  if String.eqb (ComposeService.Image service) "" then
    Some "newt service missing image"
  else if negb (Strings.Contains (ComposeService.Image service) "newt") then
    Some ("newt service using incorrect image: " +:+ ComposeService.Image service)
  else
    let missingEnvs :=
      List.filter (fun env => negb (envFound (ComposeService.Environment service) env))
                  rangeOrder in
    if (0 <? List.length missingEnvs)%nat then
      Some ("missing required environment variables: " +:+ Strings.Join missingEnvs ", ")
    else if negb (existsb (fun volume => Strings.Contains volume "/var/run/docker.sock")
                          (ComposeService.Volumes service)) then
      Some "newt service missing Docker socket mount"
    else None.

(** [validateNetworkConfiguration].  The services are visited in the
    key order of [map_to_list]; Go's order is unspecified. *)
Definition validateNetworkConfiguration (compose : DockerCompose.t) : option string :=
  if (size (DockerCompose.Networks compose) =? 0)%nat then
    Some "no networks defined - services may not be able to communicate"
  else
    let servicesWithoutNetworks :=
      (List.filter (fun kv => (List.length (ComposeService.Networks kv.2) =? 0)%nat)
                   (map_to_list (DockerCompose.Services compose))).*1 in
    if (0 <? List.length servicesWithoutNetworks)%nat then
      Some ("services without network configuration: "
            +:+ Strings.Join servicesWithoutNetworks ", ")
    else None.

(** The [ports] map built by [ValidateCompose]: host port to the
    services publishing it. *)
Definition collectPorts (services : gmap string ComposeService.t)
  : gmap string (list string) :=
  fold_left
    (fun ports kv =>
       fold_left
         (fun ports port =>
            let hostPort := Strings.SplitHead port ":" in
            <[hostPort := default [] (ports !! hostPort) ++ [kv.1]]> ports)
         (ComposeService.Ports kv.2) ports)
    (map_to_list services) ∅.

Definition portWarnings (ports : gmap string (list string)) : list string :=
  omap (fun kv : string * list string =>
          if (1 <? List.length kv.2)%nat then
            Some ("Port " +:+ kv.1 +:+ " is used by multiple services: "
                  +:+ Strings.Join kv.2 ", ")
          else None)
       (map_to_list ports).

(** [ValidateCompose] *)
Definition ValidateCompose (compose : DockerCompose.t) : ValidationResult :=
  if (size (DockerCompose.Services compose) =? 0)%nat then
    {| Valid := false; HasNewt := false; NetworkOK := true;
       Issues := ["No services defined in docker-compose file"];
       Warnings := []; Suggestions := [] |}
  else
    let newtErr :=
      match DockerCompose.Services compose !! "newt" with
      | Some newtService => validateNewtService newtService
      | None => None
      end in
    let hasNewt := bool_decide (is_Some (DockerCompose.Services compose !! "newt")) in
    let netErr := validateNetworkConfiguration compose in
    {| Valid := negb (bool_decide (is_Some newtErr));
       HasNewt := hasNewt;
       NetworkOK := negb (bool_decide (is_Some netErr));
       Issues :=
         match newtErr with
         | Some err => ["Newt service configuration error: " +:+ err]
         | None => []
         end;
       Warnings :=
         match netErr with Some err => [err] | None => [] end
         ++ portWarnings (collectPorts (DockerCompose.Services compose));
       Suggestions :=
         (if hasNewt then [] else ["Add newt service for remote tunnel access"])
         ++ (if (size (DockerCompose.Networks compose) =? 0)%nat
             then ["Define custom networks for better service isolation"]
             else []) |}.

(** The body of the loop of [ensureNetworkConfiguration]. *)
Definition ensureServiceNetworks (service : ComposeService.t) : ComposeService.t :=
  if (List.length (ComposeService.Networks service) =? 0)%nat then
    ComposeService.with_Networks service ["app_network"]
  else if existsb (String.eqb "app_network") (ComposeService.Networks service) then
    service
  else
    ComposeService.with_Networks service
      (ComposeService.Networks service ++ ["app_network"]).

(** [ensureNetworkConfiguration]; its error is always [nil]. *)
Definition ensureNetworkConfiguration (compose : DockerCompose.t)
  : DockerCompose.t * option string :=
  let networks :=
    if (size (DockerCompose.Networks compose) =? 0)%nat then
      {[ "app_network" :=
           {| ComposeNetwork.Driver := "bridge";
              ComposeNetwork.External := false;
              ComposeNetwork.Name := "";
              ComposeNetwork.Labels := {[ "app.managed" := "true" ]} |} ]}
    else DockerCompose.Networks compose in
  ({| DockerCompose.Version := DockerCompose.Version compose;
      DockerCompose.Services := ensureServiceNetworks <$> DockerCompose.Services compose;
      DockerCompose.Networks := networks;
      DockerCompose.Volumes := DockerCompose.Volumes compose |}, None).

Variable config : Models.NewtConfig.

(** [ProcessCompose] on the parsed document: what the method does
    between [yaml.Unmarshal] and [yaml.Marshal]. *)
Definition ProcessCompose (compose : DockerCompose.t)
  : DockerCompose.t * ValidationResult :=
  let result := ValidateCompose compose in
  let '(services, hasNewt, issues, suggestions) :=
    match DockerCompose.Services compose !! "newt" with
    | Some existingNewt =>
        match validateNewtService existingNewt with
        | Some err =>
            (<["newt" := createNewtService config]> (DockerCompose.Services compose),
             true,
             Issues result ++ [err],
             Suggestions result
             ++ ["Updated existing newt service with correct configuration"])
        | None =>
            (DockerCompose.Services compose, true, Issues result, Suggestions result)
        end
    | None =>
        (<["newt" := createNewtService config]> (DockerCompose.Services compose),
         true,
         Issues result,
         Suggestions result ++ ["Added newt service for tunnel connectivity"])
    end in
  let '(compose', netErr) :=
    ensureNetworkConfiguration
      {| DockerCompose.Version := DockerCompose.Version compose;
         DockerCompose.Services := services;
         DockerCompose.Networks := DockerCompose.Networks compose;
         DockerCompose.Volumes := DockerCompose.Volumes compose |} in
  let issues' := match netErr with Some err => issues ++ [err] | None => issues end in
  (compose',
   {| Valid := (List.length issues' =? 0)%nat;
      HasNewt := hasNewt;
      NetworkOK := match netErr with Some _ => NetworkOK result | None => true end;
      Issues := issues';
      Warnings := Warnings result;
      Suggestions := suggestions |}).
End RangeOrder.

(** A service belongs to a declared network of the document. *)
Definition onDeclaredNetwork (compose : DockerCompose.t) (service : ComposeService.t) : bool :=
  existsb (fun n => bool_decide (is_Some (DockerCompose.Networks compose !! n)))
          (ComposeService.Networks service).

End NewtInjector.

(** ** The relational store

    The tables the handlers and the backup manager touch, with the
    constraints of the schema that their statements can violate: the
    primary keys, the foreign key of [deployment_logs] (the connection
    is opened with [_foreign_keys=on]) and the [CHECK] on a backup's
    type.  The store itself never fails otherwise. *)

Definition path := list string.

Module DB.

Record DeploymentRow := {
  template_id : string;
  stack_name : string;
  status : Models.DeploymentStatus;
  config : string;
  newt_injected : bool;
  tunnel_url : string;
  created_at : Z;
  updated_at : Z
}.

Record DeploymentLogRow := {
  deployment_id : string;
  log_level : string;
  message : string;
  timestamp : Z
}.

(** [BackupStatus] *)
Inductive BackupStatus :=
| BackupStatusCreating
| BackupStatusCompleted
| BackupStatusFailed.

#[global] Instance BackupStatus_eq_dec : EqDecision BackupStatus.
Proof. solve_decision. Defined.

(** A row of [backups]; the key [id] is the map's key.  A storage
    path is kept as its components, [[]] being the empty string. *)
Record BackupRow := {
  b_name : string;
  b_type : string;
  b_status : BackupStatus;
  b_size_bytes : Z;
  b_include_volumes : bool;
  b_encrypted : bool;
  b_storage_path : path;
  b_deployment_ids : list string;
  b_created_at : Z;
  b_completed_at : option Z
}.

Record t := {
  deployments : gmap string DeploymentRow;
  deployment_logs : list DeploymentLogRow;
  backups : gmap string BackupRow
}.

Definition with_deployments (db : t) (d : gmap string DeploymentRow) : t :=
  {| deployments := d; deployment_logs := deployment_logs db; backups := backups db |}.

Definition with_logs (db : t) (l : list DeploymentLogRow) : t :=
  {| deployments := deployments db; deployment_logs := l; backups := backups db |}.

Definition with_backups (db : t) (b : gmap string BackupRow) : t :=
  {| deployments := deployments db; deployment_logs := deployment_logs db; backups := b |}.

(** Some log row still references the deployment. *)
Definition hasLogs (db : t) (id : string) : bool :=
  existsb (fun l => String.eqb (deployment_id l) id) (deployment_logs db).

End DB.

(** ** The deployment handlers *)

Module DeploymentsHandler.

(** The handler's surroundings: the store, the clock, and the
    container executor, which fails to bring down the stacks in
    [downErr] (with the error given there) and records the others in
    [downed]. *)
Record World := {
  db : DB.t;
  now : Z;
  downErr : gmap string string;
  downed : list string
}.

Definition with_db (w : World) (d : DB.t) : World :=
  {| db := d; now := now w; downErr := downErr w; downed := downed w |}.

(** What [http.Error] or the JSON encoder sends back. *)
Record Response := {
  code : nat;
  body : string
}.

Definition StatusOK : nat := 200.
Definition StatusBadRequest : nat := 400.
Definition StatusNotFound : nat := 404.
Definition StatusInternalServerError : nat := 500.

(** [h.compose.Down(stackName, true)] *)
Definition Down (stackName : string) (w : World) : option string * World :=
  match downErr w !! stackName with
  | Some err => (Some err, w)
  | None => (None, {| db := db w; now := now w; downErr := downErr w;
                      downed := downed w ++ [stackName] |})
  end.

(** [DELETE FROM deployments WHERE id = $1]: refused while a log row
    references the deployment. *)
Definition deleteDeploymentRow (id : string) (d : DB.t) : option string * DB.t :=
  if bool_decide (is_Some (DB.deployments d !! id)) && DB.hasLogs d id then
    (Some "FOREIGN KEY constraint failed", d)
  else (None, DB.with_deployments d (delete id (DB.deployments d))).

(** [DELETE FROM deployment_logs WHERE deployment_id = $1] *)
Definition deleteLogRows (id : string) (d : DB.t) : DB.t :=
  DB.with_logs d
    (List.filter (fun l => negb (String.eqb (DB.deployment_id l) id)) (DB.deployment_logs d)).

(** [DeploymentsHandler.Delete], for the deployment named in the URL. *)
Definition Delete (deploymentID : string) (w : World) : Response * World :=
  if String.eqb deploymentID "" then
    ({| code := StatusBadRequest; body := "Deployment ID required" |}, w)
  else
    match DB.deployments (db w) !! deploymentID with
    | None => ({| code := StatusNotFound; body := "Deployment not found" |}, w)
    | Some row =>
        let '(downResult, w1) :=
          if bool_decide (DB.status row = Models.StatusRunning)
          then Down (DB.stack_name row) w
          else (None, w) in
        match downResult with
        | Some err =>
            ({| code := StatusInternalServerError;
                body := "Failed to stop stack: " +:+ err |}, w1)
        | None =>
            match deleteDeploymentRow deploymentID (db w1) with
            | (Some err, _) =>
                ({| code := StatusInternalServerError;
                    body := "Failed to delete deployment: " +:+ err |}, w1)
            | (None, d) =>
                ({| code := StatusOK; body := "Deployment deleted successfully" |},
                 with_db w1 (deleteLogRows deploymentID d))
            end
        end
    end.

(** [updateDeploymentStatus]:
    [UPDATE deployments SET status = $1, updated_at = $2 WHERE id = $3]. *)
Definition updateDeploymentStatus (deploymentID : string)
    (status : Models.DeploymentStatus) (w : World) : World :=
  with_db w
    (DB.with_deployments (db w)
       (alter (fun row =>
                 {| DB.template_id := DB.template_id row;
                    DB.stack_name := DB.stack_name row;
                    DB.status := status;
                    DB.config := DB.config row;
                    DB.newt_injected := DB.newt_injected row;
                    DB.tunnel_url := DB.tunnel_url row;
                    DB.created_at := DB.created_at row;
                    DB.updated_at := now w |})
              deploymentID (DB.deployments (db w)))).

End DeploymentsHandler.

(** ** The file system under the backup storage root *)

Module FS.

(** What a file holds: one of the two JSON documents the manager
    writes, or a gzip-compressed tar stream with its entries (a
    directory entry carries no data) which is whole only once its
    writers were closed. *)
#[warnings="-register-all"]
Inductive Document :=
| DeploymentInfo (id stack_name template_id config : string)
| BackupMetadata (version : string) (created_at : Z) (app_version : string)
                 (deployment_count volume_count : nat)
| TarGz (entries : list (path * option Document)) (closed : bool).

Inductive Op :=
| OpMkdirAll (p : path)
| OpCreate (p : path)
| OpOpen (p : path)
| OpRemoveAll (p : path).

(** Directories and files by path, the paths on which every system
    call fails ([faulty]: a full disk, a permission), and the calls
    made so far. *)
Record t := {
  dirs : gset path;
  files : gmap path Document;
  faulty : gset path;
  oplog : list Op
}.

Definition logged (fs : t) (op : Op) : t :=
  {| dirs := dirs fs; files := files fs; faulty := faulty fs;
     oplog := oplog fs ++ [op] |}.

(** The path itself and each directory above it, the root excluded. *)
Definition ancestors (p : path) : list path :=
  List.map (fun n => take n p) (seq 1 (List.length p)).

Definition isDir (fs : t) (p : path) : bool :=
  bool_decide (p = []) || bool_decide (p ∈ dirs fs).

(** [os.MkdirAll(p, 0755)] *)
Definition MkdirAll (p : path) (fs : t) : option string * t :=
  let fs := logged fs (OpMkdirAll p) in
  if bool_decide (p ∈ faulty fs) then (Some "mkdir: input/output error", fs)
  else if existsb (fun q => bool_decide (is_Some (files fs !! q))) (ancestors p) then
    (Some "mkdir: not a directory", fs)
  else
    (None, {| dirs := dirs fs ∪ list_to_set (ancestors p); files := files fs;
              faulty := faulty fs; oplog := oplog fs |}).

(** [os.Create(p)] followed by the writes that fill the file with
    [content]. *)
Definition Create (p : path) (content : Document) (fs : t) : option string * t :=
  let fs := logged fs (OpCreate p) in
  if bool_decide (p ∈ faulty fs) then (Some "open: input/output error", fs)
  else if negb (isDir fs (removelast p)) then (Some "open: no such file or directory", fs)
  else if isDir fs p then (Some "open: is a directory", fs)
  else
    (None, {| dirs := dirs fs; files := <[p := content]> (files fs);
              faulty := faulty fs; oplog := oplog fs |}).

(** [os.Open(p)] and reading the file to its end. *)
Definition Open (p : path) (fs : t) : option Document * t :=
  let fs := logged fs (OpOpen p) in
  if bool_decide (p ∈ faulty fs) then (None, fs) else (files fs !! p, fs).

(** [os.RemoveAll(p)]; the callers drop its error. *)
Definition RemoveAll (p : path) (fs : t) : t :=
  let fs := logged fs (OpRemoveAll p) in
  {| dirs := filter (fun q => ¬ p `prefix_of` q) (dirs fs);
     files := filter (fun kv => ¬ p `prefix_of` kv.1) (files fs);
     faulty := faulty fs; oplog := oplog fs |}.

(** What [filepath.Walk(root, fn)] visits, as [fn] sees it: the root
    first, then what lies below it, each with its path relative to
    the root.  Directories and files come in the order of [elements]
    and [map_to_list] (Go walks in lexical order). *)
Definition walk (root : path) (fs : t) : list (path * path * bool) :=
  (root, [], true)
  :: List.map (fun q => (q, drop (List.length root) q, true))
       (List.filter (fun q => bool_decide (root `prefix_of` q) && negb (bool_decide (q = root)))
                    (elements (dirs fs)))
  ++ List.map (fun q => (q, drop (List.length root) q, false))
       (List.filter (fun q => bool_decide (root `prefix_of` q))
                    (map_to_list (files fs)).*1).

End FS.

(** ** internal/models: backups *)

Module BackupModels.

Definition BackupTypeManual : string := "manual".
Definition BackupTypeScheduled : string := "scheduled".
Definition BackupTypeAuto : string := "auto".

(** [Backup], the record the manager passes around. *)
Record Backup := {
  ID : string;
  Name : string;
  Type_ : string;
  Status : DB.BackupStatus;
  SizeBytes : Z;
  IncludeVolumes : bool;
  Encrypted : bool;
  StoragePath : path;
  DeploymentIDs : list string;
  CreatedAt : Z;
  CompletedAt : option Z
}.

(** [DeploymentBackup]; its service, network, volume and config
    lists are carried along but never read by the manager. *)
Record DeploymentBackup := {
  db_ID : string;
  db_StackName : string
}.

(** [BackupConfig] (the maps of compose files and configurations and
    the storage configuration are not read by the manager). *)
Record BackupConfig := {
  bc_Name : string;
  bc_Type : string;
  bc_IncludeVolumes : bool;
  bc_Encrypted : bool;
  bc_Deployments : list DeploymentBackup
}.

Record RestoreConfig := {
  BackupID : string;
  Selective : bool;
  rc_DeploymentIDs : list string;
  OverwriteExisting : bool;
  RestoreVolumes : bool;
  TestRestore : bool
}.

Inductive ValidationError :=
| ErrBackupNameRequired
| ErrBackupNoDeployments
| ErrRestoreBackupRequired
| ErrRestoreNoDeployments.

(** [BackupConfig.Validate] *)
Definition BackupConfig_Validate (bc : BackupConfig) : option ValidationError :=
  if String.eqb (bc_Name bc) "" then Some ErrBackupNameRequired
  else if (List.length (bc_Deployments bc) =? 0)%nat then Some ErrBackupNoDeployments
  else None.

(** [RestoreConfig.Validate] *)
Definition RestoreConfig_Validate (rc : RestoreConfig) : option ValidationError :=
  if String.eqb (BackupID rc) "" then Some ErrRestoreBackupRequired
  else if Selective rc && (List.length (rc_DeploymentIDs rc) =? 0)%nat
       then Some ErrRestoreNoDeployments
  else None.

(** [RestoreConfig.HasDeployment] *)
Definition HasDeployment (rc : RestoreConfig) (deploymentID : string) : bool :=
  if negb (Selective rc) then true
  else existsb (fun id => String.eqb id deploymentID) (rc_DeploymentIDs rc).

End BackupModels.

(** ** internal/backup: the manager *)

Module Manager.

Import BackupModels.

(** The manager's surroundings: the store, the file system and the
    clock ([time.Now], in seconds). *)
Record World := {
  db : DB.t;
  fs : FS.t;
  now : Z
}.

Definition with_db (w : World) (d : DB.t) : World :=
  {| db := d; fs := fs w; now := now w |}.

Definition with_fs (w : World) (f : FS.t) : World :=
  {| db := db w; fs := f; now := now w |}.

(** The goroutine a call starts with [go], left to run after the call
    has returned. *)
Inductive Task :=
| PerformBackup (backup : Backup) (config : BackupConfig)
| PerformRestore (backup : Backup) (config : RestoreConfig).

(** [generateBackupID] *)
Definition generateBackupID (w : World) : string :=
  "backup_" +:+ NilEmpty.string_of_int (Z.to_int (now w)).

(** [getDeploymentIDsFromConfig] *)
Definition getDeploymentIDsFromConfig (config : BackupConfig) : list string :=
  List.map db_ID (bc_Deployments config).

Definition rowOfBackup (backup : Backup) (completed_at : option Z) : DB.BackupRow :=
  {| DB.b_name := Name backup; DB.b_type := Type_ backup; DB.b_status := Status backup;
     DB.b_size_bytes := SizeBytes backup; DB.b_include_volumes := IncludeVolumes backup;
     DB.b_encrypted := Encrypted backup; DB.b_storage_path := StoragePath backup;
     DB.b_deployment_ids := DeploymentIDs backup; DB.b_created_at := CreatedAt backup;
     DB.b_completed_at := completed_at |}.

(** [saveBackupRecord]: the [INSERT INTO backups], refused for a
    primary key already there or a type outside the three of the
    [CHECK]. *)
Definition saveBackupRecord (backup : Backup) (d : DB.t) : option string * DB.t :=
  if bool_decide (is_Some (DB.backups d !! ID backup)) then
    (Some "UNIQUE constraint failed: backups.id", d)
  else if negb (existsb (String.eqb (Type_ backup))
                        [BackupTypeManual; BackupTypeScheduled; BackupTypeAuto]) then
    (Some "CHECK constraint failed: type", d)
  else (None, DB.with_backups d (<[ID backup := rowOfBackup backup None]> (DB.backups d))).

(** [updateBackupRecord]:
    [UPDATE backups SET status, size_bytes, storage_path, deployment_ids,
    completed_at WHERE id]. *)
Definition updateBackupRecord (backup : Backup) (d : DB.t) : DB.t :=
  DB.with_backups d
    (alter (fun row =>
              {| DB.b_name := DB.b_name row; DB.b_type := DB.b_type row;
                 DB.b_status := Status backup;
                 DB.b_size_bytes := SizeBytes backup;
                 DB.b_include_volumes := DB.b_include_volumes row;
                 DB.b_encrypted := DB.b_encrypted row;
                 DB.b_storage_path := StoragePath backup;
                 DB.b_deployment_ids := DeploymentIDs backup;
                 DB.b_created_at := DB.b_created_at row;
                 DB.b_completed_at := CompletedAt backup |})
           (ID backup) (DB.backups d)).

(** [updateBackupStatus]:
    [UPDATE backups SET status = $1, completed_at = $2 WHERE id = $3]. *)
Definition updateBackupStatus (backupID : string) (status : DB.BackupStatus)
    (w : World) : World :=
  let completedAt :=
    if bool_decide (status = DB.BackupStatusCompleted)
       || bool_decide (status = DB.BackupStatusFailed)
    then Some (now w) else None in
  with_db w
    (DB.with_backups (db w)
       (alter (fun row =>
                 {| DB.b_name := DB.b_name row; DB.b_type := DB.b_type row;
                    DB.b_status := status;
                    DB.b_size_bytes := DB.b_size_bytes row;
                    DB.b_include_volumes := DB.b_include_volumes row;
                    DB.b_encrypted := DB.b_encrypted row;
                    DB.b_storage_path := DB.b_storage_path row;
                    DB.b_deployment_ids := DB.b_deployment_ids row;
                    DB.b_created_at := DB.b_created_at row;
                    DB.b_completed_at := completedAt |})
              backupID (DB.backups (db w)))).

(** [getBackup] with [scanBackup]: [None] when no row has the id. *)
Definition getBackup (backupID : string) (w : World) : option Backup :=
  match DB.backups (db w) !! backupID with
  | None => None
  | Some row =>
      Some {| ID := backupID; Name := DB.b_name row; Type_ := DB.b_type row;
              Status := DB.b_status row; SizeBytes := DB.b_size_bytes row;
              IncludeVolumes := DB.b_include_volumes row;
              Encrypted := DB.b_encrypted row;
              StoragePath := DB.b_storage_path row;
              DeploymentIDs := DB.b_deployment_ids row;
              CreatedAt := DB.b_created_at row;
              CompletedAt := DB.b_completed_at row |}
  end.

(** [saveJSON] *)
Definition saveJSON (p : path) (data : FS.Document) (f : FS.t) : option string * FS.t :=
  FS.Create p data f.

(** [loadJSON]: a file that is no JSON document does not decode. *)
Definition loadJSON (p : path) (f : FS.t) : option string * FS.t :=
  match FS.Open p f with
  | (None, f') => (Some "open: no such file or directory", f')
  | (Some (FS.TarGz _ _), f') => (Some "invalid character looking for beginning of value", f')
  | (Some _, f') => (None, f')
  end.

(** [backupDeployment] *)
Definition backupDeployment (deploymentID : string) (backupDir : path) (w : World)
  : option string * World :=
  match DB.deployments (db w) !! deploymentID with
  | None => (Some "sql: no rows in result set", w)
  | Some row =>
      let deploymentDir := backupDir ++ ["deployments"; deploymentID] in
      match FS.MkdirAll deploymentDir (fs w) with
      | (Some err, f) => (Some err, with_fs w f)
      | (None, f) =>
          let '(err, f') :=
            saveJSON (deploymentDir ++ ["deployment.json"])
              (FS.DeploymentInfo deploymentID (DB.stack_name row)
                                 (DB.template_id row) (DB.config row)) f in
          (err, with_fs w f')
      end
  end.

(** The callback of [filepath.Walk] in [createArchive], over the nodes
    still to visit: a header per node and the data of each file, up to
    the first error. *)
Fixpoint archiveNodes (nodes : list (path * path * bool)) (f : FS.t)
  : list (path * option FS.Document) * option string * FS.t :=
  match nodes with
  | [] => ([], None, f)
  | (p, rel, true) :: rest =>
      let '(entries, err, f') := archiveNodes rest f in
      ((rel, None) :: entries, err, f')
  | (p, rel, false) :: rest =>
      match FS.Open p f with
      | (None, f') => ([], Some "open: input/output error", f')
      | (Some data, f') =>
          let '(entries, err, f'') := archiveNodes rest f' in
          ((rel, Some data) :: entries, err, f'')
      end
  end.

Section Archive.
(** [stat.Size()] of an archive file with the given entries. *)
Variable archiveSize : list (path * option FS.Document) -> Z.

(** [createArchive]: the file is created first and left behind, not
    closed as an archive, when the walk fails. *)
Definition createArchive (sourceDir archivePath : path) (f : FS.t)
  : Z * option string * FS.t :=
  match FS.Create archivePath (FS.TarGz [] false) f with
  | (Some err, f1) => (0%Z, Some err, f1)
  | (None, f1) =>
      if negb (FS.isDir f1 sourceDir)
              && negb (bool_decide (is_Some (FS.files f1 !! sourceDir))) then
        (0%Z, Some "lstat: no such file or directory", f1)
      else
        let nodes :=
          if FS.isDir f1 sourceDir then FS.walk sourceDir f1
          else [(sourceDir, [], false)] in
        let '(entries, err, f2) := archiveNodes nodes f1 in
        let written closed :=
          {| FS.dirs := FS.dirs f2;
             FS.files := <[archivePath := FS.TarGz entries closed]> (FS.files f2);
             FS.faulty := FS.faulty f2; FS.oplog := FS.oplog f2 |} in
        match err with
        | Some e => (0%Z, Some e, written false)
        | None => (archiveSize entries, None, written true)
        end
  end.

(** The loop of [extractArchive] over the entries of the tar stream. *)
Fixpoint extractEntries (entries : list (path * option FS.Document)) (destDir : path)
    (f : FS.t) : option string * FS.t :=
  match entries with
  | [] => (None, f)
  | (rel, None) :: rest =>
      match FS.MkdirAll (destDir ++ rel) f with
      | (Some err, f') => (Some err, f')
      | (None, f') => extractEntries rest destDir f'
      end
  | (rel, Some data) :: rest =>
      match FS.MkdirAll (removelast (destDir ++ rel)) f with
      | (Some err, f') => (Some err, f')
      | (None, f') =>
          match FS.Create (destDir ++ rel) data f' with
          | (Some err, f'') => (Some err, f'')
          | (None, f'') => extractEntries rest destDir f''
          end
      end
  end.

(** [extractArchive] *)
Definition extractArchive (archivePath destDir : path) (f : FS.t) : option string * FS.t :=
  match FS.Open archivePath f with
  | (None, f') => (Some "open: no such file or directory", f')
  | (Some (FS.TarGz entries closed), f') =>
      match extractEntries entries destDir f' with
      | (Some err, f'') => (Some err, f'')
      | (None, f'') => (if closed then None else Some "unexpected EOF", f'')
      end
  | (Some _, f') => (Some "gzip: invalid header", f')
  end.

(** [restoreDeployment]: the manifest is read; restoring is a TODO. *)
Definition restoreDeployment (deploymentID : string) (restoreDir : path) (w : World)
  : option string * World :=
  let '(err, f) :=
    loadJSON (restoreDir ++ ["deployments"; deploymentID; "deployment.json"]) (fs w) in
  (err, with_fs w f).

(** [Manager]: the storage root (the store and the Docker client are
    in the world). *)
Variable storagePath : path.

(** [performBackup] up to its return, without the deferred call. *)
Definition performBackupBody (backup : Backup) (config : BackupConfig) (w : World) : World :=
  let backupDir := storagePath ++ [ID backup] in
  let deployments :=
    fold_left
      (fun acc deploymentID =>
         match acc with
         | (Some err, w) => (Some err, w)
         | (None, w) => backupDeployment deploymentID backupDir w
         end)
      (DeploymentIDs backup) (None, w) in
  match deployments with
  | (Some _, w1) => updateBackupStatus (ID backup) DB.BackupStatusFailed w1
  | (None, w1) =>
      let metadata :=
        FS.BackupMetadata "1.0" (CreatedAt backup) "1.0.0"
                          (List.length (DeploymentIDs backup)) 0 in
      match saveJSON (backupDir ++ ["metadata.json"]) metadata (fs w1) with
      | (Some _, f2) => updateBackupStatus (ID backup) DB.BackupStatusFailed (with_fs w1 f2)
      | (None, f2) =>
          let archivePath := storagePath ++ [ID backup +:+ ".tar.gz"] in
          match createArchive backupDir archivePath f2 with
          | (_, Some _, f3) =>
              updateBackupStatus (ID backup) DB.BackupStatusFailed (with_fs w1 f3)
          | (size, None, f3) =>
              let backup' :=
                {| ID := ID backup; Name := Name backup; Type_ := Type_ backup;
                   Status := Status backup; SizeBytes := size;
                   IncludeVolumes := IncludeVolumes backup;
                   Encrypted := Encrypted backup; StoragePath := archivePath;
                   DeploymentIDs := DeploymentIDs backup;
                   CreatedAt := CreatedAt backup; CompletedAt := Some (now w1) |} in
              let w4 := with_db (with_fs w1 f3) (updateBackupRecord backup' (db w1)) in
              with_fs w4 (FS.RemoveAll backupDir (fs w4))
          end
      end
  end.

(** [performBackup]: the body, then the call deferred on entry,
    [defer m.updateBackupStatus(backup.ID, models.BackupStatusCompleted)]. *)
Definition performBackup (backup : Backup) (config : BackupConfig) (w : World) : World :=
  updateBackupStatus (ID backup) DB.BackupStatusCompleted (performBackupBody backup config w).

(** [performRestore] up to its return, without the deferred
    [os.RemoveAll(restoreDir)]. *)
Definition performRestoreBody (backup : Backup) (config : RestoreConfig) (w : World) : World :=
  let restoreDir := storagePath ++ ["restore"; ID backup] in
  match extractArchive (StoragePath backup) restoreDir (fs w) with
  | (Some _, f) => with_fs w f
  | (None, f) =>
      fold_left
        (fun w deploymentID =>
           if Selective config && negb (HasDeployment config deploymentID) then w
           else if negb (TestRestore config)
                then (restoreDeployment deploymentID restoreDir w).2
                else w)
        (DeploymentIDs backup) (with_fs w f)
  end.

(** [performRestore] *)
Definition performRestore (backup : Backup) (config : RestoreConfig) (w : World) : World :=
  let w' := performRestoreBody backup config w in
  with_fs w' (FS.RemoveAll (storagePath ++ ["restore"; ID backup]) (fs w')).

(** [Manager.CreateBackup]: the backup or the error, the world when the
    call returns, and the goroutine it has started. *)
Definition CreateBackup (config : BackupConfig) (w : World)
  : (Backup + string) * World * option Task :=
  let backup :=
    {| ID := generateBackupID w; Name := bc_Name config; Type_ := bc_Type config;
       Status := DB.BackupStatusCreating; SizeBytes := 0;
       IncludeVolumes := bc_IncludeVolumes config; Encrypted := bc_Encrypted config;
       StoragePath := []; DeploymentIDs := getDeploymentIDsFromConfig config;
       CreatedAt := now w; CompletedAt := None |} in
  let backupDir := storagePath ++ [ID backup] in
  match FS.MkdirAll backupDir (fs w) with
  | (Some err, f) =>
      (inr ("failed to create backup directory: " +:+ err), with_fs w f, None)
  | (None, f) =>
      match saveBackupRecord backup (db w) with
      | (Some err, _) =>
          (inr ("failed to save backup record: " +:+ err), with_fs w f, None)
      | (None, d) =>
          (inl backup, with_db (with_fs w f) d, Some (PerformBackup backup config))
      end
  end.

(** [Manager.RestoreBackup] *)
Definition RestoreBackup (config : RestoreConfig) (w : World)
  : option string * World * option Task :=
  match getBackup (BackupID config) w with
  | None => (Some "failed to get backup: sql: no rows in result set", w, None)
  | Some backup =>
      if negb (bool_decide (Status backup = DB.BackupStatusCompleted)) then
        (Some "backup is not completed", w, None)
      else (None, w, Some (PerformRestore backup config))
  end.

(** Running a started goroutine to its end. *)
Definition runTask (t : Task) (w : World) : World :=
  match t with
  | PerformBackup backup config => performBackup backup config w
  | PerformRestore backup config => performRestore backup config w
  end.

End Archive.

End Manager.

(** ** crypto/aes and crypto/cipher

    The block cipher of FIPS-197 and the CFB stream of the Go library,
    which the encryption wrapper builds on.  A byte is an [N] below
    256. *)

Module AES.

Definition BlockSize : nat := 16.

(** Multiplication by [x] in GF(2^8) modulo [x^8 + x^4 + x^3 + x + 1]. *)
Definition xtime (b : N) : N :=
  N.land (N.lxor (N.shiftl b 1) (if N.testbit b 7 then 27 else 0)) 255.

Definition sbox : list N :=
  [99; 124; 119; 123; 242; 107; 111; 197; 48; 1; 103; 43; 254; 215; 171; 118;
   202; 130; 201; 125; 250; 89; 71; 240; 173; 212; 162; 175; 156; 164; 114; 192;
   183; 253; 147; 38; 54; 63; 247; 204; 52; 165; 229; 241; 113; 216; 49; 21;
   4; 199; 35; 195; 24; 150; 5; 154; 7; 18; 128; 226; 235; 39; 178; 117;
   9; 131; 44; 26; 27; 110; 90; 160; 82; 59; 214; 179; 41; 227; 47; 132;
   83; 209; 0; 237; 32; 252; 177; 91; 106; 203; 190; 57; 74; 76; 88; 207;
   208; 239; 170; 251; 67; 77; 51; 133; 69; 249; 2; 127; 80; 60; 159; 168;
   81; 163; 64; 143; 146; 157; 56; 245; 188; 182; 218; 33; 16; 255; 243; 210;
   205; 12; 19; 236; 95; 151; 68; 23; 196; 167; 126; 61; 100; 93; 25; 115;
   96; 129; 79; 220; 34; 42; 144; 136; 70; 238; 184; 20; 222; 94; 11; 219;
   224; 50; 58; 10; 73; 6; 36; 92; 194; 211; 172; 98; 145; 149; 228; 121;
   231; 200; 55; 109; 141; 213; 78; 169; 108; 86; 244; 234; 101; 122; 174; 8;
   186; 120; 37; 46; 28; 166; 180; 198; 232; 221; 116; 31; 75; 189; 139; 138;
   112; 62; 181; 102; 72; 3; 246; 14; 97; 53; 87; 185; 134; 193; 29; 158;
   225; 248; 152; 17; 105; 217; 142; 148; 155; 30; 135; 233; 206; 85; 40; 223;
   140; 161; 137; 13; 191; 230; 66; 104; 65; 153; 45; 15; 176; 84; 187; 22]%N.

Definition SubByte (b : N) : N := nth (N.to_nat b) sbox 0%N.

Definition xorBytes (a b : list N) : list N := zip_with N.lxor a b.

Definition RotWord (w : list N) : list N :=
  match w with
  | a :: rest => rest ++ [a]
  | [] => []
  end.

(** The key schedule: [w] holds the words made so far, [i] is the
    index of the next one and [rc] the next round constant. *)
Fixpoint expandLoop (count i Nk : nat) (rc : N) (w : list (list N)) : list (list N) :=
  match count with
  | O => w
  | S count' =>
      let temp := nth (i - 1) w [] in
      let '(temp, rc') :=
        if (i mod Nk =? 0)%nat then
          (xorBytes (List.map SubByte (RotWord temp)) [rc; 0; 0; 0]%N, xtime rc)
        else if (6 <? Nk)%nat && (i mod Nk =? 4)%nat then
          (List.map SubByte temp, rc)
        else (temp, rc) in
      expandLoop count' (S i) Nk rc' (w ++ [xorBytes (nth (i - Nk) w []) temp])
  end.

Fixpoint words (bytes : list N) (n : nat) : list (list N) :=
  match n with
  | O => []
  | S n' => take 4 bytes :: words (drop 4 bytes) n'
  end.

(** An expanded key: the number of rounds and the round-key words. *)
Record Cipher := {
  rounds : nat;
  schedule : list (list N)
}.

(** [aes.NewCipher]: [None] is the [KeySizeError]. *)
Definition NewCipher (key : list N) : option Cipher :=
  if bool_decide (List.length key ∈ [16; 24; 32]%nat) then
    let Nk := (List.length key / 4)%nat in
    let Nr := (Nk + 6)%nat in
    Some {| rounds := Nr;
            schedule := expandLoop (4 * (Nr + 1) - Nk) Nk Nk 1%N (words key Nk) |}
  else None.

Definition AddRoundKey (c : Cipher) (round : nat) (state : list N) : list N :=
  xorBytes state (concat (take 4 (drop (4 * round) (schedule c)))).

Definition ShiftRows (state : list N) : list N :=
  List.map (fun i => nth (i mod 4 + 4 * ((i / 4 + i mod 4) mod 4)) state 0%N) (seq 0 16).

Definition mixColumn (col : list N) : list N :=
  match col with
  | [a0; a1; a2; a3] =>
      [ N.lxor (xtime a0) (N.lxor (N.lxor (xtime a1) a1) (N.lxor a2 a3));
        N.lxor a0 (N.lxor (xtime a1) (N.lxor (N.lxor (xtime a2) a2) a3));
        N.lxor a0 (N.lxor a1 (N.lxor (xtime a2) (N.lxor (xtime a3) a3)));
        N.lxor (N.lxor (xtime a0) a0) (N.lxor a1 (N.lxor a2 (xtime a3))) ]
  | _ => col
  end.

Definition MixColumns (state : list N) : list N :=
  concat (List.map mixColumn (words state 4)).

Fixpoint roundsLoop (c : Cipher) (count round : nat) (state : list N) : list N :=
  match count with
  | O => state
  | S count' =>
      let state := ShiftRows (List.map SubByte state) in
      let state := if (round <? rounds c)%nat then MixColumns state else state in
      roundsLoop c count' (S round) (AddRoundKey c round state)
  end.

(** [Block.Encrypt] of one 16-byte block. *)
Definition Encrypt (c : Cipher) (block : list N) : list N :=
  roundsLoop c (rounds c) 1 (AddRoundKey c 0 block).

End AES.

Module CFB.

(** The [cfb] stream of crypto/cipher. *)
Record t := {
  b : AES.Cipher;
  next : list N;
  out : list N;
  outUsed : nat;
  decrypt : bool
}.

(** [cipher.NewCFBEncrypter] and [cipher.NewCFBDecrypter]; the vector
    has the block's size (the library panics otherwise). *)
Definition newCFB (block : AES.Cipher) (iv : list N) (decrypt : bool) : t :=
  {| b := block; next := iv; out := repeat 0%N AES.BlockSize;
     outUsed := AES.BlockSize; decrypt := decrypt |}.

Definition NewCFBEncrypter (block : AES.Cipher) (iv : list N) : t := newCFB block iv false.
Definition NewCFBDecrypter (block : AES.Cipher) (iv : list N) : t := newCFB block iv true.

(** [XORKeyStream] for one byte of [src]. *)
Definition xorByte (x : t) (s : N) : N * t :=
  let x1 :=
    if (outUsed x =? List.length (out x))%nat then
      {| b := b x; next := next x; out := AES.Encrypt (b x) (next x);
         outUsed := 0; decrypt := decrypt x |}
    else x in
  let d := N.lxor s (nth (outUsed x1) (out x1) 0%N) in
  (d, {| b := b x1;
         next := <[outUsed x1 := if decrypt x1 then s else d]> (next x1);
         out := out x1; outUsed := S (outUsed x1); decrypt := decrypt x1 |}).

(** [XORKeyStream(dst, src)]: the bytes written to [dst] and the
    stream afterwards. *)
Fixpoint XORKeyStream (x : t) (src : list N) : list N * t :=
  match src with
  | [] => ([], x)
  | s :: rest =>
      let '(d, x') := xorByte x s in
      let '(ds, x'') := XORKeyStream x' rest in
      (d :: ds, x'')
  end.

(** An encrypting and a decrypting stream in step: same cipher, same
    register, same key stream block, same position. *)
Definition inStep (xe xd : t) : Prop :=
  b xe = b xd /\ next xe = next xd /\ out xe = out xd /\ outUsed xe = outUsed xd /\
  decrypt xe = false /\ decrypt xd = true.

End CFB.

(** ** internal/backup: the encryption wrapper *)

Module Encryption.

Inductive ioError :=
| EOF
| ErrUnexpectedEOF
| KeySizeError.

#[global] Instance ioError_eq_dec : EqDecision ioError.
Proof. solve_decision. Defined.

(** The readers the wrapper builds and reads from: an opened file
    with what is left of it, [singleUseReader], [streamReader] and
    [io.MultiReader]. *)
#[warnings="-register-all"]
Inductive Reader :=
| FileReader (rest : list N)
| SingleUseReader (data : list N) (pos : nat)
| StreamReader (reader : Reader) (stream : CFB.t)
| MultiReader (readers : list Reader).

(** [Read(p)] with [len(p) = n]: the bytes put in [p], the error and
    the reader afterwards. *)
Fixpoint Read (r : Reader) (n : nat) : list N * option ioError * Reader :=
  match r with
  | FileReader rest =>
      if (n =? 0)%nat then ([], None, r)
      else match rest with
           | [] => ([], Some EOF, r)
           | _ => (take n rest, None, FileReader (drop n rest))
           end
  | SingleUseReader data pos =>
      if (List.length data <=? pos)%nat then ([], Some EOF, r)
      else
        let copied := take n (drop pos data) in
        (copied, None, SingleUseReader data (pos + List.length copied))
  | StreamReader reader stream =>
      let '(p, err, reader') := Read reader n in
      let '(p', stream') := CFB.XORKeyStream stream p in
      (p', err, StreamReader reader' stream')
  | MultiReader readers =>
      (fix loop (readers : list Reader) : list N * option ioError * Reader :=
         match readers with
         | [] => ([], Some EOF, MultiReader [])
         | r0 :: rest =>
             let '(p, err, r0') := Read r0 n in
             if bool_decide (err = Some EOF) then
               if (0 <? List.length p)%nat then
                 (p, (if (0 <? List.length rest)%nat then None else Some EOF),
                  MultiReader rest)
               else loop rest
             else (p, err, MultiReader (r0' :: rest))
         end) readers
  end.

(** [io.ReadFull(r, buf)] with [len(buf) = min], [acc] being what was
    read so far; [None] when [fuel] calls were not enough (the loop of
    [io.ReadAtLeast] has no bound of its own). *)
Fixpoint ReadFull (fuel : nat) (r : Reader) (min : nat) (acc : list N)
  : option (list N * option ioError * Reader) :=
  if (min <=? List.length acc)%nat then Some (acc, None, r)
  else
    match fuel with
    | O => None
    | S fuel' =>
        let '(p, err, r') := Read r (min - List.length acc) in
        let acc' := acc ++ p in
        match err with
        | None => ReadFull fuel' r' min acc'
        | Some e =>
            if (min <=? List.length acc')%nat then Some (acc', None, r')
            else if (0 <? List.length acc')%nat && bool_decide (e = EOF)
                 then Some (acc', Some ErrUnexpectedEOF, r')
            else Some (acc', Some e, r')
        end
    end.

(** [EncryptedReader] *)
Record EncryptedReader := {
  er_reader : Reader
}.

(** [NewEncryptedReader], [iv] being the sixteen bytes drawn from
    [rand.Reader]. *)
Definition NewEncryptedReader (reader : Reader) (key iv : list N)
  : EncryptedReader + ioError :=
  match AES.NewCipher key with
  | None => inr KeySizeError
  | Some block =>
      let stream := CFB.NewCFBEncrypter block iv in
      inl {| er_reader := MultiReader [SingleUseReader iv 0; StreamReader reader stream] |}
  end.

(** [DecryptedReader] *)
Record DecryptedReader := {
  dr_reader : Reader;
  dr_cipher : option CFB.t;
  ivRead : bool;
  dr_key : list N
}.

(** [NewDecryptedReader] *)
Definition NewDecryptedReader (reader : Reader) (key : list N) : DecryptedReader :=
  {| dr_reader := reader; dr_cipher := None; ivRead := false; dr_key := key |}.

(** The interface [io.Reader]; [None] stands for a call that does not
    return. *)
Class IoReader (R : Type) := io_Read : R -> nat -> option (list N * option ioError * R).

(** [EncryptedReader.Read] *)
#[global] Instance EncryptedReader_Read : IoReader EncryptedReader :=
  fun er n =>
    let '(p, err, r') := Read (er_reader er) n in
    Some (p, err, {| er_reader := r' |}).

(** The second half of [DecryptedReader.Read], once the cipher is set. *)
Definition readEncrypted (dr : DecryptedReader) (stream : CFB.t) (n : nat)
  : list N * option ioError * DecryptedReader :=
  let '(encrypted, err, reader') := Read (dr_reader dr) n in
  let '(p, stream') := CFB.XORKeyStream stream encrypted in
  (p, err, {| dr_reader := reader'; dr_cipher := Some stream';
              ivRead := true; dr_key := dr_key dr |}).

(** [DecryptedReader.Read] *)
#[global] Instance DecryptedReader_Read : IoReader DecryptedReader :=
  fun dr n =>
    if negb (ivRead dr) then
      match ReadFull (S AES.BlockSize) (dr_reader dr) AES.BlockSize [] with
      | None => None
      | Some (_, Some err, reader') =>
          Some ([], Some err,
                {| dr_reader := reader'; dr_cipher := dr_cipher dr;
                   ivRead := false; dr_key := dr_key dr |})
      | Some (iv, None, reader') =>
          match AES.NewCipher (dr_key dr) with
          | None =>
              Some ([], Some KeySizeError,
                    {| dr_reader := reader'; dr_cipher := dr_cipher dr;
                       ivRead := false; dr_key := dr_key dr |})
          | Some block =>
              Some (readEncrypted
                      {| dr_reader := reader'; dr_cipher := None;
                         ivRead := true; dr_key := dr_key dr |}
                      (CFB.NewCFBDecrypter block iv) n)
          end
      end
    else
      match dr_cipher dr with
      | Some stream => Some (readEncrypted dr stream n)
      | None => None
      end.

(** [io.Copy(dst, src)] through a buffer of [size] bytes: what was
    written to [dst] and the error returned, or [None] when [fuel]
    reads did not reach the end. *)
Fixpoint Copy {R : Type} `{IoReader R} (fuel : nat) (size : nat) (src : R)
  : option (list N * option ioError) :=
  match fuel with
  | O => None
  | S fuel' =>
      match io_Read src size with
      | None => None
      | Some (p, None, src') =>
          match Copy fuel' size src' with
          | Some (written, err) => Some (p ++ written, err)
          | None => None
          end
      | Some (p, Some EOF, _) => Some (p, None)
      | Some (p, Some err, _) => Some (p, Some err)
      end
  end.

(** [EncryptFile]: the bytes of the source file in, the bytes written
    to the destination file and the returned error out (both files
    open, at different paths). *)
Definition EncryptFile (fuel size : nat) (src key iv : list N)
  : option (list N * option ioError) :=
  match NewEncryptedReader (FileReader src) key iv with
  | inr err => Some ([], Some err)
  | inl encryptedReader => Copy fuel size encryptedReader
  end.

(** [DecryptFile], likewise. *)
Definition DecryptFile (fuel size : nat) (src key : list N)
  : option (list N * option ioError) :=
  Copy fuel size (NewDecryptedReader (FileReader src) key).

(** [VerifyKey], [archive] being the bytes of the file at
    [backupPath]: [Some None] is the [nil] error. *)
Definition VerifyKey (archive key : list N) : option (option ioError) :=
  let '(testData, _, _) := Read (FileReader archive) 1024 in
  let decryptedReader := NewDecryptedReader (SingleUseReader testData 0) key in
  match io_Read decryptedReader 100 with
  | None => None
  | Some (_, Some err, _) => if bool_decide (err = EOF) then Some None else Some (Some err)
  | Some (_, None, _) => Some None
  end.

End Encryption.

(** ** internal/docker/newt_injector.go: the preview *)

Module NewtPreview.

(** The map [PreviewNewtInjection] returns, by its five keys. *)
Record Preview := {
  has_newt_service : bool;
  will_add_newt : bool;
  will_add_network : bool;
  changes : list string;
  newt_service : ComposeService.t
}.

(** [PreviewNewtInjection] on the parsed document.  The services are
    visited in the key order of [map_to_list]. *)
Definition PreviewNewtInjection (config : Models.NewtConfig) (compose : DockerCompose.t)
  : Preview :=
  let hasNewt := bool_decide (is_Some (DockerCompose.Services compose !! "newt")) in
  let noNetworks := (size (DockerCompose.Networks compose) =? 0)%nat in
  let servicesNeedingNetworks :=
    (List.filter (fun kv => (List.length (ComposeService.Networks kv.2) =? 0)%nat)
                 (map_to_list (DockerCompose.Services compose))).*1 in
  {| has_newt_service := hasNewt;
     will_add_newt := negb hasNewt;
     will_add_network := noNetworks;
     changes :=
       (if hasNewt then [] else ["Add newt service"])
       ++ (if noNetworks then ["Add app_network"] else [])
       ++ (if (0 <? List.length servicesNeedingNetworks)%nat
           then ["Add network configuration to services: "
                 +:+ Strings.Join servicesNeedingNetworks ", "]
           else []);
     newt_service := NewtInjector.createNewtService config |}.


End NewtPreview.

(** ** The deployment handlers: creating and running a deployment *)

Module DeploymentProcess.

Import DeploymentsHandler.

Definition StatusCreated : nat := 201.
Definition StatusConflict : nat := 409.

(** [err.Error()] of the validation errors. *)
Definition errorText (err : Models.ValidationError) : string :=
  match err with
  | Models.ErrDeploymentTemplateRequired => "template ID is required"
  | Models.ErrDeploymentStackNameRequired => "stack name is required"
  | Models.ErrDeploymentInvalidStackName => "invalid stack name format"
  | Models.ErrNewtConfigRequired => "newt configuration is required when newt is enabled"
  | Models.ErrNewtEndpointRequired => "newt endpoint is required"
  | Models.ErrNewtIDRequired => "newt ID is required"
  | Models.ErrNewtSecretRequired => "newt secret is required"
  end.

(** [models.Deployment], by the fields [Create] sets and
    [performDeployment] reads. *)
Record Deployment := {
  ID : string;
  TemplateID : string;
  StackName : string;
  NewtInjected : bool
}.

(** [addDeploymentLog]: the [INSERT INTO deployment_logs], refused for
    a deployment the store does not hold (the foreign key) or a level
    outside the three of the [CHECK]; the error is dropped. *)
Definition addDeploymentLog (deploymentID level message : string) (w : World) : World :=
  if bool_decide (is_Some (DB.deployments (db w) !! deploymentID))
     && existsb (String.eqb level) ["info"; "warning"; "error"]
  then
    with_db w
      (DB.with_logs (db w)
         (DB.deployment_logs (db w)
          ++ [ {| DB.deployment_id := deploymentID; DB.log_level := level;
                  DB.message := message; DB.timestamp := now w |} ]))
  else w.

(** [updateTunnelURL]: [UPDATE deployments SET tunnel_url = $1 WHERE id = $2]. *)
Definition updateTunnelURL (deploymentID tunnelURL : string) (w : World) : World :=
  with_db w
    (DB.with_deployments (db w)
       (alter (fun row =>
                 {| DB.template_id := DB.template_id row;
                    DB.stack_name := DB.stack_name row;
                    DB.status := DB.status row;
                    DB.config := DB.config row;
                    DB.newt_injected := DB.newt_injected row;
                    DB.tunnel_url := tunnelURL;
                    DB.created_at := DB.created_at row;
                    DB.updated_at := DB.updated_at row |})
              deploymentID (DB.deployments (db w)))).

(** [time.Sleep]: the clock, read in seconds, moves on. *)
Definition Sleep (seconds : Z) (w : World) : World :=
  {| db := db w; now := (now w + seconds)%Z; downErr := downErr w; downed := downed w |}.

(** [performDeployment]; the template and the request are not read. *)
Definition performDeployment (deployment : Deployment) (w : World) : World :=
  let w := updateDeploymentStatus (ID deployment) Models.StatusDeploying w in
  let w := addDeploymentLog (ID deployment) "info" "Starting deployment process" w in
  let w := Sleep 5 w in
  let w := updateDeploymentStatus (ID deployment) Models.StatusRunning w in
  let w := addDeploymentLog (ID deployment) "info" "Deployment completed successfully" w in
  if NewtInjected deployment then
    updateTunnelURL (ID deployment)
      ("https://" +:+ StackName deployment +:+ ".tunnel.example.com") w
  else w.

Section Create.
(** [strings.TrimSpace]; the ids of the table [templates], which the
    handler only reads; [Deployment.MarshalConfig] of the
    configuration map built from the request. *)
Variable TrimSpace : string -> string.
Variable templates : gset string.
Variable MarshalConfig : Models.DeploymentConfig -> string.

(** [DeploymentsHandler.Create] on the decoded request: the answer,
    the world when the handler returns and the deployment handed to
    the goroutine it starts. *)
Definition Create (req : Models.DeploymentConfig) (w : World)
  : Response * World * option Deployment :=
  match Models.DeploymentConfig_Validate TrimSpace req with
  | Some err =>
      ({| code := StatusBadRequest; body := "Validation error: " +:+ errorText err |}, w, None)
  | None =>
      if negb (bool_decide (Models.TemplateID req ∈ templates)) then
        ({| code := StatusNotFound; body := "Template not found" |}, w, None)
      else if existsb (fun kv : string * DB.DeploymentRow =>
                         String.eqb (DB.stack_name kv.2) (Models.StackName req))
                      (map_to_list (DB.deployments (db w))) then
        ({| code := StatusConflict; body := "Stack name already exists" |}, w, None)
      else
        let deploymentID := "deploy_" +:+ NilEmpty.string_of_int (Z.to_int (now w)) in
        let deployment :=
          {| ID := deploymentID; TemplateID := Models.TemplateID req;
             StackName := Models.StackName req;
             NewtInjected := Models.IncludeNewt req |} in
        if bool_decide (is_Some (DB.deployments (db w) !! deploymentID)) then
          ({| code := StatusInternalServerError;
              body := "Failed to create deployment: UNIQUE constraint failed: deployments.id" |},
           w, None)
        else
          ({| code := StatusCreated; body := "Deployment started" |},
           with_db w
             (DB.with_deployments (db w)
                (<[deploymentID :=
                     {| DB.template_id := Models.TemplateID req;
                        DB.stack_name := Models.StackName req;
                        DB.status := Models.StatusPending;
                        DB.config := MarshalConfig req;
                        DB.newt_injected := Models.IncludeNewt req;
                        DB.tunnel_url := "";
                        DB.created_at := now w;
                        DB.updated_at := now w |}]> (DB.deployments (db w)))),
           Some deployment)
  end.
End Create.

(** Every stored deployment has a stack name of the accepted form, and
    no two share one. *)
Definition stackNamesValid (d : DB.t) : Prop :=
  forall id row, DB.deployments d !! id = Some row ->
                 Models.isValidStackName (DB.stack_name row) = true.

Definition stackNamesUnique (d : DB.t) : Prop :=
  forall id1 id2 row1 row2,
    DB.deployments d !! id1 = Some row1 -> DB.deployments d !! id2 = Some row2 ->
    DB.stack_name row1 = DB.stack_name row2 -> id1 = id2.

End DeploymentProcess.

(** ** The stack handlers *)

Module StacksHandler.

(** The handler's surroundings: the store, the clock, the commands
    that fail (with the error of [cmd.Run]) and the commands run so
    far. *)
Record World := {
  db : DB.t;
  now : Z;
  failing : gmap (list string) string;
  ran : list (list string)
}.

(** [ComposeManager.runCommand]; [%v] prints the arguments between
    brackets, separated by blanks. *)
Definition runCommand (command : string) (args : list string) (w : World)
  : option string * World :=
  let w' := {| db := db w; now := now w; failing := failing w;
               ran := ran w ++ [command :: args] |} in
  match failing w !! (command :: args) with
  | Some err =>
      (Some ("command failed: " +:+ command +:+ " [" +:+ Strings.Join args " " +:+ "]: "
             +:+ err), w')
  | None => (None, w')
  end.

(** [ComposeManager.Start], [Stop] and [Restart] *)
Definition ComposeStart (stackName : string) (w : World) : option string * World :=
  runCommand "docker" ["compose"; "--project-name"; stackName; "start"] w.

Definition ComposeStop (stackName : string) (w : World) : option string * World :=
  runCommand "docker" ["compose"; "--project-name"; stackName; "stop"] w.

Definition ComposeRestart (stackName : string) (w : World) : option string * World :=
  runCommand "docker" ["compose"; "--project-name"; stackName; "restart"] w.

(** [getStackName]: the empty string when no row has the id. *)
Definition getStackName (stackID : string) (w : World) : string :=
  default "" (DB.stack_name <$> DB.deployments (db w) !! stackID).

(** [StacksHandler.updateDeploymentStatus] *)
Definition updateDeploymentStatus (deploymentID : string)
    (status : Models.DeploymentStatus) (w : World) : World :=
  {| db :=
       DB.with_deployments (db w)
         (alter (fun row =>
                   {| DB.template_id := DB.template_id row;
                      DB.stack_name := DB.stack_name row;
                      DB.status := status;
                      DB.config := DB.config row;
                      DB.newt_injected := DB.newt_injected row;
                      DB.tunnel_url := DB.tunnel_url row;
                      DB.created_at := DB.created_at row;
                      DB.updated_at := now w |})
                deploymentID (DB.deployments (db w)));
     now := now w; failing := failing w; ran := ran w |}.

(** [StacksHandler.Start] *)
Definition Start (stackID : string) (w : World) : DeploymentsHandler.Response * World :=
  let stackName := getStackName stackID w in
  if String.eqb stackName "" then
    ({| DeploymentsHandler.code := DeploymentsHandler.StatusNotFound;
        DeploymentsHandler.body := "Stack not found" |}, w)
  else
    match ComposeStart stackName w with
    | (Some err, w1) =>
        ({| DeploymentsHandler.code := DeploymentsHandler.StatusInternalServerError;
            DeploymentsHandler.body := "Failed to start stack: " +:+ err |}, w1)
    | (None, w1) =>
        ({| DeploymentsHandler.code := DeploymentsHandler.StatusOK;
            DeploymentsHandler.body := "Stack started successfully" |},
         updateDeploymentStatus stackID Models.StatusRunning w1)
    end.

(** [StacksHandler.Stop] *)
Definition Stop (stackID : string) (w : World) : DeploymentsHandler.Response * World :=
  let stackName := getStackName stackID w in
  if String.eqb stackName "" then
    ({| DeploymentsHandler.code := DeploymentsHandler.StatusNotFound;
        DeploymentsHandler.body := "Stack not found" |}, w)
  else
    match ComposeStop stackName w with
    | (Some err, w1) =>
        ({| DeploymentsHandler.code := DeploymentsHandler.StatusInternalServerError;
            DeploymentsHandler.body := "Failed to stop stack: " +:+ err |}, w1)
    | (None, w1) =>
        ({| DeploymentsHandler.code := DeploymentsHandler.StatusOK;
            DeploymentsHandler.body := "Stack stopped successfully" |},
         updateDeploymentStatus stackID Models.StatusStopped w1)
    end.

(** [StacksHandler.Restart] *)
Definition Restart (stackID : string) (w : World) : DeploymentsHandler.Response * World :=
  let stackName := getStackName stackID w in
  if String.eqb stackName "" then
    ({| DeploymentsHandler.code := DeploymentsHandler.StatusNotFound;
        DeploymentsHandler.body := "Stack not found" |}, w)
  else
    match ComposeRestart stackName w with
    | (Some err, w1) =>
        ({| DeploymentsHandler.code := DeploymentsHandler.StatusInternalServerError;
            DeploymentsHandler.body := "Failed to restart stack: " +:+ err |}, w1)
    | (None, w1) =>
        ({| DeploymentsHandler.code := DeploymentsHandler.StatusOK;
            DeploymentsHandler.body := "Stack restarted successfully" |}, w1)
    end.

End StacksHandler.

(** ** internal/backup: removing a backup *)

Module BackupRemoval.

Import BackupModels Manager.

(** [os.Remove(p)]: a file, or a directory with nothing below it; the
    caller drops the error. *)
Definition Remove (p : path) (f : FS.t) : FS.t :=
  if bool_decide (p ∈ FS.faulty f) then f
  else if bool_decide (is_Some (FS.files f !! p)) then
    {| FS.dirs := FS.dirs f; FS.files := delete p (FS.files f);
       FS.faulty := FS.faulty f; FS.oplog := FS.oplog f |}
  else if existsb (fun q => bool_decide (p `prefix_of` q) && negb (bool_decide (q = p)))
                  (elements (FS.dirs f) ++ (map_to_list (FS.files f)).*1)
  then f
  else
    {| FS.dirs := FS.dirs f ∖ {[ p ]}; FS.files := FS.files f;
       FS.faulty := FS.faulty f; FS.oplog := FS.oplog f |}.

Section Delete.
Variable storagePath : path.

(** [Manager.DeleteBackup] *)
Definition DeleteBackup (backupID : string) (w : World) : option string * World :=
  match getBackup backupID w with
  | None => (Some "sql: no rows in result set", w)
  | Some backup =>
      let f1 :=
        if negb (bool_decide (StoragePath backup = [])) then Remove (StoragePath backup) (fs w)
        else fs w in
      let f2 := FS.RemoveAll (storagePath ++ [backupID]) f1 in
      (None, with_db (with_fs w f2)
               (DB.with_backups (db w) (delete backupID (DB.backups (db w)))))
  end.
End Delete.

End BackupRemoval.

(** ** internal/backup: the steps of a capture *)

Module ManagerSteps.

Import BackupModels Manager.

(** The loop of [performBackup] over the deployments. *)
Definition backupLoop (backupDir : path) (ids : list string) (acc : option string * World)
  : option string * World :=
  fold_left
    (fun acc deploymentID =>
       match acc with
       | (Some err, w) => (Some err, w)
       | (None, w) => backupDeployment deploymentID backupDir w
       end)
    ids acc.





End ManagerSteps.

(** ** internal/backup: the scheduler *)

Module Scheduler.

Import BackupModels.

(** [BackupSchedule], also a row of [backup_schedules]. *)
Record BackupSchedule := {
  s_ID : Z;
  s_Name : string;
  CronExpression : string;
  s_IncludeVolumes : bool;
  Encrypt : bool;
  Enabled : bool;
  LastRun : option Z;
  NextRun : option Z;
  s_CreatedAt : Z
}.

Definition with_runs (bs : BackupSchedule) (lastRun nextRun : option Z) : BackupSchedule :=
  {| s_ID := s_ID bs; s_Name := s_Name bs; CronExpression := CronExpression bs;
     s_IncludeVolumes := s_IncludeVolumes bs; Encrypt := Encrypt bs; Enabled := Enabled bs;
     LastRun := lastRun; NextRun := nextRun; s_CreatedAt := s_CreatedAt bs |}.

(** [BackupSchedule.UpdateNextRun]: a day from now, when no next run
    is set. *)
Definition UpdateNextRun (now : Z) (bs : BackupSchedule) : BackupSchedule :=
  match NextRun bs with
  | None => with_runs bs (LastRun bs) (Some (now + 24 * 3600)%Z)
  | Some _ => bs
  end.

(** The scheduler's surroundings: those of the manager, and the table
    [backup_schedules]. *)
Record World := {
  manager : Manager.World;
  backup_schedules : gmap Z BackupSchedule
}.

(** [getActiveDeployments]: [SELECT id FROM deployments WHERE status =
    'running'], in the key order of [map_to_list]. *)
Definition getActiveDeployments (w : World) : list string :=
  (List.filter (fun kv : string * DB.DeploymentRow =>
                  bool_decide (DB.status kv.2 = Models.StatusRunning))
               (map_to_list (DB.deployments (Manager.db (manager w))))).*1.

(** [createDeploymentBackups]: a failed [Scan] leaves the stack name
    empty. *)
Definition createDeploymentBackups (deploymentIDs : list string) (w : World)
  : list DeploymentBackup :=
  List.map
    (fun id =>
       {| db_ID := id;
          db_StackName :=
            default "" (DB.stack_name <$> DB.deployments (Manager.db (manager w)) !! id) |})
    deploymentIDs.

Section Execute.
(** The manager's storage root, and
    [time.Format("20060102_150405")]. *)
Variable storagePath : path.
Variable formatTime : Z -> string.

(** [executeScheduledBackup]: the schedule as the call leaves it, the
    world, and the goroutine started by the manager. *)
Definition executeScheduledBackup (schedule : BackupSchedule) (w : World)
  : BackupSchedule * World * option Manager.Task :=
  let deploymentIDs := getActiveDeployments w in
  if (List.length deploymentIDs =? 0)%nat then (schedule, w, None)
  else
    let config :=
      {| bc_Name := s_Name schedule +:+ "_" +:+ formatTime (Manager.now (manager w));
         bc_Type := BackupTypeScheduled;
         bc_IncludeVolumes := s_IncludeVolumes schedule;
         bc_Encrypted := Encrypt schedule;
         bc_Deployments := createDeploymentBackups deploymentIDs w |} in
    match Manager.CreateBackup storagePath config (manager w) with
    | (inr _, mw, _) =>
        (schedule, {| manager := mw; backup_schedules := backup_schedules w |}, None)
    | (inl _, mw, task) =>
        let now := Manager.now mw in
        let schedule' := UpdateNextRun now (with_runs schedule (Some now) (NextRun schedule)) in
        (schedule',
         {| manager := mw;
            backup_schedules :=
              alter (fun row => with_runs row (LastRun schedule') (NextRun schedule'))
                    (s_ID schedule) (backup_schedules w) |},
         task)
    end.
End Execute.

End Scheduler.

(** ** internal/backup: the key store *)

Module KeyStore.

(** [encoding/hex]: [hextable], [EncodeToString], [fromHexChar] and
    [DecodeString] ([None] is an [InvalidByteError] or [ErrLength]). *)
Definition hextable : string := "0123456789abcdef".

Definition hexDigit (n : N) : ascii :=
  default "0"%char (String.get (N.to_nat n) hextable).

Fixpoint EncodeToString (src : list N) : string :=
  match src with
  | [] => ""
  | v :: rest =>
      String (hexDigit (N.shiftr v 4)) (String (hexDigit (N.land v 15)) (EncodeToString rest))
  end.

Definition fromHexChar (c : ascii) : option N :=
  let n := N_of_ascii c in
  if (48 <=? n)%N && (n <=? 57)%N then Some (n - 48)%N
  else if (97 <=? n)%N && (n <=? 102)%N then Some (n - 97 + 10)%N
  else if (65 <=? n)%N && (n <=? 70)%N then Some (n - 65 + 10)%N
  else None.

Fixpoint DecodeString (s : string) : option (list N) :=
  match s with
  | EmptyString => Some []
  | String _ EmptyString => None
  | String a (String b rest) =>
      match fromHexChar a, fromHexChar b with
      | Some x, Some y =>
          match DecodeString rest with
          | Some l => Some (N.lor (N.shiftl x 4) y :: l)
          | None => None
          end
      | _, _ => None
      end
  end.

(** The key files below the key storage: directories, files with
    their text, and the paths on which every system call fails. *)
Record World := {
  dirs : gset path;
  files : gmap path string;
  faulty : gset path
}.

Inductive KeyError :=
| ErrCreateKeyDirectory
| ErrCreateKeyFile
| ErrOpenKeyFile
| ErrReadKey
| ErrDecodeKey
| ErrDeleteKey.

Section Keys.
(** [EncryptionManager.keyStorage] *)
Variable keyStorage : path.

Definition keyPath (backupID : string) : path :=
  keyStorage ++ ["keys"; backupID +:+ ".key"].

(** [StoreKey] *)
Definition StoreKey (backupID : string) (key : list N) (w : World)
  : option KeyError * World :=
  let keyDir := keyStorage ++ ["keys"] in
  if bool_decide (keyDir ∈ faulty w)
     || existsb (fun q => bool_decide (is_Some (files w !! q))) (FS.ancestors keyDir) then
    (Some ErrCreateKeyDirectory, w)
  else
    let w1 := {| dirs := dirs w ∪ list_to_set (FS.ancestors keyDir); files := files w;
                 faulty := faulty w |} in
    if bool_decide (keyPath backupID ∈ faulty w1)
       || bool_decide (keyPath backupID ∈ dirs w1) then
      (Some ErrCreateKeyFile, w1)
    else
      (None, {| dirs := dirs w1;
                files := <[keyPath backupID := EncodeToString key]> (files w1);
                faulty := faulty w1 |}).

(** [RetrieveKey] *)
Definition RetrieveKey (backupID : string) (w : World) : list N + KeyError :=
  if bool_decide (keyPath backupID ∈ faulty w) then inr ErrOpenKeyFile
  else if bool_decide (keyPath backupID ∈ dirs w) then inr ErrReadKey
  else
    match files w !! keyPath backupID with
    | None => inr ErrOpenKeyFile
    | Some keyHex =>
        match DecodeString keyHex with
        | Some key => inl key
        | None => inr ErrDecodeKey
        end
    end.

(** [DeleteKey]: a key file that is not there is no error. *)
Definition DeleteKey (backupID : string) (w : World) : option KeyError * World :=
  if bool_decide (keyPath backupID ∈ faulty w) then (Some ErrDeleteKey, w)
  else if bool_decide (keyPath backupID ∈ dirs w) then
    if existsb (fun q => bool_decide (keyPath backupID `prefix_of` q)
                         && negb (bool_decide (q = keyPath backupID)))
               (elements (dirs w) ++ (map_to_list (files w)).*1)
    then (Some ErrDeleteKey, w)
    else (None, {| dirs := dirs w ∖ {[ keyPath backupID ]}; files := files w;
                   faulty := faulty w |})
  else (None, {| dirs := dirs w; files := delete (keyPath backupID) (files w);
                 faulty := faulty w |}).
End Keys.

End KeyStore.

(** ** internal/models: the deployment's configuration map *)

Module DeploymentModel.

(** What an [interface{}] of [Deployment.Config] holds: what
    [encoding/json] decodes to, and the typed values the handlers put
    there ([map[string]string], [*NewtConfig]). *)
#[warnings="-register-all"]
Inductive Value :=
| VNil
| VBool (b : bool)
| VNumber (z : Z)
| VString (s : string)
| VSlice (l : list Value)
| VMap (m : gmap string Value)
| VStringMap (m : gmap string string)
| VNewtConfig (nc : Models.NewtConfig).

(** [Deployment], by the fields its methods read and write; [Config]
    is [None] for the [nil] map. *)
Record Deployment := {
  StackName : string;
  Status : Models.DeploymentStatus;
  Config : option (gmap string Value);
  UpdatedAt : Z
}.

Definition with_Config (d : Deployment) (config : gmap string Value) : Deployment :=
  {| StackName := StackName d; Status := Status d; Config := Some config;
     UpdatedAt := UpdatedAt d |}.

(** [GetEnvVar] *)
Definition GetEnvVar (d : Deployment) (key : string) : string * bool :=
  match Config d with
  | None => ("", false)
  | Some config =>
      match config !! "environment" with
      | Some (VMap envMap) =>
          match envMap !! key with
          | Some (VString strValue) => (strValue, true)
          | _ => ("", false)
          end
      | _ => ("", false)
      end
  end.

(** [SetEnvVar] *)
Definition SetEnvVar (d : Deployment) (key value : string) : Deployment :=
  let config := default ∅ (Config d) in
  let config :=
    if bool_decide (is_Some (config !! "environment")) then config
    else <["environment" := VMap ∅]> config in
  match config !! "environment" with
  | Some (VMap envMap) =>
      with_Config d (<["environment" := VMap (<[key := VString value]> envMap)]> config)
  | _ => with_Config d config
  end.

End DeploymentModel.

(** ** internal/models: stacks *)

Module StackModel.

Inductive StackStatus :=
| StackStatusRunning
| StackStatusStopped
| StackStatusPartial
| StackStatusUnknown.

#[global] Instance StackStatus_eq_dec : EqDecision StackStatus.
Proof. solve_decision. Defined.

Inductive StackOperation :=
| OperationStart
| OperationStop
| OperationRestart
| OperationPause
| OperationUnpause
| OperationRemove.

(** [StackService], by the fields the methods read. *)
Record StackService := {
  Name : string;
  Status : string;
  Health : string
}.

Record Stack := {
  s_Status : StackStatus;
  Services : list StackService;
  s_UpdatedAt : Z
}.

(** [IsRunning] *)
Definition IsRunning (s : Stack) : bool :=
  if (List.length (Services s) =? 0)%nat then false
  else forallb (fun service => String.eqb (Status service) "running") (Services s).

(** [GetRunningServices] *)
Definition GetRunningServices (s : Stack) : nat :=
  List.length (List.filter (fun service => String.eqb (Status service) "running")
                           (Services s)).

(** [GetTotalServices] *)
Definition GetTotalServices (s : Stack) : nat := List.length (Services s).

(** [GetService] *)
Definition GetService (s : Stack) (name : string) : option StackService :=
  List.find (fun service => String.eqb (Name service) name) (Services s).

(** [HasNewtService] *)
Definition HasNewtService (s : Stack) : bool :=
  bool_decide (is_Some (GetService s "newt")).

(** [GetNewtTunnelStatus] *)
Definition GetNewtTunnelStatus (s : Stack) : string :=
  match GetService s "newt" with
  | Some service => Health service
  | None => "unavailable"
  end.

(** [CanPerformOperation] *)
Definition CanPerformOperation (s : Stack) (op : StackOperation) : bool :=
  match op with
  | OperationStart => bool_decide (s_Status s = StackStatusStopped)
  | OperationStop =>
      bool_decide (s_Status s = StackStatusRunning)
      || bool_decide (s_Status s = StackStatusPartial)
  | OperationRestart =>
      bool_decide (s_Status s = StackStatusRunning)
      || bool_decide (s_Status s = StackStatusPartial)
  | OperationRemove => bool_decide (s_Status s = StackStatusStopped)
  | _ => false
  end.

(** [UpdateStatus], at the time [now]. *)
Definition UpdateStatus (now : Z) (s : Stack) : Stack :=
  if (List.length (Services s) =? 0)%nat then
    {| s_Status := StackStatusUnknown; Services := Services s; s_UpdatedAt := s_UpdatedAt s |}
  else
    let runningCount := GetRunningServices s in
    let totalCount := GetTotalServices s in
    {| s_Status :=
         if (runningCount =? totalCount)%nat then StackStatusRunning
         else if (runningCount =? 0)%nat then StackStatusStopped
         else StackStatusPartial;
       Services := Services s; s_UpdatedAt := now |}.

End StackModel.

(** ** Sample inputs *)

Module Examples.

(** *** Compose documents *)

Definition config : Models.NewtConfig :=
  {| Models.Endpoint := "https://pangolin.example.com"; Models.NewtID := "newt-1";
     Models.Secret := "s3cret"; Models.Image := "" |}.

Definition service (image : string) (environment volumes networks : list string)
  : ComposeService.t :=
  {| ComposeService.Image := image; ComposeService.ContainerName := "";
     ComposeService.Restart := ""; ComposeService.Environment := environment;
     ComposeService.Ports := []; ComposeService.Volumes := volumes;
     ComposeService.Networks := networks; ComposeService.DependsOn := [];
     ComposeService.HealthCheck := None; ComposeService.Labels := ∅;
     ComposeService.Command := AnyNil; ComposeService.Entrypoint := AnyNil |}.

Definition network : ComposeNetwork.t :=
  {| ComposeNetwork.Driver := "bridge"; ComposeNetwork.External := false;
     ComposeNetwork.Name := ""; ComposeNetwork.Labels := ∅ |}.

Definition compose (services : gmap string ComposeService.t)
    (networks : gmap string ComposeNetwork.t) : DockerCompose.t :=
  {| DockerCompose.Version := "3.8"; DockerCompose.Services := services;
     DockerCompose.Networks := networks; DockerCompose.Volumes := ∅ |}.

(** A newt service with the right image and socket mount, and no
    [NEWT_SECRET]. *)
Definition newtWithoutSecret : ComposeService.t :=
  service "fosrl/newt:latest"
          ["PANGOLIN_ENDPOINT=https://pangolin.example.com"; "NEWT_ID=newt-1"]
          ["/var/run/docker.sock:/var/run/docker.sock:ro"] ["app_network"].

Definition composeWithoutSecret : DockerCompose.t :=
  compose {[ "newt" := newtWithoutSecret ]} {[ "app_network" := network ]}.

(** A newt service with no image and no variable at all. *)
Definition composeWithoutImage : DockerCompose.t :=
  compose {[ "newt" := service "" [] [] [] ]} {[ "app_network" := network ]}.

(** One service on a network of its own, and no newt service. *)
Definition composeBackend : DockerCompose.t :=
  compose {[ "web" := service "nginx:1.25" [] [] ["backend"] ]} {[ "backend" := network ]}.

(** *** A deployment in the store *)

Definition deploymentRow (stack : string) (status : Models.DeploymentStatus)
  : DB.DeploymentRow :=
  {| DB.template_id := "nginx"; DB.stack_name := stack; DB.status := status;
     DB.config := "{}"; DB.newt_injected := false; DB.tunnel_url := "";
     DB.created_at := 1700000000; DB.updated_at := 1700000000 |}.

(** One deployment, [deploy_1], of stack [demo-1], with no log row; the
    executor brings every stack down. *)
Definition handlerWorld (status : Models.DeploymentStatus) : DeploymentsHandler.World :=
  {| DeploymentsHandler.db :=
       {| DB.deployments := {[ "deploy_1" := deploymentRow "demo-1" status ]};
          DB.deployment_logs := []; DB.backups := ∅ |};
     DeploymentsHandler.now := 1700000100;
     DeploymentsHandler.downErr := ∅;
     DeploymentsHandler.downed := [] |}.

(** *** Backups *)

(** The storage root of the manager and the size of an archive file. *)
Definition storagePath : path := ["var"; "backups"].
Definition archiveSize (entries : list (path * option FS.Document)) : Z :=
  512 * Z.of_nat (List.length entries).

Definition emptyFS : FS.t :=
  {| FS.dirs := ∅; FS.files := ∅; FS.faulty := ∅; FS.oplog := [] |}.

(** No deployment, no backup, nothing on disk. *)
Definition emptyWorld : Manager.World :=
  {| Manager.db := {| DB.deployments := ∅; DB.deployment_logs := []; DB.backups := ∅ |};
     Manager.fs := emptyFS;
     Manager.now := 1700000000 |}.

(** A manual backup of no deployment at all. *)
Definition emptySelection : BackupModels.BackupConfig :=
  {| BackupModels.bc_Name := "nightly";
     BackupModels.bc_Type := BackupModels.BackupTypeManual;
     BackupModels.bc_IncludeVolumes := false;
     BackupModels.bc_Encrypted := false;
     BackupModels.bc_Deployments := [] |}.

(** A manual backup of [deploy_404], which the store does not know. *)
Definition unknownDeployment : BackupModels.BackupConfig :=
  {| BackupModels.bc_Name := "nightly";
     BackupModels.bc_Type := BackupModels.BackupTypeManual;
     BackupModels.bc_IncludeVolumes := false;
     BackupModels.bc_Encrypted := false;
     BackupModels.bc_Deployments :=
       [ {| BackupModels.db_ID := "deploy_404"; BackupModels.db_StackName := "gone" |} ] |}.

(** The world in which [CreateBackup] has returned. *)
Definition created (config : BackupModels.BackupConfig) : Manager.World :=
  (Manager.CreateBackup storagePath config emptyWorld).1.2.

(** The same world once the goroutine started by [CreateBackup] has
    run to its end. *)
Definition captured (config : BackupModels.BackupConfig) : Manager.World :=
  match (Manager.CreateBackup storagePath config emptyWorld).2 with
  | Some task => Manager.runTask archiveSize storagePath task (created config)
  | None => created config
  end.

(** A completed backup of [deploy_1] with its archive on disk. *)
Definition archivePath : path := storagePath ++ ["backup_1.tar.gz"].

Definition restorableWorld (status : DB.BackupStatus) : Manager.World :=
  {| Manager.db :=
       {| DB.deployments := ∅; DB.deployment_logs := [];
          DB.backups :=
            {[ "backup_1" :=
                 {| DB.b_name := "nightly"; DB.b_type := BackupModels.BackupTypeManual;
                    DB.b_status := status; DB.b_size_bytes := 1536;
                    DB.b_include_volumes := false; DB.b_encrypted := false;
                    DB.b_storage_path := archivePath;
                    DB.b_deployment_ids := ["deploy_1"];
                    DB.b_created_at := 1700000000;
                    DB.b_completed_at := Some 1700000060%Z |} ]} |};
     Manager.fs :=
       {| FS.dirs := {[ ["var"]; storagePath ]};
          FS.files :=
            {[ archivePath :=
                 FS.TarGz
                   [ ([], None);
                     (["deployments"], None);
                     (["deployments"; "deploy_1"], None);
                     (["deployments"; "deploy_1"; "deployment.json"],
                      Some (FS.DeploymentInfo "deploy_1" "demo-1" "nginx" "{}"));
                     (["metadata.json"],
                      Some (FS.BackupMetadata "1.0" 1700000000 "1.0.0" 1 0)) ]
                   true ]};
          FS.faulty := ∅; FS.oplog := [] |};
     Manager.now := 1700000500 |}.

(** A selective restore that names no deployment. *)
Definition selectNothing : BackupModels.RestoreConfig :=
  {| BackupModels.BackupID := "backup_1";
     BackupModels.Selective := true;
     BackupModels.rc_DeploymentIDs := [];
     BackupModels.OverwriteExisting := false;
     BackupModels.RestoreVolumes := false;
     BackupModels.TestRestore := false |}.

(** *** Keys *)

(** Two different 16-byte keys and a vector. *)
Definition zeroKey : list N := repeat 0%N 16.
Definition otherKey : list N := repeat 0%N 15 ++ [216%N].
Definition countingIV : list N :=
  [0; 1; 2; 3; 4; 5; 6; 7; 8; 9; 10; 11; 12; 13; 14; 15]%N.

(** The buffer of [io.Copy]. *)
Definition copyBuffer : nat := (32 * 1024)%nat.

End Examples.

(** ** Further sample inputs *)

Module Samples.

(** [deploy_1] of [Examples.handlerWorld] once it has been deployed:
    the two log rows of [performDeployment] reference it. *)
Definition deployed : DeploymentsHandler.World :=
  DeploymentProcess.performDeployment
    {| DeploymentProcess.ID := "deploy_1"; DeploymentProcess.TemplateID := "nginx";
       DeploymentProcess.StackName := "demo-1"; DeploymentProcess.NewtInjected := true |}
    (Examples.handlerWorld Models.StatusPending).

(** The stack handlers' world over the same store; every command
    succeeds. *)
Definition stacksWorld (status : Models.DeploymentStatus) : StacksHandler.World :=
  {| StacksHandler.db := DeploymentsHandler.db (Examples.handlerWorld status);
     StacksHandler.now := 1700000200;
     StacksHandler.failing := ∅;
     StacksHandler.ran := [] |}.

(** A selective restore of [deploy_1] from [backup_1]. *)
Definition selectOne : BackupModels.RestoreConfig :=
  {| BackupModels.BackupID := "backup_1";
     BackupModels.Selective := true;
     BackupModels.rc_DeploymentIDs := ["deploy_1"];
     BackupModels.OverwriteExisting := false;
     BackupModels.RestoreVolumes := false;
     BackupModels.TestRestore := false |}.

(** [backup_1] as [getBackup] reads it from [Examples.restorableWorld]. *)
Definition backup1 : BackupModels.Backup :=
  {| BackupModels.ID := "backup_1"; BackupModels.Name := "nightly";
     BackupModels.Type_ := BackupModels.BackupTypeManual;
     BackupModels.Status := DB.BackupStatusCompleted;
     BackupModels.SizeBytes := 1536;
     BackupModels.IncludeVolumes := false; BackupModels.Encrypted := false;
     BackupModels.StoragePath := Examples.archivePath;
     BackupModels.DeploymentIDs := ["deploy_1"];
     BackupModels.CreatedAt := 1700000000;
     BackupModels.CompletedAt := Some 1700000060%Z |}.



(** The backup [CreateBackup] starts for a configuration at
    1700000000. *)
Definition started (config : BackupModels.BackupConfig) : BackupModels.Backup :=
  {| BackupModels.ID := "backup_1700000000";
     BackupModels.Name := BackupModels.bc_Name config;
     BackupModels.Type_ := BackupModels.bc_Type config;
     BackupModels.Status := DB.BackupStatusCreating;
     BackupModels.SizeBytes := 0;
     BackupModels.IncludeVolumes := BackupModels.bc_IncludeVolumes config;
     BackupModels.Encrypted := BackupModels.bc_Encrypted config;
     BackupModels.StoragePath := [];
     BackupModels.DeploymentIDs := Manager.getDeploymentIDsFromConfig config;
     BackupModels.CreatedAt := 1700000000;
     BackupModels.CompletedAt := None |}.

(** An empty key store below [var/backups]. *)
Definition emptyKeys : KeyStore.World :=
  {| KeyStore.dirs := ∅; KeyStore.files := ∅; KeyStore.faulty := ∅ |}.

End Samples.


(** ** The stack-name grammar, in the specification's words *)

(** 1 to 63 characters; alphanumeric, [-], [_] only; the first one
    alphanumeric. *)
Definition StackNameGrammar (name : string) : Prop :=
  (1 <= String.length name <= 63)%nat /\
  (forall c, In c (list_ascii_of_string name) ->
             Models.is_alnum c = true \/ c = "-"%char \/ c = "_"%char) /\
  (exists c rest, name = String c rest /\ Models.is_alnum c = true).


(** * Properties *)

(** ** Stack names *)

Section StackNames.

Import Models.

Lemma all_chars_spec (p : ascii -> bool) (s : string) :
  all_chars p s = true <-> (forall c, In c (list_ascii_of_string s) -> p c = true).
Proof.
  induction s as [|c s IH]; simpl.
  - split; [intros _ c [] | reflexivity].
  - destruct (p c) eqn:Hc.
    + rewrite IH. split.
      * intros H c' [<-|Hin]; auto.
      * intros H c' Hin. apply H. now right.
    + split; [discriminate|].
      intros H. rewrite <- Hc. apply H. now left.
Qed.

Lemma stack_char_ok_spec (c : ascii) :
  stack_char_ok c = true <->
  (is_alnum c = true \/ c = "-"%char \/ c = "_"%char).
Proof.
  unfold stack_char_ok.
  rewrite !orb_true_iff, !Ascii.eqb_eq. tauto.
Qed.

Lemma isValidStackName_iff (name : string) :
  isValidStackName name = true <-> StackNameGrammar name.
Proof.
  unfold isValidStackName, StackNameGrammar.
  destruct (String.length name =? 0)%nat eqn:Hz; simpl.
  { apply Nat.eqb_eq in Hz. split; [discriminate|]. intros [[H _] _]. lia. }
  apply Nat.eqb_neq in Hz.
  destruct (63 <? String.length name)%nat eqn:Hlen; simpl.
  { apply Nat.ltb_lt in Hlen. split; [discriminate|]. intros [[_ H] _]. lia. }
  apply Nat.ltb_ge in Hlen.
  destruct (all_chars stack_char_ok name) eqn:Hall; simpl.
  - pose proof (proj1 (all_chars_spec _ _) Hall) as Hchars.
    destruct name as [|c rest].
    + simpl in Hz. lia.
    + split.
      * intros Hc. split; [lia|]. split.
        -- intros c' Hin. apply stack_char_ok_spec. auto.
        -- exists c, rest. auto.
      * intros (_ & _ & c' & rest' & Heq & Hal). now inversion Heq; subst.
  - split; [discriminate|].
    intros (_ & Hchars & _).
    assert (all_chars stack_char_ok name = true) as Habs.
    { apply all_chars_spec. intros c Hin. apply stack_char_ok_spec. auto. }
    congruence.
Qed.

Lemma Validate_rejects_invalid_name (TrimSpace : string -> string) (dc : DeploymentConfig) :
  isValidStackName (StackName dc) = false ->
  exists err, DeploymentConfig_Validate TrimSpace dc = Some err.
Proof.
  intros Hbad. unfold DeploymentConfig_Validate.
  destruct (String.eqb (TrimSpace (TemplateID dc)) ""); [eauto|].
  destruct (String.eqb (TrimSpace (StackName dc)) ""); [eauto|].
  rewrite Hbad. simpl. eauto.
Qed.

End StackNames.

(** C8.  The validator applied at creation accepts exactly the names of
    the grammar (1 to 63 characters, each alphanumeric, [-] or [_], the
    first alphanumeric); [DeploymentConfig.Validate], which creation
    runs first, returns a validation error for every other name;
    [my-app_1] is accepted, and [-leading], the empty name, every name
    of 64 characters and [My App] are not. *)
Theorem stack_name_validator_exact :
  (forall name, Models.isValidStackName name = true <-> StackNameGrammar name) /\
  (forall (TrimSpace : string -> string) (dc : Models.DeploymentConfig),
      Models.isValidStackName (Models.StackName dc) = false ->
      exists err, Models.DeploymentConfig_Validate TrimSpace dc = Some err) /\
  Models.isValidStackName "my-app_1" = true /\
  Models.isValidStackName "-leading" = false /\
  Models.isValidStackName "" = false /\
  (forall name, String.length name = 64%nat -> Models.isValidStackName name = false) /\
  Models.isValidStackName "My App" = false.
Proof.
  split; [exact isValidStackName_iff|].
  split; [exact Validate_rejects_invalid_name|].
  repeat split; try reflexivity.
  intros name Hlen. unfold Models.isValidStackName. now rewrite Hlen.
Qed.

(** The validator at work on a request that names the stack [-leading]. *)
Lemma stack_name_validator_exact_witness :
  exists err,
    Models.DeploymentConfig_Validate Strings.TrimSpaceASCII
      {| Models.TemplateID := "nginx"; Models.StackName := "-leading";
         Models.Environment := ∅; Models.NewtConfig_ := None;
         Models.AutoStart := true; Models.IncludeNewt := false |} = Some err.
Proof.
  apply (proj1 (proj2 stack_name_validator_exact)). reflexivity.
Defined.

(** ** The tunnel injector *)

Section Injector.

Import NewtInjector.

Lemma ensureServiceNetworks_idem (service : ComposeService.t) :
  ensureServiceNetworks (ensureServiceNetworks service) = ensureServiceNetworks service.
Proof.
  unfold ensureServiceNetworks.
  destruct (List.length (ComposeService.Networks service) =? 0)%nat eqn:Hlen.
  - reflexivity.
  - destruct (existsb (String.eqb "app_network") (ComposeService.Networks service)) eqn:Hex.
    + now rewrite Hlen, Hex.
    + simpl. rewrite length_app. simpl.
      replace (List.length (ComposeService.Networks service) + 1 =? 0)%nat with false
        by (symmetry; apply Nat.eqb_neq; lia).
      rewrite existsb_app. simpl. now rewrite orb_true_r.
Qed.

Lemma validateNewtService_networks (ord : list string) (service : ComposeService.t) :
  validateNewtService ord (ensureServiceNetworks service) = validateNewtService ord service.
Proof.
  unfold ensureServiceNetworks.
  destruct (_ =? _)%nat; [reflexivity|].
  destruct (existsb _ _); reflexivity.
Qed.

Lemma filter_length_zero {A} (f : A -> bool) (l : list A) :
  (0 <? List.length (List.filter f l))%nat = false <-> (forall x, In x l -> f x = false).
Proof.
  rewrite Nat.ltb_ge. induction l as [|a l IH]; simpl.
  - split; [intros _ x [] | lia].
  - destruct (f a) eqn:Ha; simpl.
    + split; [lia|]. intros H. specialize (H a (or_introl eq_refl)). congruence.
    + rewrite IH. split.
      * intros H x [<-|Hin]; auto.
      * intros H x Hin. apply H. now right.
Qed.

Lemma validateNewtService_order (ord1 ord2 : list string) (service : ComposeService.t) :
  Permutation ord1 ord2 ->
  validateNewtService ord1 service = None -> validateNewtService ord2 service = None.
Proof.
  intros Hperm. unfold validateNewtService.
  destruct (String.eqb _ ""); [discriminate|].
  destruct (negb (Strings.Contains _ "newt")); [discriminate|].
  set (f := fun env => negb (envFound (ComposeService.Environment service) env)).
  destruct (0 <? List.length (List.filter f ord1))%nat eqn:H1; [discriminate|].
  assert ((0 <? List.length (List.filter f ord2))%nat = false) as ->.
  { apply filter_length_zero. intros x Hin.
    apply (proj1 (filter_length_zero f ord1) H1).
    eapply Permutation_in; [symmetry; exact Hperm | exact Hin]. }
  auto.
Qed.

Lemma createNewtService_ensured (config : Models.NewtConfig) :
  ensureServiceNetworks (createNewtService config) = createNewtService config.
Proof. reflexivity. Qed.

(** The services of the processed document. *)
Lemma ProcessCompose_services (ord : list string) (config : Models.NewtConfig)
    (compose : DockerCompose.t) :
  DockerCompose.Services (ProcessCompose ord config compose).1 =
  ensureServiceNetworks <$>
    match DockerCompose.Services compose !! "newt" with
    | Some existingNewt =>
        match validateNewtService ord existingNewt with
        | Some _ => <["newt" := createNewtService config]> (DockerCompose.Services compose)
        | None => DockerCompose.Services compose
        end
    | None => <["newt" := createNewtService config]> (DockerCompose.Services compose)
    end.
Proof.
  unfold ProcessCompose.
  destruct (DockerCompose.Services compose !! "newt") as [existing|];
    [destruct (validateNewtService ord existing)|]; reflexivity.
Qed.

Lemma ProcessCompose_networks (ord : list string) (config : Models.NewtConfig)
    (compose : DockerCompose.t) :
  DockerCompose.Networks (ProcessCompose ord config compose).1 =
  (ensureNetworkConfiguration compose).1.(DockerCompose.Networks).
Proof.
  unfold ProcessCompose.
  destruct (DockerCompose.Services compose !! "newt") as [existing|];
    [destruct (validateNewtService ord existing)|]; reflexivity.
Qed.

Lemma ProcessCompose_version_volumes (ord : list string) (config : Models.NewtConfig)
    (compose : DockerCompose.t) :
  DockerCompose.Version (ProcessCompose ord config compose).1 = DockerCompose.Version compose /\
  DockerCompose.Volumes (ProcessCompose ord config compose).1 = DockerCompose.Volumes compose.
Proof.
  unfold ProcessCompose.
  destruct (DockerCompose.Services compose !! "newt") as [existing|];
    [destruct (validateNewtService ord existing)|]; split; reflexivity.
Qed.

Lemma ensured_networks_nonempty (compose : DockerCompose.t) :
  (size (DockerCompose.Networks (ensureNetworkConfiguration compose).1) =? 0)%nat = false.
Proof.
  unfold ensureNetworkConfiguration. simpl.
  destruct (size (DockerCompose.Networks compose) =? 0)%nat eqn:Hs; [|exact Hs].
  now rewrite map_size_singleton.
Qed.

Lemma DockerCompose_eq (a b : DockerCompose.t) :
  DockerCompose.Version a = DockerCompose.Version b ->
  DockerCompose.Services a = DockerCompose.Services b ->
  DockerCompose.Networks a = DockerCompose.Networks b ->
  DockerCompose.Volumes a = DockerCompose.Volumes b ->
  a = b.
Proof. destruct a, b; simpl; intros; subst; reflexivity. Qed.

End Injector.

(** C2.  The injector is idempotent on documents: processing the
    document that [ProcessCompose] produced gives that document back,
    with the same services, fields, networks and memberships.  (The
    two passes may range over the required variables in different
    orders.) *)
Theorem ProcessCompose_idempotent (ord1 ord2 : list string) (config : Models.NewtConfig)
    (compose : DockerCompose.t) :
  Permutation ord1 ord2 ->
  let injected := (NewtInjector.ProcessCompose ord1 config compose).1 in
  (NewtInjector.ProcessCompose ord2 config injected).1 = injected.
Proof.
  intros Hperm injected.
  apply DockerCompose_eq.
  - rewrite (proj1 (ProcessCompose_version_volumes _ _ _)). reflexivity.
  - rewrite ProcessCompose_services.
    subst injected. rewrite ProcessCompose_services.
    set (healed :=
           <["newt" := NewtInjector.createNewtService config]>
             (DockerCompose.Services compose)).
    set (S1 := match DockerCompose.Services compose !! "newt" with
               | Some e => match NewtInjector.validateNewtService ord1 e with
                           | Some _ => healed
                           | None => DockerCompose.Services compose
                           end
               | None => healed
               end).
    assert (exists x, S1 !! "newt" = Some x /\
              (x = NewtInjector.createNewtService config \/
               NewtInjector.validateNewtService ord1 x = None)) as (x & Hx & Hcases).
    { subst S1 healed. destruct (DockerCompose.Services compose !! "newt") as [e|] eqn:He.
      - destruct (NewtInjector.validateNewtService ord1 e) eqn:Hv.
        + eexists. rewrite lookup_insert_eq. eauto.
        + exists e. eauto.
      - eexists. rewrite lookup_insert_eq. eauto. }
    rewrite lookup_fmap, Hx. simpl.
    assert (NewtInjector.ensureServiceNetworks <$> (NewtInjector.ensureServiceNetworks <$> S1)
            = NewtInjector.ensureServiceNetworks <$> S1) as Hidem.
    { rewrite <- map_fmap_compose. apply map_fmap_ext. intros k v _. simpl.
      apply ensureServiceNetworks_idem. }
    destruct (NewtInjector.validateNewtService ord2 (NewtInjector.ensureServiceNetworks x)) eqn:Hv2.
    + rewrite fmap_insert, Hidem.
      destruct Hcases as [-> | Hok].
      * apply insert_id. rewrite lookup_fmap, Hx. reflexivity.
      * rewrite validateNewtService_networks in Hv2.
        rewrite (validateNewtService_order ord1 ord2 x Hperm Hok) in Hv2. discriminate.
    + exact Hidem.
  - rewrite ProcessCompose_networks. subst injected.
    unfold NewtInjector.ensureNetworkConfiguration at 1. simpl.
    rewrite ProcessCompose_networks.
    now rewrite ensured_networks_nonempty.
  - rewrite (proj2 (ProcessCompose_version_volumes _ _ _)). reflexivity.
Qed.

(** Two passes over [composeBackend], the second ranging over the
    required variables in reverse. *)
Lemma ProcessCompose_idempotent_witness :
  let injected :=
    (NewtInjector.ProcessCompose NewtInjector.requiredEnvNames Examples.config
       Examples.composeBackend).1 in
  (NewtInjector.ProcessCompose (rev NewtInjector.requiredEnvNames) Examples.config
     injected).1 = injected.
Proof.
  apply (ProcessCompose_idempotent NewtInjector.requiredEnvNames
           (rev NewtInjector.requiredEnvNames) Examples.config Examples.composeBackend).
  apply Permutation_rev.
Defined.


Section StringFacts.

Lemma prefix_nil (s : string) : String.prefix "" s = true.
Proof. destruct s; reflexivity. Qed.

Lemma prefix_refl (s : string) : String.prefix s s = true.
Proof.
  induction s as [|c s IH]; simpl; [reflexivity|].
  destruct (ascii_dec c c); [exact IH | congruence].
Qed.

Lemma prefix_app_l (v s t : string) :
  String.prefix v s = true -> String.prefix v (s +:+ t) = true.
Proof.
  revert s. induction v as [|a v IH]; intros s H; [apply prefix_nil|].
  destruct s as [|b s]; [discriminate|]. simpl in *.
  destruct (ascii_dec a b); [auto | discriminate].
Qed.

Lemma Contains_prefix (s v : string) :
  String.prefix v s = true -> Strings.Contains s v = true.
Proof. intros H. destruct s; cbn [Strings.Contains]; rewrite H; reflexivity. Qed.

Lemma Contains_cons (c : ascii) (s v : string) :
  Strings.Contains (String c s) v = String.prefix v (String c s) || Strings.Contains s v.
Proof. reflexivity. Qed.

Lemma Contains_app_r (p s v : string) :
  Strings.Contains s v = true -> Strings.Contains (p +:+ s) v = true.
Proof.
  intros H. induction p as [|c p IH]; [exact H|].
  change (String c p +:+ s) with (String c (p +:+ s)).
  rewrite Contains_cons, IH. apply orb_true_r.
Qed.

Lemma Contains_app_l (s t v : string) :
  Strings.Contains s v = true -> Strings.Contains (s +:+ t) v = true.
Proof.
  induction s as [|c s IH]; intros H.
  - apply Contains_prefix.
    destruct v; [apply prefix_nil | discriminate].
  - change (String c s +:+ t) with (String c (s +:+ t)).
    rewrite Contains_cons in *.
    apply orb_true_iff in H as [H|H].
    + change (String c (s +:+ t)) with (String c s +:+ t).
      rewrite (prefix_app_l _ _ t H). reflexivity.
    + rewrite (IH H). apply orb_true_r.
Qed.

Lemma Contains_Join (l : list string) (sep v : string) :
  In v l -> Strings.Contains (Strings.Join l sep) v = true.
Proof.
  induction l as [|e rest IH]; [intros []|].
  intros Hin. cbn [Strings.Join]. destruct rest as [|e' rest'].
  - destruct Hin as [->|[]]. apply Contains_prefix, prefix_refl.
  - destruct Hin as [->|Hin].
    + apply Contains_app_l, Contains_prefix, prefix_refl.
    + apply Contains_app_r, Contains_app_r, IH, Hin.
Qed.

End StringFacts.

Section Healing.

Import NewtInjector.



Lemma filter_In_length {A} (f : A -> bool) (l : list A) (x : A) :
  In x l -> f x = true -> (0 <? List.length (List.filter f l))%nat = true.
Proof.
  intros Hin Hf. apply Nat.ltb_lt.
  assert (In x (List.filter f l)) as H by (apply filter_In; auto).
  destruct (List.filter f l); [destruct H | simpl; lia].
Qed.

(** What [validateNewtService] answers for a service with a newt image
    and a required variable missing. *)
Lemma validateNewtService_missing (ord : list string) (service : ComposeService.t) (v : string) :
  ComposeService.Image service <> "" ->
  Strings.Contains (ComposeService.Image service) "newt" = true ->
  In v ord ->
  envFound (ComposeService.Environment service) v = false ->
  exists missing,
    In v missing /\
    validateNewtService ord service =
      Some ("missing required environment variables: " +:+ Strings.Join missing ", ").
Proof.
  intros Himg Hnewt Hin Hmiss. unfold validateNewtService.
  destruct (String.eqb_spec (ComposeService.Image service) ""); [contradiction|].
  rewrite Hnewt. simpl.
  set (f := fun env => negb (envFound (ComposeService.Environment service) env)).
  assert (f v = true) as Hf by (unfold f; now rewrite Hmiss).
  rewrite (filter_In_length f ord v Hin Hf).
  exists (List.filter f ord). split; [apply filter_In; auto | reflexivity].
Qed.

Lemma GetEnvironmentVars_found (config : Models.NewtConfig) (v : string) :
  In v requiredEnvNames -> envFound (GetEnvironmentVars config) v = true.
Proof.
  intros [<-|[<-|[<-|[]]]]; unfold envFound, GetEnvironmentVars, Strings.HasPrefix; simpl;
    rewrite prefix_nil; simpl; rewrite ?orb_true_r; reflexivity.
Qed.

(** The synthesized service passes [validateNewtService] as soon as the
    configured image, when there is one, is a newt image. *)
Lemma createNewtService_valid (ord : list string) (config : Models.NewtConfig) :
  Permutation requiredEnvNames ord ->
  Models.Image config = "" \/ Strings.Contains (Models.Image config) "newt" = true ->
  validateNewtService ord (createNewtService config) = None.
Proof.
  intros Hperm Himg. unfold validateNewtService.
  assert ((0 <? List.length
                  (List.filter
                     (fun env => negb (envFound (ComposeService.Environment
                                                   (createNewtService config)) env))
                     ord))%nat = false) as ->.
  { apply filter_length_zero. intros x Hin.
    change (ComposeService.Environment (createNewtService config))
      with (GetEnvironmentVars config).
    rewrite GetEnvironmentVars_found; [reflexivity|].
    eapply Permutation_in; [symmetry; exact Hperm | exact Hin]. }
  change (ComposeService.Volumes (createNewtService config))
    with ["/var/run/docker.sock:/var/run/docker.sock:ro"].
  change (ComposeService.Image (createNewtService config))
    with (if String.eqb (Models.Image config) "" then "fosrl/newt:latest"
          else Models.Image config).
  destruct (String.eqb_spec (Models.Image config) "") as [He|Hne].
  - reflexivity.
  - destruct (String.eqb_spec (Models.Image config) ""); [contradiction|].
    destruct Himg as [?|Hc]; [contradiction|]. rewrite Hc. reflexivity.
Qed.

Lemma size_lookup_Some {A} (m : gmap string A) (k : string) (x : A) :
  m !! k = Some x -> (size m =? 0)%nat = false.
Proof.
  intros H. apply Nat.eqb_neq. intros Hs.
  apply map_size_empty_iff in Hs. subst m. rewrite lookup_empty in H. discriminate.
Qed.



End Healing.


(** C4, as stated, fails twice.  The newt service of
    [composeWithoutSecret] has a newt image and lacks [NEWT_SECRET]:
    [ProcessCompose] heals it and still reports [Valid = false], the
    issues found on the way in being part of the report.  The newt
    service of [composeWithoutImage] lacks the three variables and its
    image: the only issue [ValidateCompose] reports is the image, which
    [validateNewtService] checks first, and no variable is named. *)
Lemma newt_healing_report_counterexample :
  (DockerCompose.Services Examples.composeWithoutSecret !! "newt"
     = Some Examples.newtWithoutSecret /\
   NewtInjector.envFound (ComposeService.Environment Examples.newtWithoutSecret)
     "NEWT_SECRET" = false /\
   NewtInjector.Valid
     (NewtInjector.ProcessCompose NewtInjector.requiredEnvNames Examples.config
        Examples.composeWithoutSecret).2 = false) /\
  (NewtInjector.Issues
     (NewtInjector.ValidateCompose NewtInjector.requiredEnvNames
        Examples.composeWithoutImage)
     = ["Newt service configuration error: newt service missing image"] /\
   existsb (Strings.Contains "Newt service configuration error: newt service missing image")
           NewtInjector.requiredEnvNames = false).
Proof. vm_compute. auto. Qed.

(** C4, amended.  For every Compose document with a service [newt]
    whose image is not empty and contains [newt], and which lacks one
    of the three required variables: [ValidateCompose] reports
    [Valid = false] with an issue that names the variable;
    [ProcessCompose] replaces the service by the synthesized one and
    reports [HasNewt = true] and [Valid = false], with an issue that
    names the variable; and validating the processed document again
    gives [Valid = true] when the configured image is empty or
    contains [newt]. *)
Theorem newt_missing_variable_healed (ord : list string) (config : Models.NewtConfig)
    (compose : DockerCompose.t) (newt : ComposeService.t) (v : string) :
  Permutation NewtInjector.requiredEnvNames ord ->
  DockerCompose.Services compose !! "newt" = Some newt ->
  ComposeService.Image newt <> "" ->
  Strings.Contains (ComposeService.Image newt) "newt" = true ->
  In v NewtInjector.requiredEnvNames ->
  NewtInjector.envFound (ComposeService.Environment newt) v = false ->
  let report := NewtInjector.ValidateCompose ord compose in
  let processed := NewtInjector.ProcessCompose ord config compose in
  (NewtInjector.Valid report = false /\
   exists issue, In issue (NewtInjector.Issues report) /\ Strings.Contains issue v = true) /\
  DockerCompose.Services processed.1 !! "newt"
    = Some (NewtInjector.createNewtService config) /\
  NewtInjector.HasNewt processed.2 = true /\
  NewtInjector.Valid processed.2 = false /\
  (exists issue,
      In issue (NewtInjector.Issues processed.2) /\ Strings.Contains issue v = true) /\
  (Models.Image config = "" \/ Strings.Contains (Models.Image config) "newt" = true ->
   NewtInjector.Valid (NewtInjector.ValidateCompose ord processed.1) = true).
Proof.
  intros Hperm Hnewt Himg Hcont Hv Hmiss report processed.
  assert (In v ord) as Hin by (eapply Permutation_in; eauto).
  destruct (validateNewtService_missing ord newt v Himg Hcont Hin Hmiss)
    as (missing & Hvm & Herr).
  set (msg := "missing required environment variables: " +:+ Strings.Join missing ", ") in *.
  assert (Strings.Contains msg v = true) as Hmsg.
  { apply Contains_app_r, Contains_Join, Hvm. }
  assert (report = NewtInjector.ValidateCompose ord compose) as Hreport by reflexivity.
  unfold NewtInjector.ValidateCompose in Hreport.
  rewrite (size_lookup_Some _ _ _ Hnewt), Hnewt, Herr in Hreport.
  assert (NewtInjector.Valid report = false) as HV by (rewrite Hreport; reflexivity).
  assert (NewtInjector.Issues report = ["Newt service configuration error: " +:+ msg]) as HI
    by (rewrite Hreport; reflexivity).
  assert (processed.1.(DockerCompose.Services) !! "newt"
          = Some (NewtInjector.createNewtService config)) as Hsvc.
  { subst processed. rewrite ProcessCompose_services, Hnewt, Herr.
    rewrite lookup_fmap, lookup_insert_eq. reflexivity. }
  assert (processed.2 =
          {| NewtInjector.Valid :=
               (List.length (NewtInjector.Issues report ++ [msg]) =? 0)%nat;
             NewtInjector.HasNewt := true; NewtInjector.NetworkOK := true;
             NewtInjector.Issues := NewtInjector.Issues report ++ [msg];
             NewtInjector.Warnings := NewtInjector.Warnings report;
             NewtInjector.Suggestions := NewtInjector.Suggestions report
               ++ ["Updated existing newt service with correct configuration"] |}) as Hres.
  { subst processed. unfold NewtInjector.ProcessCompose. rewrite Hnewt, Herr. reflexivity. }
  split.
  { split; [exact HV|]. eexists. rewrite HI. split; [now left|].
    apply Contains_app_r, Hmsg. }
  split; [exact Hsvc|].
  rewrite Hres. simpl.
  split; [reflexivity|].
  split. { rewrite length_app. simpl. apply Nat.eqb_neq. lia. }
  split. { exists msg. split; [apply in_or_app; right; now left | exact Hmsg]. }
  intros Hcfg. unfold NewtInjector.ValidateCompose.
  rewrite (size_lookup_Some _ _ _ Hsvc), Hsvc.
  rewrite (createNewtService_valid ord config Hperm Hcfg). reflexivity.
Qed.

(** The healing of [composeWithoutSecret], which lacks [NEWT_SECRET]. *)
Lemma newt_missing_variable_healed_witness :
  let report :=
    NewtInjector.ValidateCompose NewtInjector.requiredEnvNames
      Examples.composeWithoutSecret in
  let processed :=
    NewtInjector.ProcessCompose NewtInjector.requiredEnvNames Examples.config
      Examples.composeWithoutSecret in
  (NewtInjector.Valid report = false /\
   exists issue,
     In issue (NewtInjector.Issues report) /\ Strings.Contains issue "NEWT_SECRET" = true) /\
  DockerCompose.Services processed.1 !! "newt"
    = Some (NewtInjector.createNewtService Examples.config) /\
  NewtInjector.HasNewt processed.2 = true /\
  NewtInjector.Valid processed.2 = false /\
  (exists issue,
      In issue (NewtInjector.Issues processed.2)
      /\ Strings.Contains issue "NEWT_SECRET" = true) /\
  (Models.Image Examples.config = ""
   \/ Strings.Contains (Models.Image Examples.config) "newt" = true ->
   NewtInjector.Valid
     (NewtInjector.ValidateCompose NewtInjector.requiredEnvNames processed.1) = true).
Proof.
  apply (newt_missing_variable_healed NewtInjector.requiredEnvNames Examples.config
           Examples.composeWithoutSecret Examples.newtWithoutSecret "NEWT_SECRET").
  - apply Permutation_refl.
  - reflexivity.
  - discriminate.
  - reflexivity.
  - simpl. tauto.
  - reflexivity.
Defined.

(** C5.  [composeBackend] declares the network [backend] only.  In the
    processed document the synthesized newt service is a member of
    [app_network] alone, which the document does not declare:
    [ensureNetworkConfiguration] declares [app_network] only when no
    network at all was declared, and adds every service to it
    regardless. *)
Lemma ProcessCompose_newt_on_undeclared_network :
  let processed :=
    (NewtInjector.ProcessCompose NewtInjector.requiredEnvNames Examples.config
       Examples.composeBackend).1 in
  DockerCompose.Services processed !! "newt"
    = Some (NewtInjector.createNewtService Examples.config) /\
  ComposeService.Networks (NewtInjector.createNewtService Examples.config)
    = ["app_network"] /\
  DockerCompose.Networks processed !! "app_network" = None /\
  NewtInjector.onDeclaredNetwork processed
    (NewtInjector.createNewtService Examples.config) = false /\
  ComposeService.Networks <$> DockerCompose.Services processed !! "web"
    = Some ["backend"; "app_network"].
Proof. vm_compute. auto 10. Qed.

Section InjectorInvariants.

Import NewtInjector.

Lemma ensureServiceNetworks_member (service : ComposeService.t) :
  In "app_network" (ComposeService.Networks (ensureServiceNetworks service)).
Proof.
  unfold ensureServiceNetworks.
  destruct (List.length (ComposeService.Networks service) =? 0)%nat; [now left|].
  destruct (existsb (String.eqb "app_network") (ComposeService.Networks service)) eqn:Hex.
  - apply existsb_exists in Hex as (n & Hin & Heq).
    apply String.eqb_eq in Heq. now subst n.
  - simpl. apply in_or_app. right. now left.
Qed.

Lemma ensureServiceNetworks_keeps (service : ComposeService.t) :
  (forall n, In n (ComposeService.Networks service) ->
             In n (ComposeService.Networks (ensureServiceNetworks service))) /\
  ComposeService.with_Networks (ensureServiceNetworks service)
    (ComposeService.Networks service) = service.
Proof.
  unfold ensureServiceNetworks.
  destruct (List.length (ComposeService.Networks service) =? 0)%nat eqn:Hlen.
  - split.
    + apply Nat.eqb_eq in Hlen.
      destruct (ComposeService.Networks service); [intros n [] | discriminate].
    + now destruct service.
  - destruct (existsb (String.eqb "app_network") (ComposeService.Networks service)).
    + split; [auto | now destruct service].
    + split; [intros n Hin; simpl; apply in_or_app; now left | now destruct service].
Qed.

End InjectorInvariants.

(** X1.  [ProcessCompose] keeps every service of the input other than
    [newt]: it is still there, a member of every network it was a
    member of and of [app_network], and equal to the original in every
    other field. *)
Theorem ProcessCompose_preserves_services (ord : list string) (config : Models.NewtConfig)
    (compose : DockerCompose.t) (name : string) (service : ComposeService.t) :
  name <> "newt" ->
  DockerCompose.Services compose !! name = Some service ->
  exists service',
    DockerCompose.Services (NewtInjector.ProcessCompose ord config compose).1 !! name
      = Some service' /\
    (forall n, In n (ComposeService.Networks service) ->
               In n (ComposeService.Networks service')) /\
    In "app_network" (ComposeService.Networks service') /\
    ComposeService.with_Networks service' (ComposeService.Networks service) = service.
Proof.
  intros Hname Hsvc.
  exists (NewtInjector.ensureServiceNetworks service).
  split; [|split; [apply ensureServiceNetworks_keeps|
                   split; [apply ensureServiceNetworks_member
                          |apply ensureServiceNetworks_keeps]]].
  rewrite ProcessCompose_services, lookup_fmap.
  destruct (DockerCompose.Services compose !! "newt") as [e|];
    [destruct (NewtInjector.validateNewtService ord e)|];
    rewrite ?lookup_insert_ne by congruence; now rewrite Hsvc.
Qed.

(** The service [web] of [composeBackend] stays on [backend]. *)
Lemma ProcessCompose_preserves_services_witness :
  exists service',
    DockerCompose.Services
      (NewtInjector.ProcessCompose NewtInjector.requiredEnvNames Examples.config
         Examples.composeBackend).1 !! "web" = Some service' /\
    In "backend" (ComposeService.Networks service').
Proof.
  destruct (ProcessCompose_preserves_services NewtInjector.requiredEnvNames Examples.config
              Examples.composeBackend "web"
              (Examples.service "nginx:1.25" [] [] ["backend"]))
    as (service' & Hlookup & Hkeeps & _).
  - discriminate.
  - reflexivity.
  - exists service'. split; [exact Hlookup | apply Hkeeps; now left].
Defined.

(** X2.  When the input declares no network at all, or declares
    [app_network], every service of the processed document, the newt
    service included, is a member of a declared network. *)
Theorem ProcessCompose_declared_networks (ord : list string) (config : Models.NewtConfig)
    (compose : DockerCompose.t) (name : string) (service : ComposeService.t) :
  size (DockerCompose.Networks compose) = 0%nat
  \/ is_Some (DockerCompose.Networks compose !! "app_network") ->
  DockerCompose.Services (NewtInjector.ProcessCompose ord config compose).1 !! name
    = Some service ->
  NewtInjector.onDeclaredNetwork (NewtInjector.ProcessCompose ord config compose).1 service
    = true.
Proof.
  intros Hnet Hsvc.
  rewrite ProcessCompose_services, lookup_fmap in Hsvc.
  unfold NewtInjector.onDeclaredNetwork. apply existsb_exists.
  exists "app_network". split.
  - destruct (_ !! name) as [x|]; [|discriminate].
    injection Hsvc as <-. apply ensureServiceNetworks_member.
  - apply bool_decide_eq_true. rewrite ProcessCompose_networks.
    unfold NewtInjector.ensureNetworkConfiguration. simpl.
    destruct Hnet as [Hz|Hdecl].
    + rewrite Hz. simpl. rewrite lookup_singleton_eq. eauto.
    + destruct (size (DockerCompose.Networks compose) =? 0)%nat; [|exact Hdecl].
      rewrite lookup_singleton_eq. eauto.
Qed.

(** The newt service of the processed [composeWithoutSecret]. *)
Lemma ProcessCompose_declared_networks_witness :
  NewtInjector.onDeclaredNetwork
    (NewtInjector.ProcessCompose NewtInjector.requiredEnvNames Examples.config
       Examples.composeWithoutSecret).1
    (NewtInjector.createNewtService Examples.config) = true.
Proof.
  apply (ProcessCompose_declared_networks NewtInjector.requiredEnvNames Examples.config
           Examples.composeWithoutSecret "newt").
  - right. vm_compute. eauto.
  - vm_compute. reflexivity.
Defined.

(** X3.  When the configured image is empty or contains [newt], the
    newt service of the processed document passes
    [validateNewtService]: a newt image, the three required variables
    and the Docker socket mount. *)
Theorem ProcessCompose_newt_contract (ord : list string) (config : Models.NewtConfig)
    (compose : DockerCompose.t) :
  Permutation NewtInjector.requiredEnvNames ord ->
  Models.Image config = "" \/ Strings.Contains (Models.Image config) "newt" = true ->
  exists newt,
    DockerCompose.Services (NewtInjector.ProcessCompose ord config compose).1 !! "newt"
      = Some newt /\
    NewtInjector.validateNewtService ord newt = None.
Proof.
  intros Hperm Himg.
  rewrite ProcessCompose_services, lookup_fmap.
  destruct (DockerCompose.Services compose !! "newt") as [e|] eqn:He;
    [destruct (NewtInjector.validateNewtService ord e) eqn:Hv|].
  - rewrite lookup_insert_eq. eexists. split; [reflexivity|].
    rewrite validateNewtService_networks. now apply createNewtService_valid.
  - rewrite He. eexists. split; [reflexivity|].
    now rewrite validateNewtService_networks.
  - rewrite lookup_insert_eq. eexists. split; [reflexivity|].
    rewrite validateNewtService_networks. now apply createNewtService_valid.
Qed.

(** The newt service synthesized for [composeBackend]. *)
Lemma ProcessCompose_newt_contract_witness :
  exists newt,
    DockerCompose.Services
      (NewtInjector.ProcessCompose NewtInjector.requiredEnvNames Examples.config
         Examples.composeBackend).1 !! "newt" = Some newt /\
    NewtInjector.validateNewtService NewtInjector.requiredEnvNames newt = None.
Proof.
  apply (ProcessCompose_newt_contract NewtInjector.requiredEnvNames Examples.config
           Examples.composeBackend).
  - apply Permutation_refl.
  - left. reflexivity.
Defined.

(** ** Deleting a deployment *)

Section Lifecycle.

Import DeploymentsHandler.

Lemma Delete_removes (deploymentID : string) (w : World) (row : DB.DeploymentRow) :
  deploymentID <> "" ->
  DB.deployments (db w) !! deploymentID = Some row ->
  DB.hasLogs (db w) deploymentID = false ->
  (DB.status row = Models.StatusRunning -> downErr w !! DB.stack_name row = None) ->
  code (Delete deploymentID w).1 = StatusOK /\
  DB.deployments (db (Delete deploymentID w).2) = delete deploymentID (DB.deployments (db w)) /\
  downed (Delete deploymentID w).2 =
    if bool_decide (DB.status row = Models.StatusRunning)
    then downed w ++ [DB.stack_name row] else downed w.
Proof.
  intros Hid Hrow Hlogs Hdown. unfold Delete.
  destruct (String.eqb_spec deploymentID ""); [contradiction|].
  rewrite Hrow.
  destruct (bool_decide (DB.status row = Models.StatusRunning)) eqn:Hrun.
  - apply bool_decide_eq_true in Hrun. unfold Down. rewrite (Hdown Hrun). simpl.
    unfold deleteDeploymentRow. simpl. rewrite Hlogs, andb_false_r. simpl. auto.
  - simpl. unfold deleteDeploymentRow. rewrite Hlogs, andb_false_r. simpl. auto.
Qed.

Lemma Delete_running_down_fails (deploymentID : string) (w : World) (row : DB.DeploymentRow)
    (err : string) :
  deploymentID <> "" ->
  DB.deployments (db w) !! deploymentID = Some row ->
  DB.status row = Models.StatusRunning ->
  downErr w !! DB.stack_name row = Some err ->
  Delete deploymentID w =
    ({| code := StatusInternalServerError; body := "Failed to stop stack: " +:+ err |}, w).
Proof.
  intros Hid Hrow Hrun Herr. unfold Delete.
  destruct (String.eqb_spec deploymentID ""); [contradiction|].
  rewrite Hrow, Hrun. simpl. unfold Down. rewrite Herr. reflexivity.
Qed.

Lemma updateDeploymentStatus_overwrites (deploymentID : string)
    (status : Models.DeploymentStatus) (w : World) (row : DB.DeploymentRow) :
  DB.deployments (db w) !! deploymentID = Some row ->
  exists row',
    DB.deployments (db (updateDeploymentStatus deploymentID status w)) !! deploymentID
      = Some row' /\
    DB.status row' = status /\ DB.updated_at row' = now w /\
    DB.stack_name row' = DB.stack_name row.
Proof.
  intros Hrow. unfold updateDeploymentStatus. simpl.
  rewrite lookup_alter_eq, Hrow. simpl. eauto.
Qed.

End Lifecycle.

(** C3, as stated, fails.  [deploy_1] is [running] and the executor
    brings its stack down: [Delete] answers 200 and the record is
    gone.  And [updateDeploymentStatus] takes no prior status: it sets
    the running deployment back to [pending]. *)
Lemma delete_running_counterexample :
  let w := Examples.handlerWorld Models.StatusRunning in
  DeploymentsHandler.code (DeploymentsHandler.Delete "deploy_1" w).1 = 200%nat /\
  DB.deployments (DeploymentsHandler.db (DeploymentsHandler.Delete "deploy_1" w).2)
    !! "deploy_1" = None /\
  DB.status <$>
    DB.deployments
      (DeploymentsHandler.db
         (DeploymentsHandler.updateDeploymentStatus "deploy_1" Models.StatusPending w))
    !! "deploy_1" = Some Models.StatusPending.
Proof. vm_compute. auto. Qed.

(** C3, amended.  [Delete] does not look at the status to refuse.  For
    a deployment that [Deployment.CanDelete] lets go (any status but
    [deploying]) and that no log row references: it answers 200 and
    removes the record, from [running] after bringing the stack down;
    when the stack of a running deployment cannot be brought down it
    answers 500 and changes nothing.  [updateDeploymentStatus] writes
    the status it is given whatever the status was. *)
Theorem Delete_not_gated_by_status (deploymentID : string) (w : DeploymentsHandler.World)
    (row : DB.DeploymentRow) :
  deploymentID <> "" ->
  DB.deployments (DeploymentsHandler.db w) !! deploymentID = Some row ->
  Models.CanDelete (DB.status row) = true ->
  DB.hasLogs (DeploymentsHandler.db w) deploymentID = false ->
  (DB.status row <> Models.StatusRunning
   \/ DeploymentsHandler.downErr w !! DB.stack_name row = None ->
   DeploymentsHandler.code (DeploymentsHandler.Delete deploymentID w).1
     = DeploymentsHandler.StatusOK /\
   DB.deployments (DeploymentsHandler.db (DeploymentsHandler.Delete deploymentID w).2)
     = delete deploymentID (DB.deployments (DeploymentsHandler.db w))) /\
  (forall err,
      DB.status row = Models.StatusRunning ->
      DeploymentsHandler.downErr w !! DB.stack_name row = Some err ->
      DeploymentsHandler.Delete deploymentID w =
        ({| DeploymentsHandler.code := DeploymentsHandler.StatusInternalServerError;
            DeploymentsHandler.body := "Failed to stop stack: " +:+ err |}, w)) /\
  (forall status,
      exists row',
        DB.deployments
          (DeploymentsHandler.db
             (DeploymentsHandler.updateDeploymentStatus deploymentID status w))
          !! deploymentID = Some row' /\
        DB.status row' = status).
Proof.
  intros Hid Hrow _ Hlogs. split; [|split].
  - intros Hdown.
    destruct (Delete_removes deploymentID w row Hid Hrow Hlogs) as (H1 & H2 & _); auto.
    intros Hrun. destruct Hdown; [contradiction | assumption].
  - intros err Hrun Herr.
    now apply (Delete_running_down_fails deploymentID w row err).
  - intros status.
    destruct (updateDeploymentStatus_overwrites deploymentID status w row Hrow)
      as (row' & H1 & H2 & _).
    eauto.
Qed.

(** Deleting the running [deploy_1]. *)
Lemma Delete_not_gated_by_status_witness :
  let w := Examples.handlerWorld Models.StatusRunning in
  DeploymentsHandler.code (DeploymentsHandler.Delete "deploy_1" w).1
    = DeploymentsHandler.StatusOK /\
  DB.deployments (DeploymentsHandler.db (DeploymentsHandler.Delete "deploy_1" w).2)
    = delete "deploy_1" (DB.deployments (DeploymentsHandler.db w)).
Proof.
  apply (proj1 (Delete_not_gated_by_status "deploy_1"
                  (Examples.handlerWorld Models.StatusRunning)
                  (Examples.deploymentRow "demo-1" Models.StatusRunning)
                  ltac:(discriminate) ltac:(reflexivity) ltac:(reflexivity)
                  ltac:(reflexivity))).
  right. reflexivity.
Defined.




(** ** The backup manager *)

Section Backups.

Import BackupModels Manager.

(** Every status update of [performBackup] finds the record it was
    started for. *)
Lemma updateBackupStatus_lookup (backupID : string) (status : DB.BackupStatus) (w : World) :
  DB.b_status <$> DB.backups (db (updateBackupStatus backupID status w)) !! backupID
  = (fun _ => status) <$> DB.backups (db w) !! backupID.
Proof.
  unfold updateBackupStatus. simpl. rewrite lookup_alter_eq.
  destruct (DB.backups (db w) !! backupID); reflexivity.
Qed.

(** Whatever the steps of the capture did, the deferred call runs last:
    a record that exists ends [completed]. *)
Lemma performBackup_ends_completed (archiveSize : list (path * option FS.Document) -> Z)
    (storagePath : path) (backup : Backup) (config : BackupConfig) (w : World) :
  DB.b_status <$>
    DB.backups (db (performBackup archiveSize storagePath backup config w)) !! ID backup
  = (fun _ => DB.BackupStatusCompleted) <$>
    DB.backups (db (performBackupBody archiveSize storagePath backup config w)) !! ID backup.
Proof. unfold performBackup. apply updateBackupStatus_lookup. Qed.

(** A backup that is not completed is never restored: the call fails,
    starts nothing and changes nothing. *)
Lemma RestoreBackup_not_completed (config : RestoreConfig) (w : World) (row : DB.BackupRow) :
  DB.backups (db w) !! BackupID config = Some row ->
  DB.b_status row <> DB.BackupStatusCompleted ->
  RestoreBackup config w = (Some "backup is not completed", w, None).
Proof.
  intros Hrow Hst. unfold RestoreBackup, getBackup. rewrite Hrow. simpl.
  rewrite bool_decide_eq_false_2 by exact Hst. reflexivity.
Qed.

End Backups.

(** C1.  A backup of [deploy_404], which the store does not know:
    [backupDeployment] fails, [performBackup] marks the record
    [failed] and returns, and the call deferred on entry then marks it
    [completed].  The record ends [completed] with an empty storage
    path and no archive on disk, and the staging directory is still
    there. *)
Lemma performBackup_failure_ends_completed :
  let w := Examples.captured Examples.unknownDeployment in
  (Manager.backupDeployment "deploy_404" (Examples.storagePath ++ ["backup_1700000000"])
     (Examples.created Examples.unknownDeployment)).1 = Some "sql: no rows in result set" /\
  DB.b_status <$> DB.backups (Manager.db w) !! "backup_1700000000"
    = Some DB.BackupStatusCompleted /\
  DB.b_storage_path <$> DB.backups (Manager.db w) !! "backup_1700000000" = Some [] /\
  FS.files (Manager.fs w) !! (Examples.storagePath ++ ["backup_1700000000.tar.gz"]) = None /\
  FS.isDir (Manager.fs w) (Examples.storagePath ++ ["backup_1700000000"]) = true.
Proof. vm_compute. auto 10. Qed.

(** C6.  [Manager.CreateBackup] on a configuration that selects no
    deployment, which [BackupConfig.Validate] rejects with
    [ErrBackupNoDeployments]: the call returns a backup, has created
    its directory and written its record in status [creating], and has
    started the capture. *)
Lemma CreateBackup_accepts_empty_selection :
  BackupModels.BackupConfig_Validate Examples.emptySelection
    = Some BackupModels.ErrBackupNoDeployments /\
  (exists backup,
      Manager.CreateBackup Examples.storagePath Examples.emptySelection Examples.emptyWorld
      = (inl backup, Examples.created Examples.emptySelection,
         Some (Manager.PerformBackup backup Examples.emptySelection))
      /\ BackupModels.ID backup = "backup_1700000000"
      /\ BackupModels.DeploymentIDs backup = []) /\
  DB.b_status <$>
    DB.backups (Manager.db (Examples.created Examples.emptySelection))
      !! "backup_1700000000" = Some DB.BackupStatusCreating /\
  FS.isDir (Manager.fs (Examples.created Examples.emptySelection))
           (Examples.storagePath ++ ["backup_1700000000"]) = true.
Proof.
  split; [reflexivity|]. split; [eexists; split; [reflexivity|split; reflexivity]|].
  split; vm_compute; reflexivity.
Qed.

(** C7.  [Manager.RestoreBackup] on a completed backup with a selective
    request that names no deployment, which [RestoreConfig.Validate]
    rejects with [ErrRestoreNoDeployments]: the call returns no error
    and starts [performRestore], which opens the archive and extracts
    it into the restore directory. *)
Lemma RestoreBackup_selective_empty_extracts :
  let w := Examples.restorableWorld DB.BackupStatusCompleted in
  BackupModels.RestoreConfig_Validate Examples.selectNothing
    = Some BackupModels.ErrRestoreNoDeployments /\
  exists backup,
    Manager.RestoreBackup Examples.selectNothing w
    = (None, w, Some (Manager.PerformRestore backup Examples.selectNothing)) /\
    In (FS.OpOpen Examples.archivePath)
       (FS.oplog (Manager.fs (Manager.performRestore Examples.storagePath backup
                                Examples.selectNothing w))) /\
    FS.files (Manager.fs (Manager.performRestoreBody Examples.storagePath backup
                            Examples.selectNothing w))
      !! (Examples.storagePath ++ ["restore"; "backup_1"; "metadata.json"])
    = Some (FS.BackupMetadata "1.0" 1700000000 "1.0.0" 1 0).
Proof.
  split; [reflexivity|]. eexists. split; [reflexivity|].
  split; [vm_compute; tauto | vm_compute; reflexivity].
Qed.

(** X4.  A backup whose status is [creating] (or [failed]) is not
    restored: [RestoreBackup] returns the error, starts no goroutine
    and leaves the store and the file system as they were. *)
Theorem RestoreBackup_rejects_unfinished (config : BackupModels.RestoreConfig)
    (w : Manager.World) (row : DB.BackupRow) :
  DB.backups (Manager.db w) !! BackupModels.BackupID config = Some row ->
  DB.b_status row <> DB.BackupStatusCompleted ->
  Manager.RestoreBackup config w = (Some "backup is not completed", w, None).
Proof. apply RestoreBackup_not_completed. Qed.

(** [backup_1] while it is still [creating]. *)
Lemma RestoreBackup_rejects_unfinished_witness :
  Manager.RestoreBackup Examples.selectNothing
    (Examples.restorableWorld DB.BackupStatusCreating)
  = (Some "backup is not completed", Examples.restorableWorld DB.BackupStatusCreating, None).
Proof.
  eapply (RestoreBackup_rejects_unfinished Examples.selectNothing
            (Examples.restorableWorld DB.BackupStatusCreating)).
  - reflexivity.
  - discriminate.
Defined.

(** ** The encryption wrapper *)

(** The block cipher on the example vectors of FIPS-197, appendix C. *)
Example AES_FIPS197_vectors :
  let plaintext :=
    [0; 17; 34; 51; 68; 85; 102; 119; 136; 153; 170; 187; 204; 221; 238; 255]%N in
  let encrypt n :=
    block ← AES.NewCipher (List.map N.of_nat (seq 0 n)); Some (AES.Encrypt block plaintext) in
  encrypt 16%nat
    = Some [105; 196; 224; 216; 106; 123; 4; 48; 216; 205; 183; 128; 112; 180; 197; 90]%N /\
  encrypt 24%nat
    = Some [221; 169; 124; 164; 134; 76; 223; 224; 110; 175; 112; 160; 236; 13; 113; 145]%N /\
  encrypt 32%nat
    = Some [142; 162; 183; 202; 81; 103; 69; 191; 234; 252; 73; 144; 75; 73; 96; 137]%N /\
  encrypt 17%nat = None.
Proof. vm_compute. auto. Qed.

Section Streams.

Import CFB.

Lemma XORKeyStream_cons (x : t) (s : N) (rest : list N) :
  XORKeyStream x (s :: rest) =
  ((xorByte x s).1 :: (XORKeyStream (xorByte x s).2 rest).1,
   (XORKeyStream (xorByte x s).2 rest).2).
Proof.
  cbn [XORKeyStream]. destruct (xorByte x s) as [d x'].
  cbn [fst snd]. now destruct (XORKeyStream x' rest).
Qed.

Lemma XORKeyStream_app (x : t) (a b : list N) :
  XORKeyStream x (a ++ b) =
  ((XORKeyStream x a).1 ++ (XORKeyStream (XORKeyStream x a).2 b).1,
   (XORKeyStream (XORKeyStream x a).2 b).2).
Proof.
  revert x. induction a as [|s a IH]; intros x.
  - cbn [app XORKeyStream fst snd]. now destruct (XORKeyStream x b).
  - change ((s :: a) ++ b) with (s :: (a ++ b)).
    rewrite !XORKeyStream_cons, IH. reflexivity.
Qed.

Lemma CFB_XORKeyStream_app_fst (x : t) (a b : list N) :
  (XORKeyStream x (a ++ b)).1 =
  (XORKeyStream x a).1 ++ (XORKeyStream (XORKeyStream x a).2 b).1.
Proof. now rewrite XORKeyStream_app. Qed.

Lemma XORKeyStream_length (x : t) (src : list N) :
  List.length (XORKeyStream x src).1 = List.length src.
Proof.
  revert x. induction src as [|s src IH]; intros x; [reflexivity|].
  rewrite XORKeyStream_cons. cbn [fst length]. now rewrite IH.
Qed.

Lemma lxor_cancel (s k : N) : N.lxor (N.lxor s k) k = s.
Proof. now rewrite N.lxor_assoc, N.lxor_nilpotent, N.lxor_0_r. Qed.

Lemma xorByte_inStep (xe xd : t) (s : N) :
  inStep xe xd ->
  (xorByte xd (xorByte xe s).1).1 = s /\
  inStep (xorByte xe s).2 (xorByte xd (xorByte xe s).1).2.
Proof.
  destruct xe as [be ne oe ue de], xd as [bd nd od ud dd].
  intros (Hb & Hn & Ho & Hu & He & Hd). simpl in *. subst.
  unfold xorByte, inStep. simpl.
  destruct (ud =? List.length od)%nat; simpl; rewrite lxor_cancel; auto 10.
Qed.

Lemma XORKeyStream_inStep (xe xd : t) (src : list N) :
  inStep xe xd ->
  (XORKeyStream xd (XORKeyStream xe src).1).1 = src /\
  inStep (XORKeyStream xe src).2 (XORKeyStream xd (XORKeyStream xe src).1).2.
Proof.
  revert xe xd. induction src as [|s src IH]; intros xe xd Hstep; [auto|].
  destruct (xorByte_inStep xe xd s Hstep) as [Hs Hstep'].
  destruct (IH _ _ Hstep') as [Hsrc Hstep''].
  rewrite XORKeyStream_cons. cbn [fst snd].
  rewrite XORKeyStream_cons. cbn [fst snd].
  rewrite Hs, Hsrc. auto.
Qed.

Lemma newCFB_inStep (block : AES.Cipher) (iv : list N) :
  inStep (NewCFBEncrypter block iv) (NewCFBDecrypter block iv).
Proof. unfold inStep. simpl. auto 10. Qed.

(** CFB decryption undoes CFB encryption under the same key and
    vector. *)
Lemma CFB_roundtrip (block : AES.Cipher) (iv data : list N) :
  (XORKeyStream (NewCFBDecrypter block iv)
     (XORKeyStream (NewCFBEncrypter block iv) data).1).1 = data.
Proof. apply XORKeyStream_inStep, newCFB_inStep. Qed.

End Streams.

Section Readers.

Import Encryption.

Lemma Read_File_nil (n : nat) :
  (0 < n)%nat -> Read (FileReader []) n = ([], Some EOF, FileReader []).
Proof. intros Hn. cbn [Read]. destruct n; [lia | reflexivity]. Qed.

Lemma Read_File_cons (n : nat) (rest : list N) :
  (0 < n)%nat -> rest <> [] ->
  Read (FileReader rest) n = (take n rest, None, FileReader (drop n rest)).
Proof.
  intros Hn Hrest. cbn [Read]. destruct n; [lia|].
  destruct rest; [contradiction | reflexivity].
Qed.

Lemma Read_Stream (reader : Reader) (x : CFB.t) (n : nat) :
  Read (StreamReader reader x) n =
  ((CFB.XORKeyStream x (Read reader n).1.1).1, (Read reader n).1.2,
   StreamReader (Read reader n).2 (CFB.XORKeyStream x (Read reader n).1.1).2).
Proof.
  cbn [Read]. destruct (Read reader n) as [[p err] reader']. cbn [fst snd].
  now destruct (CFB.XORKeyStream x p).
Qed.

Lemma Read_Multi_nil (n : nat) : Read (MultiReader []) n = ([], Some EOF, MultiReader []).
Proof. reflexivity. Qed.

Lemma Read_Multi_cons (r0 : Reader) (rest : list Reader) (n : nat) :
  Read (MultiReader (r0 :: rest)) n =
  if bool_decide ((Read r0 n).1.2 = Some EOF) then
    if (0 <? List.length (Read r0 n).1.1)%nat then
      ((Read r0 n).1.1, (if (0 <? List.length rest)%nat then None else Some EOF),
       MultiReader rest)
    else Read (MultiReader rest) n
  else ((Read r0 n).1.1, (Read r0 n).1.2, MultiReader ((Read r0 n).2 :: rest)).
Proof.
  cbn [Read]. destruct (Read r0 n) as [[p err] r0']. cbn [fst snd]. reflexivity.
Qed.

Lemma Copy_step {R : Type} `{IoReader R} (fuel size : nat) (src : R) :
  Copy (S fuel) size src =
  match io_Read src size with
  | None => None
  | Some (p, None, src') =>
      match Copy fuel size src' with
      | Some (written, err) => Some (p ++ written, err)
      | None => None
      end
  | Some (p, Some EOF, _) => Some (p, None)
  | Some (p, Some err, _) => Some (p, Some err)
  end.
Proof. reflexivity. Qed.

Lemma Copy_first_read {R : Type} `{IoReader R} (fuel size : nat) (a b : R) :
  io_Read a size = io_Read b size -> Copy fuel size a = Copy fuel size b.
Proof. intros Heq. destruct fuel; [reflexivity|]. now rewrite !Copy_step, Heq. Qed.

Lemma io_Read_encrypted (r : Reader) (n : nat) :
  io_Read {| er_reader := r |} n =
  Some ((Read r n).1.1, (Read r n).1.2, {| er_reader := (Read r n).2 |}).
Proof.
  unfold io_Read, EncryptedReader_Read. cbn [er_reader].
  now destruct (Read r n) as [[p err] r'].
Qed.

(** Copying from the stream stage alone: the file's bytes under the
    key stream. *)
Lemma Copy_encrypted_stream (fuel size : nat) (data : list N) (x : CFB.t) :
  (0 < size)%nat -> (List.length data < fuel)%nat ->
  Copy fuel size {| er_reader := MultiReader [StreamReader (FileReader data) x] |}
  = Some ((CFB.XORKeyStream x data).1, None).
Proof.
  intros Hsize. revert data x.
  induction fuel as [|fuel IH]; intros data x Hfuel; [lia|].
  rewrite Copy_step, io_Read_encrypted, Read_Multi_cons, Read_Stream. cbn [fst snd].
  destruct data as [|d data].
  - rewrite Read_File_nil by exact Hsize. cbn [fst snd].
    rewrite bool_decide_eq_true_2 by reflexivity. reflexivity.
  - rewrite Read_File_cons by (auto; discriminate). cbn [fst snd].
    rewrite bool_decide_eq_false_2 by discriminate.
    cbn [fst snd].
    rewrite IH by (rewrite length_drop; simpl in *; lia).
    now rewrite <- CFB_XORKeyStream_app_fst, take_drop.
Qed.

Lemma Read_SingleUse_end (data : list N) (pos n : nat) :
  (List.length data <= pos)%nat ->
  Read (SingleUseReader data pos) n = ([], Some EOF, SingleUseReader data pos).
Proof.
  intros Hpos. cbn [Read]. now rewrite (proj2 (Nat.leb_le _ _) Hpos).
Qed.

Lemma Read_SingleUse_more (data : list N) (pos n : nat) :
  (pos < List.length data)%nat ->
  Read (SingleUseReader data pos) n =
  (take n (drop pos data), None,
   SingleUseReader data (pos + List.length (take n (drop pos data)))).
Proof.
  intros Hpos. cbn [Read].
  now rewrite (proj2 (Nat.leb_gt _ _) Hpos).
Qed.

Lemma take_drop_take {A} (l : list A) (pos n : nat) :
  take n (drop pos l) ++ drop (pos + List.length (take n (drop pos l))) l = drop pos l.
Proof.
  rewrite <- drop_drop.
  rewrite length_take.
  destruct (Nat.le_gt_cases n (List.length (drop pos l))) as [Hle|Hgt].
  - rewrite Nat.min_l by exact Hle. apply take_drop.
  - rewrite Nat.min_r by lia. rewrite take_ge by lia.
    rewrite drop_all. apply app_nil_r.
Qed.

(** Copying from the encrypting reader: what is left of the vector,
    then the file's bytes under the key stream. *)
Lemma Copy_encrypted (fuel size : nat) (iv data : list N) (pos : nat) (x : CFB.t) :
  (0 < size)%nat ->
  (List.length iv - pos + List.length data + 1 < fuel)%nat ->
  Copy fuel size
    {| er_reader := MultiReader [SingleUseReader iv pos; StreamReader (FileReader data) x] |}
  = Some (drop pos iv ++ (CFB.XORKeyStream x data).1, None).
Proof.
  intros Hsize. revert pos.
  induction fuel as [|fuel IH]; intros pos Hfuel; [lia|].
  destruct (Nat.le_gt_cases (List.length iv) pos) as [Hend|Hmore].
  - rewrite (Copy_first_read _ _ _
               {| er_reader := MultiReader [StreamReader (FileReader data) x] |}).
    + rewrite Copy_encrypted_stream by (auto; lia).
      now rewrite drop_ge by exact Hend.
    + rewrite !io_Read_encrypted.
      rewrite (Read_Multi_cons (SingleUseReader iv pos)).
      rewrite Read_SingleUse_end by exact Hend. cbn [fst snd].
      rewrite bool_decide_eq_true_2 by reflexivity. reflexivity.
  - rewrite Copy_step, io_Read_encrypted, Read_Multi_cons.
    rewrite Read_SingleUse_more by exact Hmore. cbn [fst snd].
    rewrite bool_decide_eq_false_2 by discriminate. cbn [fst snd].
    assert (0 < List.length (take size (drop pos iv)))%nat as Hprogress.
    { rewrite length_take, length_drop. lia. }
    rewrite IH by lia.
    now rewrite app_assoc, take_drop_take.
Qed.

Lemma io_Read_decrypted_ready (r : Reader) (x : CFB.t) (key : list N) (n : nat) :
  io_Read {| dr_reader := r; dr_cipher := Some x; ivRead := true; dr_key := key |} n =
  Some ((CFB.XORKeyStream x (Read r n).1.1).1, (Read r n).1.2,
        {| dr_reader := (Read r n).2;
           dr_cipher := Some (CFB.XORKeyStream x (Read r n).1.1).2;
           ivRead := true; dr_key := key |}).
Proof.
  unfold io_Read, DecryptedReader_Read, readEncrypted. cbn [ivRead negb dr_cipher dr_reader dr_key].
  destruct (Read r n) as [[p err] r']. cbn [fst snd].
  now destruct (CFB.XORKeyStream x p).
Qed.

(** Copying from a decrypting reader whose cipher is set. *)
Lemma Copy_decrypted_ready (fuel size : nat) (c key : list N) (x : CFB.t) :
  (0 < size)%nat -> (List.length c < fuel)%nat ->
  Copy fuel size
    {| dr_reader := FileReader c; dr_cipher := Some x; ivRead := true; dr_key := key |}
  = Some ((CFB.XORKeyStream x c).1, None).
Proof.
  intros Hsize. revert c x.
  induction fuel as [|fuel IH]; intros c x Hfuel; [lia|].
  rewrite Copy_step, io_Read_decrypted_ready.
  destruct c as [|d c].
  - rewrite Read_File_nil by exact Hsize. reflexivity.
  - rewrite Read_File_cons by (auto; discriminate). cbn [fst snd].
    rewrite IH by (rewrite length_drop; simpl in *; lia).
    now rewrite <- CFB_XORKeyStream_app_fst, take_drop.
Qed.

Lemma ReadFull_done (fuel : nat) (r : Reader) (min : nat) (acc : list N) :
  (min <= List.length acc)%nat -> ReadFull fuel r min acc = Some (acc, None, r).
Proof.
  intros Hle. destruct fuel; cbn [ReadFull]; now rewrite (proj2 (Nat.leb_le _ _) Hle).
Qed.

Lemma ReadFull_more (fuel : nat) (r : Reader) (min : nat) (acc : list N) :
  (List.length acc < min)%nat ->
  (Read r (min - List.length acc)).1.2 = None ->
  ReadFull (S fuel) r min acc =
  ReadFull fuel (Read r (min - List.length acc)).2 min
           (acc ++ (Read r (min - List.length acc)).1.1).
Proof.
  intros Hlt Herr. cbn [ReadFull]. rewrite (proj2 (Nat.leb_gt _ _) Hlt).
  destruct (Read r (min - List.length acc)) as [[p err] r']. cbn [fst snd] in *.
  now subst err.
Qed.

(** The first [Read] of a decrypting reader takes the vector off the
    front of the file and sets the cipher. *)
Lemma io_Read_decrypted_first (iv c key : list N) (block : AES.Cipher) (n : nat) :
  List.length iv = AES.BlockSize ->
  AES.NewCipher key = Some block ->
  io_Read (NewDecryptedReader (FileReader (iv ++ c)) key) n =
  io_Read {| dr_reader := FileReader c; dr_cipher := Some (CFB.NewCFBDecrypter block iv);
             ivRead := true; dr_key := key |} n.
Proof.
  intros Hiv Hkey.
  rewrite io_Read_decrypted_ready.
  unfold io_Read, DecryptedReader_Read, NewDecryptedReader.
  cbn [ivRead negb dr_reader dr_key dr_cipher].
  assert (Read (FileReader (iv ++ c)) (AES.BlockSize - 0) = (iv, None, FileReader c)) as Hread.
  { rewrite Nat.sub_0_r, Read_File_cons.
    - rewrite <- Hiv. now rewrite take_app_length, drop_app_length.
    - unfold AES.BlockSize. lia.
    - destruct iv; discriminate. }
  assert (ReadFull (S AES.BlockSize) (FileReader (iv ++ c)) AES.BlockSize []
          = Some (iv, None, FileReader c)) as ->.
  { rewrite ReadFull_more.
    - cbn [List.length]. rewrite Hread. cbn [fst snd app].
      apply ReadFull_done. lia.
    - unfold AES.BlockSize. simpl. lia.
    - cbn [List.length]. now rewrite Hread. }
  rewrite Hkey. unfold readEncrypted. cbn [dr_reader dr_key].
  destruct (Read (FileReader c) n) as [[p err] r']. cbn [fst snd].
  now destruct (CFB.XORKeyStream (CFB.NewCFBDecrypter block iv) p).
Qed.

(** [DecryptFile] on a vector followed by [c]: [c] under the key stream
    of the key given. *)
Lemma DecryptFile_stream (fuel size : nat) (iv c key : list N) (block : AES.Cipher) :
  (0 < size)%nat -> (List.length c < fuel)%nat ->
  List.length iv = AES.BlockSize ->
  AES.NewCipher key = Some block ->
  DecryptFile fuel size (iv ++ c) key
  = Some ((CFB.XORKeyStream (CFB.NewCFBDecrypter block iv) c).1, None).
Proof.
  intros Hsize Hfuel Hiv Hkey. unfold DecryptFile.
  rewrite (Copy_first_read _ _ _ _ (io_Read_decrypted_first iv c key block size Hiv Hkey)).
  now apply Copy_decrypted_ready.
Qed.

(** [EncryptFile]: the vector, then the file under the key stream. *)
Lemma EncryptFile_stream (fuel size : nat) (iv data key : list N) (block : AES.Cipher) :
  (0 < size)%nat -> (List.length iv + List.length data + 1 < fuel)%nat ->
  AES.NewCipher key = Some block ->
  EncryptFile fuel size data key iv
  = Some (iv ++ (CFB.XORKeyStream (CFB.NewCFBEncrypter block iv) data).1, None).
Proof.
  intros Hsize Hfuel Hkey. unfold EncryptFile, NewEncryptedReader. rewrite Hkey.
  rewrite Copy_encrypted by (auto; lia). reflexivity.
Qed.

End Readers.


Section FirstByte.

Import CFB.

Lemma xorByte_fresh (block : AES.Cipher) (iv : list N) (dec : bool) (s : N) :
  (xorByte (newCFB block iv dec) s).1 = N.lxor s (nth 0 (AES.Encrypt block iv) 0%N).
Proof. reflexivity. Qed.

Lemma lxor_lxor_fixed (d a b : N) : N.lxor (N.lxor d a) b = d -> a = b.
Proof.
  intros H. apply N.lxor_eq.
  rewrite <- (N.lxor_nilpotent d) at 1.
  rewrite <- H at 2.
  rewrite (N.lxor_comm (N.lxor d a)), <- !N.lxor_assoc.
  rewrite (N.lxor_comm d b), !N.lxor_assoc.
  rewrite <- (N.lxor_assoc d d), N.lxor_nilpotent, N.lxor_0_l.
  apply N.lxor_comm.
Qed.

End FirstByte.

(** C9, as stated, fails in its second half.  Under [countingIV], the
    one byte 42 encrypted with [zeroKey] decrypts to 42 with
    [otherKey], a different key; and so does the empty sequence, with
    any two keys. *)
Lemma wrong_key_reproduces_counterexample :
  Examples.zeroKey <> Examples.otherKey /\
  (exists c,
      Encryption.EncryptFile 40 Examples.copyBuffer [42%N] Examples.zeroKey
        Examples.countingIV = Some (c, None) /\
      Encryption.DecryptFile 40 Examples.copyBuffer c Examples.otherKey
      = Some ([42%N], None)) /\
  (exists c,
      Encryption.EncryptFile 40 Examples.copyBuffer [] Examples.zeroKey
        Examples.countingIV = Some (c, None) /\
      Encryption.DecryptFile 40 Examples.copyBuffer c Examples.otherKey
      = Some ([], None)).
Proof.
  split; [discriminate|].
  split; eexists; (split; [vm_compute; reflexivity | vm_compute; reflexivity]).
Qed.

(** C9, amended.  For every byte sequence, key of an AES length and
    16-byte vector, whatever the buffer sizes and with enough fuel:
    [EncryptFile] writes the vector followed by as many bytes as the
    content, and [DecryptFile] with the same key gives the content
    back.  [DecryptFile] with another key of an AES length returns
    without an error as many bytes as the content; they differ from
    the content whenever the content is not empty and the two keys
    encrypt the vector to blocks with different first bytes. *)
Theorem encrypt_then_decrypt (key key' iv data : list N)
    (fuelE fuelD sizeE sizeD : nat) :
  is_Some (AES.NewCipher key) ->
  is_Some (AES.NewCipher key') ->
  List.length iv = AES.BlockSize ->
  (0 < sizeE)%nat -> (0 < sizeD)%nat ->
  (List.length data + 17 < fuelE)%nat -> (List.length data < fuelD)%nat ->
  exists c,
    Encryption.EncryptFile fuelE sizeE data key iv = Some (iv ++ c, None) /\
    List.length c = List.length data /\
    Encryption.DecryptFile fuelD sizeD (iv ++ c) key = Some (data, None) /\
    exists other,
      Encryption.DecryptFile fuelD sizeD (iv ++ c) key' = Some (other, None) /\
      List.length other = List.length data /\
      (forall block block',
          AES.NewCipher key = Some block ->
          AES.NewCipher key' = Some block' ->
          data <> [] ->
          nth 0 (AES.Encrypt block iv) 0%N <> nth 0 (AES.Encrypt block' iv) 0%N ->
          other <> data).
Proof.
  intros [block Hkey] [block' Hkey'] Hiv HsE HsD HfE HfD.
  set (c := (CFB.XORKeyStream (CFB.NewCFBEncrypter block iv) data).1).
  assert (List.length c = List.length data) as Hlen by apply XORKeyStream_length.
  exists c. split; [|split; [exact Hlen|split]].
  - apply EncryptFile_stream; auto. rewrite Hiv. unfold AES.BlockSize. lia.
  - rewrite (DecryptFile_stream fuelD sizeD iv c key block) by (auto; lia).
    subst c. now rewrite CFB_roundtrip.
  - eexists. split; [apply (DecryptFile_stream fuelD sizeD iv c key' block'); auto; lia|].
    split; [now rewrite XORKeyStream_length|].
    intros blk blk' Hb Hb' Hdata Hfirst Heq.
    rewrite Hkey in Hb. rewrite Hkey' in Hb'.
    injection Hb as <-. injection Hb' as <-.
    destruct data as [|d data]; [contradiction|].
    subst c. unfold CFB.NewCFBEncrypter in Heq.
    rewrite (XORKeyStream_cons (CFB.newCFB block iv false)) in Heq. cbn [fst] in Heq.
    unfold CFB.NewCFBDecrypter in Heq.
    rewrite XORKeyStream_cons in Heq. cbn [fst] in Heq.
    apply (f_equal (fun l => nth 0 l 0%N)) in Heq. cbn [nth] in Heq.
    rewrite (xorByte_fresh block iv false d) in Heq.
    rewrite xorByte_fresh in Heq.
    now apply lxor_lxor_fixed in Heq.
Qed.

(** Three bytes through a buffer of seven and back through one of
    five. *)
Lemma encrypt_then_decrypt_witness :
  exists c,
    Encryption.EncryptFile 40 7 [104; 105; 33]%N Examples.zeroKey Examples.countingIV
    = Some (Examples.countingIV ++ c, None) /\
    Encryption.DecryptFile 40 5 (Examples.countingIV ++ c) Examples.zeroKey
    = Some ([104; 105; 33]%N, None).
Proof.
  destruct (encrypt_then_decrypt Examples.zeroKey Examples.otherKey Examples.countingIV
              [104; 105; 33]%N 40 40 7 5) as (c & Henc & _ & Hdec & _).
  - eexists. vm_compute. reflexivity.
  - eexists. vm_compute. reflexivity.
  - reflexivity.
  - lia.
  - lia.
  - cbn [List.length]. lia.
  - cbn [List.length]. lia.
  - exists c. split; assumption.
Defined.

(** C10.  [VerifyKey] cannot tell a wrong key: for every archive of at
    least sixteen bytes and every key of an AES length it returns the
    [nil] error, whichever key the archive was encrypted with. *)
Theorem VerifyKey_accepts_any_key (archive key : list N) :
  (16 <= List.length archive)%nat ->
  is_Some (AES.NewCipher key) ->
  Encryption.VerifyKey archive key = Some None.
Proof.
  intros Hlen [block Hkey]. unfold Encryption.VerifyKey.
  assert (16 <= 1024)%nat as Hk by (apply Nat.leb_le; reflexivity).
  rewrite Read_File_cons.
  2:{ lia. }
  2:{ destruct archive; [simpl in Hlen; lia | discriminate]. }
  set (testData := take 1024 archive).
  assert (16 <= List.length testData)%nat as Htest.
  { subst testData. rewrite length_take. apply Nat.min_glb; assumption. }
  unfold Encryption.io_Read, Encryption.DecryptedReader_Read, Encryption.NewDecryptedReader.
  cbn [Encryption.ivRead negb Encryption.dr_reader Encryption.dr_key Encryption.dr_cipher].
  assert (Encryption.Read (Encryption.SingleUseReader testData 0) (AES.BlockSize - 0)
          = (take 16 testData, None,
             Encryption.SingleUseReader testData (List.length (take 16 testData)))) as Hread.
  { rewrite Read_SingleUse_more by lia. reflexivity. }
  rewrite ReadFull_more.
  2:{ unfold AES.BlockSize. simpl. lia. }
  2:{ cbn [List.length]. now rewrite Hread. }
  cbn [List.length]. rewrite Hread. cbn [fst snd app].
  rewrite ReadFull_done.
  2:{ rewrite length_take. unfold AES.BlockSize. lia. }
  rewrite Hkey. unfold Encryption.readEncrypted. cbn [Encryption.dr_reader].
  set (pos := List.length (take 16 testData)).
  destruct (Nat.le_gt_cases (List.length testData) pos) as [Hend|Hmore].
  - rewrite Read_SingleUse_end by exact Hend. reflexivity.
  - rewrite Read_SingleUse_more by exact Hmore.
    now destruct (CFB.XORKeyStream _ _).
Qed.

(** The archive of the one byte 42 under [zeroKey], verified with
    [otherKey]. *)
Lemma VerifyKey_accepts_any_key_witness :
  Encryption.VerifyKey
    (Examples.countingIV ++ [80%N]) Examples.otherKey = Some None.
Proof.
  apply VerifyKey_accepts_any_key; [simpl; lia | vm_compute; eauto].
Defined.

(** ** The injector's report and its preview *)

Section Reports.

Import NewtInjector NewtPreview.




End Reports.

(** X5.  The report of [ProcessCompose]: it always says that the
    document has a newt service and that its networks are in order,
    it carries the warnings of the read-only validation of the input
    unchanged, and it is valid exactly when that validation is: when
    the input has a service and its newt service, if it has one,
    passes [validateNewtService].  A warning never makes the report
    invalid. *)
Theorem ProcessCompose_report (ord : list string) (config : Models.NewtConfig)
    (compose : DockerCompose.t) :
  let checked := NewtInjector.ValidateCompose ord compose in
  let report := (NewtInjector.ProcessCompose ord config compose).2 in
  NewtInjector.HasNewt report = true /\
  NewtInjector.NetworkOK report = true /\
  NewtInjector.Warnings report = NewtInjector.Warnings checked /\
  NewtInjector.Valid report = NewtInjector.Valid checked /\
  (NewtInjector.Valid report = true <->
   DockerCompose.Services compose <> ∅ /\
   forall newt, DockerCompose.Services compose !! "newt" = Some newt ->
                NewtInjector.validateNewtService ord newt = None).
Proof.
  cbv zeta. unfold NewtInjector.ProcessCompose, NewtInjector.ValidateCompose.
  destruct (size (DockerCompose.Services compose) =? 0)%nat eqn:Hsize.
  - apply Nat.eqb_eq, map_size_empty_iff in Hsize. rewrite Hsize, lookup_empty. simpl.
    repeat split; try discriminate. now intros [].
  - assert (Hne : DockerCompose.Services compose <> ∅).
    { intros He. rewrite He, map_size_empty in Hsize. discriminate. }
    destruct (DockerCompose.Services compose !! "newt") as [newt|];
      [destruct (NewtInjector.validateNewtService ord newt) eqn:Hv|]; simpl;
      repeat split; try discriminate; try congruence; try tauto.
    intros [_ H]. specialize (H newt eq_refl). congruence.
Qed.


(** X7.  What [PreviewNewtInjection] announces, [ProcessCompose]
    does: when it says that newt will be added, the input has none
    and the processed document holds the previewed service; when it
    says that a network will be added, the input declares none and
    the processed document declares [app_network]; and every service
    without a network is on [app_network] alone afterwards. *)
Theorem PreviewNewtInjection_sound (ord : list string) (config : Models.NewtConfig)
    (compose : DockerCompose.t) :
  let preview := NewtPreview.PreviewNewtInjection config compose in
  let processed := (NewtInjector.ProcessCompose ord config compose).1 in
  (NewtPreview.will_add_newt preview = true ->
   DockerCompose.Services compose !! "newt" = None /\
   DockerCompose.Services processed !! "newt" = Some (NewtPreview.newt_service preview)) /\
  (NewtPreview.will_add_network preview = true ->
   DockerCompose.Networks compose = ∅ /\
   is_Some (DockerCompose.Networks processed !! "app_network")) /\
  (forall name service,
      DockerCompose.Services compose !! name = Some service ->
      ComposeService.Networks service = [] ->
      ComposeService.Networks <$> DockerCompose.Services processed !! name
        = Some ["app_network"]).
Proof.
  cbv zeta. split; [|split].
  - unfold NewtPreview.PreviewNewtInjection. cbn [NewtPreview.will_add_newt
      NewtPreview.newt_service]. intros Hadd.
    apply negb_true_iff, bool_decide_eq_false in Hadd.
    destruct (DockerCompose.Services compose !! "newt") as [newt|] eqn:Hnewt.
    { exfalso. apply Hadd. eauto. }
    split; [reflexivity|].
    rewrite ProcessCompose_services, Hnewt, lookup_fmap, lookup_insert_eq. simpl.
    now rewrite createNewtService_ensured.
  - unfold NewtPreview.PreviewNewtInjection. cbn [NewtPreview.will_add_network]. intros Hadd.
    rewrite ProcessCompose_networks. unfold NewtInjector.ensureNetworkConfiguration.
    cbn [fst DockerCompose.Networks]. rewrite Hadd.
    apply Nat.eqb_eq, map_size_empty_iff in Hadd.
    split; [exact Hadd|]. rewrite lookup_singleton_eq. eauto.
  - intros name service Hsvc Hnets.
    rewrite ProcessCompose_services, lookup_fmap.
    assert (Hcreated : ComposeService.Networks
                         (NewtInjector.ensureServiceNetworks
                            (NewtInjector.createNewtService config)) = ["app_network"])
      by now rewrite createNewtService_ensured.
    assert (Hkept : ComposeService.Networks (NewtInjector.ensureServiceNetworks service)
                    = ["app_network"]).
    { unfold NewtInjector.ensureServiceNetworks. now rewrite Hnets. }
    destruct (String.eqb_spec name "newt") as [->|Hname].
    + rewrite Hsvc. destruct (NewtInjector.validateNewtService ord service).
      * rewrite lookup_insert_eq. cbn [fmap option_fmap option_map]. now rewrite Hcreated.
      * rewrite Hsvc. cbn [fmap option_fmap option_map]. now rewrite Hkept.
    + destruct (DockerCompose.Services compose !! "newt") as [e|];
        [destruct (NewtInjector.validateNewtService ord e)|];
        rewrite ?lookup_insert_ne by congruence; rewrite Hsvc; cbn [fmap option_fmap option_map]; now rewrite Hkept.
Qed.

(** X8.  A document that [ProcessCompose] leaves as it is gets an
    empty list of changes from [PreviewNewtInjection]. *)
Theorem PreviewNewtInjection_silent_when_unchanged (ord : list string)
    (config : Models.NewtConfig) (compose : DockerCompose.t) :
  (NewtInjector.ProcessCompose ord config compose).1 = compose ->
  NewtPreview.changes (NewtPreview.PreviewNewtInjection config compose) = [].
Proof.
  intros Hfix.
  assert (Hsvcs : DockerCompose.Services compose =
                  NewtInjector.ensureServiceNetworks <$>
                    match DockerCompose.Services compose !! "newt" with
                    | Some existingNewt =>
                        match NewtInjector.validateNewtService ord existingNewt with
                        | Some _ => <["newt" := NewtInjector.createNewtService config]>
                                      (DockerCompose.Services compose)
                        | None => DockerCompose.Services compose
                        end
                    | None => <["newt" := NewtInjector.createNewtService config]>
                                (DockerCompose.Services compose)
                    end).
  { rewrite <- ProcessCompose_services. now rewrite Hfix. }
  assert (Hnets : (size (DockerCompose.Networks compose) =? 0)%nat = false).
  { rewrite <- Hfix at 1. rewrite ProcessCompose_networks. apply ensured_networks_nonempty. }
  assert (Hnewt : is_Some (DockerCompose.Services compose !! "newt")).
  { rewrite Hsvcs, lookup_fmap.
    destruct (DockerCompose.Services compose !! "newt") as [e|] eqn:He;
      [destruct (NewtInjector.validateNewtService ord e)|];
      rewrite ?lookup_insert_eq, ?He; simpl; eauto. }
  assert (Hall : forall name service,
             DockerCompose.Services compose !! name = Some service ->
             (List.length (ComposeService.Networks service) =? 0)%nat = false).
  { intros name service Hsvc. rewrite Hsvcs, lookup_fmap in Hsvc.
    destruct (_ !! name) as [x|]; [|discriminate]. injection Hsvc as <-.
    pose proof (ensureServiceNetworks_member x) as Hin.
    destruct (ComposeService.Networks (NewtInjector.ensureServiceNetworks x));
      [destruct Hin | reflexivity]. }
  unfold NewtPreview.PreviewNewtInjection. cbn [NewtPreview.changes].
  rewrite bool_decide_eq_true_2 by exact Hnewt. rewrite Hnets.
  rewrite length_fmap.
  rewrite (proj2 (filter_length_zero _ _)); [reflexivity|].
  intros [name service] Hin. apply list_elem_of_In, elem_of_map_to_list in Hin.
  exact (Hall name service Hin).
Qed.

(** The processed [composeBackend] is such a document. *)
Lemma PreviewNewtInjection_silent_when_unchanged_witness :
  NewtPreview.changes
    (NewtPreview.PreviewNewtInjection Examples.config
       (NewtInjector.ProcessCompose NewtInjector.requiredEnvNames Examples.config
          Examples.composeBackend).1) = [].
Proof.
  apply (PreviewNewtInjection_silent_when_unchanged NewtInjector.requiredEnvNames).
  vm_compute. reflexivity.
Defined.

(** ** Creating, deploying and operating a deployment *)

Section HandlerWrites.

Import DeploymentsHandler DeploymentProcess.

Lemma filter_unreferenced (id : string) (logs : list DB.DeploymentLogRow) :
  existsb (fun l => String.eqb (DB.deployment_id l) id) logs = false ->
  List.filter (fun l => negb (String.eqb (DB.deployment_id l) id)) logs = logs.
Proof.
  induction logs as [|l logs IH]; simpl; [reflexivity|].
  intros H. apply orb_false_iff in H as [Hl Hrest]. rewrite Hl. simpl.
  now rewrite IH.
Qed.

Lemma DB_eta (d : DB.t) :
  {| DB.deployments := DB.deployments d; DB.deployment_logs := DB.deployment_logs d;
     DB.backups := DB.backups d |} = d.
Proof. now destruct d. Qed.

Lemma Validate_accepts_valid_name (TrimSpace : string -> string) (dc : Models.DeploymentConfig) :
  Models.DeploymentConfig_Validate TrimSpace dc = None ->
  Models.isValidStackName (Models.StackName dc) = true.
Proof.
  intros Hv. destruct (Models.isValidStackName (Models.StackName dc)) eqn:Hname; [reflexivity|].
  destruct (Validate_rejects_invalid_name TrimSpace dc Hname) as [err Herr]. congruence.
Qed.

End HandlerWrites.

(** X9.  [Delete] writes to the store only when it answers 200:
    with any other answer the store is as before.  When it answers
    200 the deployment had no log row, its row is gone and the log
    rows are as before (the final [DELETE FROM deployment_logs] finds
    nothing to delete).  The backups are never touched. *)
Theorem Delete_store_frame (deploymentID : string) (w : DeploymentsHandler.World) :
  let answer := (DeploymentsHandler.Delete deploymentID w).1 in
  let w' := (DeploymentsHandler.Delete deploymentID w).2 in
  (DeploymentsHandler.code answer = DeploymentsHandler.StatusOK ->
   DB.hasLogs (DeploymentsHandler.db w) deploymentID = false /\
   DB.deployments (DeploymentsHandler.db w')
     = delete deploymentID (DB.deployments (DeploymentsHandler.db w)) /\
   DB.deployment_logs (DeploymentsHandler.db w')
     = DB.deployment_logs (DeploymentsHandler.db w)) /\
  (DeploymentsHandler.code answer <> DeploymentsHandler.StatusOK ->
   DeploymentsHandler.db w' = DeploymentsHandler.db w) /\
  DB.backups (DeploymentsHandler.db w') = DB.backups (DeploymentsHandler.db w).
Proof.
  cbv zeta. unfold DeploymentsHandler.Delete.
  destruct (String.eqb deploymentID ""); [simpl; repeat split; try discriminate; tauto|].
  destruct (DB.deployments (DeploymentsHandler.db w) !! deploymentID) as [row|] eqn:Hrow;
    [|simpl; repeat split; try discriminate; tauto].
  assert (Hdown : forall r w1,
             (if bool_decide (DB.status row = Models.StatusRunning)
              then DeploymentsHandler.Down (DB.stack_name row) w else (None, w)) = (r, w1) ->
             DeploymentsHandler.db w1 = DeploymentsHandler.db w).
  { intros r w1. unfold DeploymentsHandler.Down.
    destruct (bool_decide _); [destruct (DeploymentsHandler.downErr w !! _)|];
      intros [= <- <-]; reflexivity. }
  destruct (if bool_decide (DB.status row = Models.StatusRunning)
            then DeploymentsHandler.Down (DB.stack_name row) w else (None, w))
    as [r w1] eqn:Hd.
  specialize (Hdown r w1 eq_refl).
  destruct r as [err|]; [simpl; repeat split; try discriminate; try tauto; now rewrite Hdown|].
  unfold DeploymentsHandler.deleteDeploymentRow. rewrite Hdown, Hrow.
  rewrite bool_decide_eq_true_2 by eauto. cbn [andb].
  destruct (DB.hasLogs (DeploymentsHandler.db w) deploymentID) eqn:Hlogs.
  - simpl. repeat split; try discriminate; try tauto; now rewrite Hdown.
  - simpl. repeat split; try tauto.
    apply filter_unreferenced. exact Hlogs.
Qed.

Lemma Delete_with_logs (deploymentID : string) (w : DeploymentsHandler.World)
    (row : DB.DeploymentRow) :
  deploymentID <> "" ->
  DB.deployments (DeploymentsHandler.db w) !! deploymentID = Some row ->
  DB.hasLogs (DeploymentsHandler.db w) deploymentID = true ->
  (DB.status row = Models.StatusRunning ->
   DeploymentsHandler.downErr w !! DB.stack_name row = None) ->
  DeploymentsHandler.Delete deploymentID w =
    ({| DeploymentsHandler.code := DeploymentsHandler.StatusInternalServerError;
        DeploymentsHandler.body :=
          "Failed to delete deployment: FOREIGN KEY constraint failed" |},
     {| DeploymentsHandler.db := DeploymentsHandler.db w;
        DeploymentsHandler.now := DeploymentsHandler.now w;
        DeploymentsHandler.downErr := DeploymentsHandler.downErr w;
        DeploymentsHandler.downed :=
          if bool_decide (DB.status row = Models.StatusRunning)
          then DeploymentsHandler.downed w ++ [DB.stack_name row]
          else DeploymentsHandler.downed w |}).
Proof.
  intros Hid Hrow Hlogs Hdown. unfold DeploymentsHandler.Delete.
  apply String.eqb_neq in Hid. rewrite Hid, Hrow.
  unfold DeploymentsHandler.Down, DeploymentsHandler.deleteDeploymentRow.
  destruct (bool_decide (DB.status row = Models.StatusRunning)) eqn:Hrun.
  - apply bool_decide_eq_true in Hrun. rewrite (Hdown Hrun). cbn [DeploymentsHandler.db].
    rewrite Hrow, Hlogs, bool_decide_eq_true_2 by eauto. reflexivity.
  - rewrite Hrow, Hlogs, bool_decide_eq_true_2 by eauto. cbn [andb]. f_equal. now destruct w.
Qed.


(** X10.  A deployment that a log row still references cannot be
    deleted: [Delete] answers 500 with the foreign-key error and the
    store is unchanged; a running one has had its stack brought down
    by then. *)
Theorem Delete_refused_while_logged (deploymentID : string) (w : DeploymentsHandler.World)
    (row : DB.DeploymentRow) :
  deploymentID <> "" ->
  DB.deployments (DeploymentsHandler.db w) !! deploymentID = Some row ->
  DB.hasLogs (DeploymentsHandler.db w) deploymentID = true ->
  (DB.status row = Models.StatusRunning ->
   DeploymentsHandler.downErr w !! DB.stack_name row = None) ->
  DeploymentsHandler.Delete deploymentID w =
    ({| DeploymentsHandler.code := DeploymentsHandler.StatusInternalServerError;
        DeploymentsHandler.body :=
          "Failed to delete deployment: FOREIGN KEY constraint failed" |},
     {| DeploymentsHandler.db := DeploymentsHandler.db w;
        DeploymentsHandler.now := DeploymentsHandler.now w;
        DeploymentsHandler.downErr := DeploymentsHandler.downErr w;
        DeploymentsHandler.downed :=
          if bool_decide (DB.status row = Models.StatusRunning)
          then DeploymentsHandler.downed w ++ [DB.stack_name row]
          else DeploymentsHandler.downed w |}).
Proof. apply Delete_with_logs. Qed.

(** [deploy_1] once deployed: running, with its two log rows. *)
Lemma Delete_refused_while_logged_witness :
  DeploymentsHandler.code (DeploymentsHandler.Delete "deploy_1" Samples.deployed).1
    = DeploymentsHandler.StatusInternalServerError /\
  DeploymentsHandler.downed (DeploymentsHandler.Delete "deploy_1" Samples.deployed).2
    = ["demo-1"].
Proof.
  rewrite (Delete_refused_while_logged "deploy_1" Samples.deployed
             {| DB.template_id := "nginx"; DB.stack_name := "demo-1";
                DB.status := Models.StatusRunning; DB.config := "{}";
                DB.newt_injected := false;
                DB.tunnel_url := "https://demo-1.tunnel.example.com";
                DB.created_at := 1700000000; DB.updated_at := 1700000105 |}).
  - split; reflexivity.
  - discriminate.
  - vm_compute. reflexivity.
  - reflexivity.
  - intros _. reflexivity.
Defined.

Section Deploying.

Import DeploymentsHandler DeploymentProcess.

Lemma addDeploymentLog_info (deploymentID message : string) (w : World) :
  is_Some (DB.deployments (db w) !! deploymentID) ->
  addDeploymentLog deploymentID "info" message w =
  with_db w
    (DB.with_logs (db w)
       (DB.deployment_logs (db w)
        ++ [ {| DB.deployment_id := deploymentID; DB.log_level := "info";
                DB.message := message; DB.timestamp := now w |} ])).
Proof.
  intros H. unfold addDeploymentLog. now rewrite bool_decide_eq_true_2 by exact H.
Qed.

Lemma addDeploymentLog_unknown (deploymentID level message : string) (w : World) :
  DB.deployments (db w) !! deploymentID = None ->
  addDeploymentLog deploymentID level message w = w.
Proof.
  intros H. unfold addDeploymentLog. rewrite H.
  rewrite bool_decide_eq_false_2; [reflexivity|]. now intros [? ?].
Qed.

Lemma alter_alter_insert {A} (f g h : A -> A) (k : string) (m : gmap string A) (x : A) :
  m !! k = Some x ->
  alter h k (alter g k (alter f k m)) = <[k := h (g (f x))]> m.
Proof.
  intros Hx. apply map_eq. intros k'.
  destruct (decide (k' = k)) as [->|Hk].
  - now rewrite !lookup_alter_eq, lookup_insert_eq, Hx.
  - now rewrite !lookup_alter_ne, lookup_insert_ne by congruence.
Qed.

Lemma alter_insert_2 {A} (f g : A -> A) (k : string) (m : gmap string A) (x : A) :
  m !! k = Some x ->
  alter g k (alter f k m) = <[k := g (f x)]> m.
Proof.
  intros Hx. apply map_eq. intros k'.
  destruct (decide (k' = k)) as [->|Hk].
  - now rewrite !lookup_alter_eq, lookup_insert_eq, Hx.
  - now rewrite !lookup_alter_ne, lookup_insert_ne by congruence.
Qed.

End Deploying.

Ltac world_simpl :=
  unfold DeploymentProcess.updateTunnelURL, DeploymentProcess.Sleep,
    DeploymentsHandler.updateDeploymentStatus, DeploymentsHandler.with_db,
    DB.with_deployments, DB.with_logs;
  cbn [DeploymentsHandler.db DeploymentsHandler.now DeploymentsHandler.downErr
       DeploymentsHandler.downed DB.deployments DB.deployment_logs DB.backups].

Lemma performDeployment_effect (deployment : DeploymentProcess.Deployment)
    (w : DeploymentsHandler.World) (row : DB.DeploymentRow) :
  DB.deployments (DeploymentsHandler.db w) !! DeploymentProcess.ID deployment = Some row ->
  let w' := DeploymentProcess.performDeployment deployment w in
  DB.deployments (DeploymentsHandler.db w')
    = <[DeploymentProcess.ID deployment :=
          {| DB.template_id := DB.template_id row;
             DB.stack_name := DB.stack_name row;
             DB.status := Models.StatusRunning;
             DB.config := DB.config row;
             DB.newt_injected := DB.newt_injected row;
             DB.tunnel_url :=
               if DeploymentProcess.NewtInjected deployment
               then "https://" +:+ DeploymentProcess.StackName deployment
                    +:+ ".tunnel.example.com"
               else DB.tunnel_url row;
             DB.created_at := DB.created_at row;
             DB.updated_at := (DeploymentsHandler.now w + 5)%Z |}]>
        (DB.deployments (DeploymentsHandler.db w)) /\
  DB.deployment_logs (DeploymentsHandler.db w')
    = DB.deployment_logs (DeploymentsHandler.db w)
      ++ [ {| DB.deployment_id := DeploymentProcess.ID deployment; DB.log_level := "info";
              DB.message := "Starting deployment process";
              DB.timestamp := DeploymentsHandler.now w |};
           {| DB.deployment_id := DeploymentProcess.ID deployment; DB.log_level := "info";
              DB.message := "Deployment completed successfully";
              DB.timestamp := (DeploymentsHandler.now w + 5)%Z |} ] /\
  DB.backups (DeploymentsHandler.db w') = DB.backups (DeploymentsHandler.db w).
Proof.
  intros Hrow. cbv zeta. unfold DeploymentProcess.performDeployment.
  destruct w as [[deployments logs backups] now0 downErr0 downed0].
  cbn [DeploymentsHandler.db DB.deployments] in Hrow.
  rewrite (addDeploymentLog_info _ "Starting deployment process")
    by (world_simpl; rewrite !lookup_alter_eq, Hrow; cbn; eauto).
  rewrite addDeploymentLog_info
    by (world_simpl; rewrite !lookup_alter_eq, Hrow; cbn; eauto).
  destruct (DeploymentProcess.NewtInjected deployment); world_simpl;
    (split; [|split; [now rewrite <- app_assoc | reflexivity]]).
  - now rewrite (alter_alter_insert _ _ _ _ _ row Hrow).
  - now rewrite (alter_insert_2 _ _ _ _ row Hrow).
Qed.


(** X11.  [performDeployment] on a deployment of the store: the row
    ends [running], updated five seconds later, with the tunnel URL
    of the stack when newt was injected (and the old one otherwise);
    two [info] log rows are appended; nothing else changes. *)
Theorem performDeployment_postcondition (deployment : DeploymentProcess.Deployment)
    (w : DeploymentsHandler.World) (row : DB.DeploymentRow) :
  DB.deployments (DeploymentsHandler.db w) !! DeploymentProcess.ID deployment = Some row ->
  let w' := DeploymentProcess.performDeployment deployment w in
  DB.deployments (DeploymentsHandler.db w')
    = <[DeploymentProcess.ID deployment :=
          {| DB.template_id := DB.template_id row;
             DB.stack_name := DB.stack_name row;
             DB.status := Models.StatusRunning;
             DB.config := DB.config row;
             DB.newt_injected := DB.newt_injected row;
             DB.tunnel_url :=
               if DeploymentProcess.NewtInjected deployment
               then "https://" +:+ DeploymentProcess.StackName deployment
                    +:+ ".tunnel.example.com"
               else DB.tunnel_url row;
             DB.created_at := DB.created_at row;
             DB.updated_at := (DeploymentsHandler.now w + 5)%Z |}]>
        (DB.deployments (DeploymentsHandler.db w)) /\
  DB.deployment_logs (DeploymentsHandler.db w')
    = DB.deployment_logs (DeploymentsHandler.db w)
      ++ [ {| DB.deployment_id := DeploymentProcess.ID deployment; DB.log_level := "info";
              DB.message := "Starting deployment process";
              DB.timestamp := DeploymentsHandler.now w |};
           {| DB.deployment_id := DeploymentProcess.ID deployment; DB.log_level := "info";
              DB.message := "Deployment completed successfully";
              DB.timestamp := (DeploymentsHandler.now w + 5)%Z |} ] /\
  DB.backups (DeploymentsHandler.db w') = DB.backups (DeploymentsHandler.db w).
Proof. apply performDeployment_effect. Qed.

(** [deploy_1], pending, is deployed. *)
Lemma performDeployment_postcondition_witness :
  DB.status <$>
    DB.deployments (DeploymentsHandler.db Samples.deployed) !! "deploy_1"
  = Some Models.StatusRunning.
Proof.
  destruct (performDeployment_postcondition
              {| DeploymentProcess.ID := "deploy_1"; DeploymentProcess.TemplateID := "nginx";
                 DeploymentProcess.StackName := "demo-1";
                 DeploymentProcess.NewtInjected := true |}
              (Examples.handlerWorld Models.StatusPending)
              (Examples.deploymentRow "demo-1" Models.StatusPending))
    as (Hdeployments & _).
  - reflexivity.
  - unfold Samples.deployed. rewrite Hdeployments. reflexivity.
Defined.

Lemma performDeployment_executor (deployment : DeploymentProcess.Deployment)
    (w : DeploymentsHandler.World) :
  DeploymentsHandler.downErr (DeploymentProcess.performDeployment deployment w)
    = DeploymentsHandler.downErr w /\
  DeploymentsHandler.downed (DeploymentProcess.performDeployment deployment w)
    = DeploymentsHandler.downed w.
Proof.
  unfold DeploymentProcess.performDeployment, DeploymentProcess.addDeploymentLog.
  repeat match goal with
         | |- context [if ?b then _ else _] => destruct b
         end; split; reflexivity.
Qed.

(** X12.  [performDeployment] followed by [Delete]: the two log rows
    written by the deployment make the deletion fail with 500; the
    row is still there in status [running], while the stack has been
    brought down. *)
Theorem Delete_after_performDeployment (deployment : DeploymentProcess.Deployment)
    (w : DeploymentsHandler.World) (row : DB.DeploymentRow) :
  DeploymentProcess.ID deployment <> "" ->
  DB.deployments (DeploymentsHandler.db w) !! DeploymentProcess.ID deployment = Some row ->
  DeploymentsHandler.downErr w !! DB.stack_name row = None ->
  let w' := DeploymentProcess.performDeployment deployment w in
  let deleted := DeploymentsHandler.Delete (DeploymentProcess.ID deployment) w' in
  DeploymentsHandler.code deleted.1 = DeploymentsHandler.StatusInternalServerError /\
  DeploymentsHandler.db deleted.2 = DeploymentsHandler.db w' /\
  DB.status <$> DB.deployments (DeploymentsHandler.db deleted.2)
                  !! DeploymentProcess.ID deployment = Some Models.StatusRunning /\
  DeploymentsHandler.downed deleted.2 = DeploymentsHandler.downed w ++ [DB.stack_name row].
Proof.
  intros Hid Hrow Hdown. cbv zeta.
  destruct (performDeployment_effect deployment w row Hrow) as (Hdeps & Hlogs & _).
  destruct (performDeployment_executor deployment w) as [Herr Hdowned].
  set (w' := DeploymentProcess.performDeployment deployment w) in *.
  assert (Hrow' : exists row', DB.deployments (DeploymentsHandler.db w')
                                 !! DeploymentProcess.ID deployment = Some row'
                               /\ DB.status row' = Models.StatusRunning
                               /\ DB.stack_name row' = DB.stack_name row).
  { rewrite Hdeps, lookup_insert_eq. eexists. split; [reflexivity|]. split; reflexivity. }
  destruct Hrow' as (row' & Hrow' & Hstatus & Hname).
  rewrite (Delete_with_logs _ w' row' Hid Hrow').
  - cbn [fst snd DeploymentsHandler.code DeploymentsHandler.db DeploymentsHandler.downed].
    rewrite Hrow', bool_decide_eq_true_2 by exact Hstatus.
    rewrite Hdowned, Hname. repeat split.
    cbn [fmap option_fmap option_map]. now rewrite Hstatus.
  - unfold DB.hasLogs. rewrite Hlogs, existsb_app. apply orb_true_iff. right.
    cbn [existsb DB.deployment_id]. now rewrite String.eqb_refl.
  - intros _. now rewrite Herr, Hname.
Qed.

(** [deploy_1] is deployed, then deleted. *)
Lemma Delete_after_performDeployment_witness :
  DeploymentsHandler.code (DeploymentsHandler.Delete "deploy_1" Samples.deployed).1
    = DeploymentsHandler.StatusInternalServerError /\
  DB.status <$>
    DB.deployments
      (DeploymentsHandler.db (DeploymentsHandler.Delete "deploy_1" Samples.deployed).2)
      !! "deploy_1" = Some Models.StatusRunning.
Proof.
  destruct (Delete_after_performDeployment
              {| DeploymentProcess.ID := "deploy_1"; DeploymentProcess.TemplateID := "nginx";
                 DeploymentProcess.StackName := "demo-1";
                 DeploymentProcess.NewtInjected := true |}
              (Examples.handlerWorld Models.StatusPending)
              (Examples.deploymentRow "demo-1" Models.StatusPending))
    as (Hcode & _ & Hstatus & _).
  - discriminate.
  - reflexivity.
  - reflexivity.
  - split; [exact Hcode | exact Hstatus].
Defined.

Section Creating.

Import DeploymentsHandler DeploymentProcess.

Variable TrimSpace : string -> string.
Variable templates : gset string.
Variable MarshalConfig : Models.DeploymentConfig -> string.

Lemma stack_name_unused (name : string) (deployments : gmap string DB.DeploymentRow) :
  existsb (fun kv : string * DB.DeploymentRow => String.eqb (DB.stack_name kv.2) name)
          (map_to_list deployments) = false <->
  (forall id row, deployments !! id = Some row -> DB.stack_name row <> name).
Proof.
  split.
  - intros Hex id row Hrow Hname.
    assert (Hin : existsb (fun kv : string * DB.DeploymentRow =>
                             String.eqb (DB.stack_name kv.2) name)
                          (map_to_list deployments) = true).
    { apply existsb_exists. exists (id, row). split.
      - apply list_elem_of_In, elem_of_map_to_list. exact Hrow.
      - apply String.eqb_eq. exact Hname. }
    congruence.
  - intros Hall.
    destruct (existsb _ (map_to_list deployments)) eqn:Hex; [|reflexivity].
    apply existsb_exists in Hex as ([id row] & Hin & Heq).
    apply list_elem_of_In, elem_of_map_to_list in Hin. apply String.eqb_eq in Heq.
    now destruct (Hall id row Hin).
Qed.

Lemma Create_cases (req : Models.DeploymentConfig) (w : World) :
  (exists deployment,
      Create TrimSpace templates MarshalConfig req w =
        ({| code := StatusCreated; body := "Deployment started" |},
         with_db w
           (DB.with_deployments (db w)
              (<[ID deployment :=
                   {| DB.template_id := Models.TemplateID req;
                      DB.stack_name := Models.StackName req;
                      DB.status := Models.StatusPending;
                      DB.config := MarshalConfig req;
                      DB.newt_injected := Models.IncludeNewt req;
                      DB.tunnel_url := "";
                      DB.created_at := now w;
                      DB.updated_at := now w |}]> (DB.deployments (db w)))),
         Some deployment) /\
      Models.DeploymentConfig_Validate TrimSpace req = None /\
      Models.TemplateID req ∈ templates /\
      (forall id row, DB.deployments (db w) !! id = Some row ->
                      DB.stack_name row <> Models.StackName req) /\
      DB.deployments (db w) !! ID deployment = None /\
      ID deployment = "deploy_" +:+ NilEmpty.string_of_int (Z.to_int (now w)) /\
      StackName deployment = Models.StackName req /\
      NewtInjected deployment = Models.IncludeNewt req) \/
  (exists answer,
      Create TrimSpace templates MarshalConfig req w = (answer, w, None) /\
      code answer <> StatusCreated).
Proof.
  unfold Create.
  destruct (Models.DeploymentConfig_Validate TrimSpace req) as [err|] eqn:Hv.
  { right. eexists. split; [reflexivity | discriminate]. }
  destruct (bool_decide (Models.TemplateID req ∈ templates)) eqn:Ht; cbn [negb].
  2:{ right. eexists. split; [reflexivity | discriminate]. }
  destruct (existsb _ (map_to_list (DB.deployments (db w)))) eqn:Hex.
  { right. eexists. split; [reflexivity | discriminate]. }
  destruct (bool_decide (is_Some (DB.deployments (db w) !! _))) eqn:Hid.
  { right. eexists. split; [reflexivity | discriminate]. }
  left.
  exists {| ID := "deploy_" +:+ NilEmpty.string_of_int (Z.to_int (now w));
            TemplateID := Models.TemplateID req; StackName := Models.StackName req;
            NewtInjected := Models.IncludeNewt req |}.
  split; [reflexivity|].
  cbn [ID StackName NewtInjected].
  apply bool_decide_eq_true in Ht. apply bool_decide_eq_false in Hid.
  repeat split; try assumption.
  - apply stack_name_unused. exact Hex.
  - destruct (DB.deployments (db w) !! _); [exfalso; apply Hid; eauto | reflexivity].
Qed.

Lemma stack_names_inherited (d d' : DB.t) :
  (forall id row', DB.deployments d' !! id = Some row' ->
                   exists row, DB.deployments d !! id = Some row
                               /\ DB.stack_name row' = DB.stack_name row) ->
  stackNamesValid d -> stackNamesUnique d -> stackNamesValid d' /\ stackNamesUnique d'.
Proof.
  intros Hsub Hvalid Hunique. split.
  - intros id row' Hrow'. destruct (Hsub id row' Hrow') as (row & Hrow & ->).
    exact (Hvalid id row Hrow).
  - intros id1 id2 row1' row2' H1 H2 Hname.
    destruct (Hsub id1 row1' H1) as (row1 & Hrow1 & Hn1).
    destruct (Hsub id2 row2' H2) as (row2 & Hrow2 & Hn2).
    apply (Hunique id1 id2 row1 row2 Hrow1 Hrow2). congruence.
Qed.

Lemma addDeploymentLog_deployments (deploymentID level message : string) (w : World) :
  DB.deployments (db (addDeploymentLog deploymentID level message w)) = DB.deployments (db w)
  /\ now (addDeploymentLog deploymentID level message w) = now w.
Proof.
  unfold addDeploymentLog. now destruct (_ && _).
Qed.

Lemma alter_stack_name (f : DB.DeploymentRow -> DB.DeploymentRow) (k id : string)
    (m : gmap string DB.DeploymentRow) (row' : DB.DeploymentRow) :
  (forall row, DB.stack_name (f row) = DB.stack_name row) ->
  alter f k m !! id = Some row' ->
  exists row, m !! id = Some row /\ DB.stack_name row' = DB.stack_name row.
Proof.
  intros Hf. destruct (decide (id = k)) as [->|Hne].
  - rewrite lookup_alter_eq. destruct (m !! k) as [row|]; [|discriminate].
    intros [= <-]. exists row. split; [reflexivity | apply Hf].
  - rewrite lookup_alter_ne by congruence. intros H. exists row'. now split.
Qed.

Lemma performDeployment_stack_names (deployment : Deployment) (w : World) (id : string)
    (row' : DB.DeploymentRow) :
  DB.deployments (db (performDeployment deployment w)) !! id = Some row' ->
  exists row, DB.deployments (db w) !! id = Some row
              /\ DB.stack_name row' = DB.stack_name row.
Proof.
  unfold performDeployment.
  set (w1 := updateDeploymentStatus (ID deployment) Models.StatusDeploying w).
  set (w2 := addDeploymentLog (ID deployment) "info" "Starting deployment process" w1).
  set (w4 := updateDeploymentStatus (ID deployment) Models.StatusRunning (Sleep 5 w2)).
  set (w5 := addDeploymentLog (ID deployment) "info" "Deployment completed successfully" w4).
  assert (H5 : DB.deployments (db w5) = DB.deployments (db w4))
    by apply addDeploymentLog_deployments.
  assert (H2 : DB.deployments (db w2) = DB.deployments (db w1))
    by apply addDeploymentLog_deployments.
  intros Hrow'.
  assert (Hrow5 : exists row5, DB.deployments (db w5) !! id = Some row5
                               /\ DB.stack_name row' = DB.stack_name row5).
  { destruct (NewtInjected deployment).
    - apply alter_stack_name in Hrow'; [exact Hrow' | reflexivity].
    - eauto. }
  destruct Hrow5 as (row5 & Hrow5 & Hn5). rewrite H5 in Hrow5.
  apply alter_stack_name in Hrow5 as (row2 & Hrow2 & Hn2); [|reflexivity].
  change (DB.deployments (db (Sleep 5 w2))) with (DB.deployments (db w2)) in Hrow2.
  rewrite H2 in Hrow2.
  apply alter_stack_name in Hrow2 as (row & Hrow & Hn); [|reflexivity].
  exists row. split; [exact Hrow | congruence].
Qed.

Lemma Delete_deployments (deploymentID : string) (w : World) :
  DB.deployments (db (Delete deploymentID w).2) = DB.deployments (db w) \/
  DB.deployments (db (Delete deploymentID w).2) = delete deploymentID (DB.deployments (db w)).
Proof.
  unfold Delete.
  destruct (String.eqb deploymentID ""); [now left|].
  destruct (DB.deployments (db w) !! deploymentID) as [row|]; [|now left].
  assert (Hdown : db (if bool_decide (DB.status row = Models.StatusRunning)
                      then Down (DB.stack_name row) w else (None, w)).2 = db w).
  { unfold Down. destruct (bool_decide _); [destruct (downErr w !! _)|]; reflexivity. }
  destruct (if bool_decide (DB.status row = Models.StatusRunning)
            then Down (DB.stack_name row) w else (None, w)) as [[err|] w1];
    cbn [snd] in Hdown; [left; cbn [snd]; now rewrite Hdown|].
  unfold deleteDeploymentRow. rewrite Hdown.
  destruct (_ && _); [left; cbn [snd]; now rewrite Hdown | now right].
Qed.

End Creating.

(** X13.  [Create] answers 201 only for a request with a stack name
    of the accepted form, a known template and a stack name no
    deployment uses; it then inserts one new row in status
    [pending] and hands the deployment to [performDeployment].  With
    any other answer nothing is written and nothing is started. *)
Theorem Create_outcome (TrimSpace : string -> string) (templates : gset string)
    (MarshalConfig : Models.DeploymentConfig -> string)
    (req : Models.DeploymentConfig) (w : DeploymentsHandler.World) :
  let result := DeploymentProcess.Create TrimSpace templates MarshalConfig req w in
  (DeploymentsHandler.code result.1.1 = DeploymentProcess.StatusCreated ->
   Models.isValidStackName (Models.StackName req) = true /\
   Models.TemplateID req ∈ templates /\
   (forall id row, DB.deployments (DeploymentsHandler.db w) !! id = Some row ->
                   DB.stack_name row <> Models.StackName req) /\
   exists deployment row,
     result.2 = Some deployment /\
     DeploymentProcess.StackName deployment = Models.StackName req /\
     DB.deployments (DeploymentsHandler.db w) !! DeploymentProcess.ID deployment = None /\
     DB.deployments (DeploymentsHandler.db result.1.2)
       = <[DeploymentProcess.ID deployment := row]>
           (DB.deployments (DeploymentsHandler.db w)) /\
     DB.stack_name row = Models.StackName req /\
     DB.status row = Models.StatusPending /\
     DB.newt_injected row = Models.IncludeNewt req) /\
  (DeploymentsHandler.code result.1.1 <> DeploymentProcess.StatusCreated ->
   result.1.2 = w /\ result.2 = None).
Proof.
  cbv zeta.
  destruct (Create_cases TrimSpace templates MarshalConfig req w)
    as [(deployment & -> & Hv & Ht & Hunused & Hfree & _ & Hname & _)|(answer & -> & Hcode)].
  - split; [intros _ | intros H; now destruct H].
    split; [now apply (Validate_accepts_valid_name TrimSpace)|].
    split; [exact Ht|]. split; [exact Hunused|].
    eexists deployment, _. repeat split; try eassumption; reflexivity.
  - split; [intros H; now destruct Hcode | intros _; now split].
Qed.

(** X14.  The stack names in the store stay of the accepted form
    and pairwise different through [Create], [performDeployment] and
    [Delete]. *)
Theorem handlers_keep_stack_names (TrimSpace : string -> string) (templates : gset string)
    (MarshalConfig : Models.DeploymentConfig -> string) (w : DeploymentsHandler.World) :
  DeploymentProcess.stackNamesValid (DeploymentsHandler.db w) ->
  DeploymentProcess.stackNamesUnique (DeploymentsHandler.db w) ->
  (forall req,
      let w' := (DeploymentProcess.Create TrimSpace templates MarshalConfig req w).1.2 in
      DeploymentProcess.stackNamesValid (DeploymentsHandler.db w') /\
      DeploymentProcess.stackNamesUnique (DeploymentsHandler.db w')) /\
  (forall deployment,
      let w' := DeploymentProcess.performDeployment deployment w in
      DeploymentProcess.stackNamesValid (DeploymentsHandler.db w') /\
      DeploymentProcess.stackNamesUnique (DeploymentsHandler.db w')) /\
  (forall deploymentID,
      let w' := (DeploymentsHandler.Delete deploymentID w).2 in
      DeploymentProcess.stackNamesValid (DeploymentsHandler.db w') /\
      DeploymentProcess.stackNamesUnique (DeploymentsHandler.db w')).
Proof.
  intros Hvalid Hunique. split; [|split].
  - intros req w'. subst w'.
    destruct (Create_cases TrimSpace templates MarshalConfig req w)
      as [(deployment & -> & Hv & _ & Hunused & Hfree & _)|(answer & -> & _)];
      [|now split].
    apply (Validate_accepts_valid_name TrimSpace) in Hv.
    unfold DeploymentsHandler.with_db, DB.with_deployments.
    cbn [fst snd DeploymentsHandler.db DB.deployments]. split.
    + intros id row. cbn [DB.deployments].
      destruct (decide (id = DeploymentProcess.ID deployment)) as [->|Hne].
      * rewrite lookup_insert_eq. intros [= <-]. exact Hv.
      * rewrite lookup_insert_ne by congruence. apply Hvalid.
    + intros id1 id2 row1 row2. cbn [DB.deployments].
      destruct (decide (id1 = DeploymentProcess.ID deployment)) as [->|Hne1];
        destruct (decide (id2 = DeploymentProcess.ID deployment)) as [->|Hne2];
        rewrite ?lookup_insert_eq, ?lookup_insert_ne by congruence.
      * reflexivity.
      * intros [= <-] H2 Hname. symmetry in Hname. now destruct (Hunused id2 row2 H2).
      * intros H1 [= <-] Hname. now destruct (Hunused id1 row1 H1).
      * apply Hunique.
  - intros deployment w'. subst w'.
    apply (stack_names_inherited (DeploymentsHandler.db w)); [|assumption..].
    apply performDeployment_stack_names.
  - intros deploymentID w'. subst w'.
    apply (stack_names_inherited (DeploymentsHandler.db w)); [|assumption..].
    intros id row'.
    destruct (Delete_deployments deploymentID w) as [-> | ->]; [eauto|].
    intros H. apply lookup_delete_Some in H as [_ H]. eauto.
Qed.

(** A second deployment, [demo-2], is created next to [demo-1]. *)
Lemma handlers_keep_stack_names_witness :
  let w := Examples.handlerWorld Models.StatusRunning in
  let req :=
    {| Models.TemplateID := "nginx"; Models.StackName := "demo-2";
       Models.Environment := ∅; Models.NewtConfig_ := None;
       Models.AutoStart := true; Models.IncludeNewt := false |} in
  DeploymentProcess.stackNamesUnique
    (DeploymentsHandler.db
       (DeploymentProcess.Create Strings.TrimSpaceASCII {[ "nginx" ]} (fun _ => "{}")
          req w).1.2).
Proof.
  intros w req.
  apply (handlers_keep_stack_names Strings.TrimSpaceASCII {[ "nginx" ]} (fun _ => "{}") w).
  - intros id row Hrow. subst w. cbn in Hrow.
    apply lookup_singleton_Some in Hrow as [_ <-]. reflexivity.
  - intros id1 id2 row1 row2 H1 H2 _. subst w. cbn in H1, H2.
    apply lookup_singleton_Some in H1 as [<- _].
    apply lookup_singleton_Some in H2 as [<- _]. reflexivity.
Defined.

Section Stacks.

Import StacksHandler.

Lemma runCommand_db (command : string) (args : list string) (w : World) :
  db (runCommand command args w).2 = db w /\ now (runCommand command args w).2 = now w.
Proof. unfold runCommand. now destruct (failing w !! _). Qed.

Lemma runCommand_ok (command : string) (args : list string) (w : World) :
  failing w !! (command :: args) = None ->
  runCommand command args w =
    (None, {| db := db w; now := now w; failing := failing w;
              ran := ran w ++ [command :: args] |}).
Proof. intros H. unfold runCommand. now rewrite H. Qed.

Lemma updateDeploymentStatus_lookup (deploymentID id : string)
    (status : Models.DeploymentStatus) (w : World) :
  DB.deployments (db (updateDeploymentStatus deploymentID status w)) !! id =
  if decide (id = deploymentID)
  then (fun row =>
          {| DB.template_id := DB.template_id row; DB.stack_name := DB.stack_name row;
             DB.status := status; DB.config := DB.config row;
             DB.newt_injected := DB.newt_injected row; DB.tunnel_url := DB.tunnel_url row;
             DB.created_at := DB.created_at row; DB.updated_at := now w |})
       <$> DB.deployments (db w) !! id
  else DB.deployments (db w) !! id.
Proof.
  unfold updateDeploymentStatus. cbn [db DB.with_deployments DB.deployments].
  destruct (decide (id = deploymentID)) as [->|Hne].
  - now rewrite lookup_alter_eq.
  - now rewrite lookup_alter_ne by congruence.
Qed.

Lemma getStackName_known (stackID : string) (w : World) :
  getStackName stackID w <> "" ->
  exists row, DB.deployments (db w) !! stackID = Some row
              /\ DB.stack_name row = getStackName stackID w.
Proof.
  unfold getStackName. destruct (DB.deployments (db w) !! stackID) as [row|]; simpl.
  - intros _. now exists row.
  - intros H. now destruct H.
Qed.

End Stacks.

(** X15.  The status writes of the stack handlers: [Start] and
    [Stop] set the status ([running], [stopped]) of the stack they
    answer 200 for, leave the store as it is with any other answer,
    and never touch another deployment; [Restart] never writes to the
    store. *)
Theorem StacksHandler_status_writes (stackID : string) (w : StacksHandler.World) :
  let started := StacksHandler.Start stackID w in
  let stopped := StacksHandler.Stop stackID w in
  let restarted := StacksHandler.Restart stackID w in
  (DeploymentsHandler.code started.1 = DeploymentsHandler.StatusOK ->
   DB.status <$> DB.deployments (StacksHandler.db started.2) !! stackID
     = Some Models.StatusRunning) /\
  (DeploymentsHandler.code started.1 <> DeploymentsHandler.StatusOK ->
   StacksHandler.db started.2 = StacksHandler.db w) /\
  (DeploymentsHandler.code stopped.1 = DeploymentsHandler.StatusOK ->
   DB.status <$> DB.deployments (StacksHandler.db stopped.2) !! stackID
     = Some Models.StatusStopped) /\
  (DeploymentsHandler.code stopped.1 <> DeploymentsHandler.StatusOK ->
   StacksHandler.db stopped.2 = StacksHandler.db w) /\
  StacksHandler.db restarted.2 = StacksHandler.db w /\
  (forall id, id <> stackID ->
     DB.deployments (StacksHandler.db started.2) !! id
       = DB.deployments (StacksHandler.db w) !! id /\
     DB.deployments (StacksHandler.db stopped.2) !! id
       = DB.deployments (StacksHandler.db w) !! id).
Proof.
  cbv zeta. unfold StacksHandler.Start, StacksHandler.Stop, StacksHandler.Restart,
    StacksHandler.ComposeStart, StacksHandler.ComposeStop, StacksHandler.ComposeRestart.
  destruct (String.eqb_spec (StacksHandler.getStackName stackID w) "") as [Hname|Hname].
  { cbn [fst snd DeploymentsHandler.code]. repeat split; try discriminate; reflexivity. }
  destruct (getStackName_known stackID w Hname) as (row & Hrow & _).
  set (name := StacksHandler.getStackName stackID w).
  pose proof (runCommand_db "docker" ["compose"; "--project-name"; name; "start"] w) as [Hs _].
  pose proof (runCommand_db "docker" ["compose"; "--project-name"; name; "stop"] w) as [Ht _].
  pose proof (runCommand_db "docker" ["compose"; "--project-name"; name; "restart"] w)
    as [Hr _].
  destruct (StacksHandler.runCommand "docker" ["compose"; "--project-name"; name; "start"] w)
    as [[es|] ws];
  destruct (StacksHandler.runCommand "docker" ["compose"; "--project-name"; name; "stop"] w)
    as [[et|] wt];
  destruct (StacksHandler.runCommand "docker" ["compose"; "--project-name"; name; "restart"] w)
    as [[er|] wr];
  cbn [fst snd DeploymentsHandler.code] in *;
  repeat match goal with
         | |- _ /\ _ => split
         | |- _ -> _ => intros ?
         end;
  try discriminate; try congruence; try assumption;
  rewrite ?updateDeploymentStatus_lookup;
  repeat match goal with
         | |- context [decide (?a = ?b)] => destruct (decide (a = b)); try congruence
         end;
  try (rewrite ?Hs, ?Ht, Hrow; reflexivity);
  try (rewrite ?Hs, ?Ht; reflexivity).
Qed.

(** X16.  The stack handlers do not look at the status: for a known
    stack whose command succeeds, [Start], [Stop] and [Restart]
    answer 200 whatever the status was, run exactly their
    [docker compose] command, and [Start] and [Stop] overwrite the
    status while [Restart] leaves the row as it is. *)
Theorem StacksHandler_not_gated_by_status (stackID : string) (w : StacksHandler.World)
    (row : DB.DeploymentRow) :
  DB.deployments (StacksHandler.db w) !! stackID = Some row ->
  DB.stack_name row <> "" ->
  (forall operation,
      StacksHandler.failing w
        !! ["docker"; "compose"; "--project-name"; DB.stack_name row; operation] = None) ->
  let started := StacksHandler.Start stackID w in
  let stopped := StacksHandler.Stop stackID w in
  let restarted := StacksHandler.Restart stackID w in
  (DeploymentsHandler.code started.1 = DeploymentsHandler.StatusOK /\
   DB.status <$> DB.deployments (StacksHandler.db started.2) !! stackID
     = Some Models.StatusRunning /\
   StacksHandler.ran started.2
     = StacksHandler.ran w
       ++ [["docker"; "compose"; "--project-name"; DB.stack_name row; "start"]]) /\
  (DeploymentsHandler.code stopped.1 = DeploymentsHandler.StatusOK /\
   DB.status <$> DB.deployments (StacksHandler.db stopped.2) !! stackID
     = Some Models.StatusStopped /\
   StacksHandler.ran stopped.2
     = StacksHandler.ran w
       ++ [["docker"; "compose"; "--project-name"; DB.stack_name row; "stop"]]) /\
  (DeploymentsHandler.code restarted.1 = DeploymentsHandler.StatusOK /\
   DB.deployments (StacksHandler.db restarted.2) !! stackID = Some row /\
   StacksHandler.ran restarted.2
     = StacksHandler.ran w
       ++ [["docker"; "compose"; "--project-name"; DB.stack_name row; "restart"]]).
Proof.
  intros Hrow Hname Hok. cbv zeta.
  unfold StacksHandler.Start, StacksHandler.Stop, StacksHandler.Restart,
    StacksHandler.ComposeStart, StacksHandler.ComposeStop, StacksHandler.ComposeRestart.
  assert (Hget : StacksHandler.getStackName stackID w = DB.stack_name row).
  { unfold StacksHandler.getStackName. now rewrite Hrow. }
  rewrite Hget. apply String.eqb_neq in Hname. rewrite Hname.
  rewrite !runCommand_ok by apply Hok.
  cbn [fst snd DeploymentsHandler.code].
  rewrite !updateDeploymentStatus_lookup.
  destruct (decide (stackID = stackID)); [|congruence].
  unfold StacksHandler.updateDeploymentStatus.
  cbn [StacksHandler.db StacksHandler.ran]. rewrite Hrow. repeat split.
Qed.

(** A deployment still in status [deploying] is started. *)
Lemma StacksHandler_not_gated_by_status_witness :
  let started := StacksHandler.Start "deploy_1" (Samples.stacksWorld Models.StatusDeploying) in
  DeploymentsHandler.code started.1 = DeploymentsHandler.StatusOK /\
  DB.status <$> DB.deployments (StacksHandler.db started.2) !! "deploy_1"
    = Some Models.StatusRunning.
Proof.
  destruct (StacksHandler_not_gated_by_status "deploy_1"
              (Samples.stacksWorld Models.StatusDeploying)
              (Examples.deploymentRow "demo-1" Models.StatusDeploying))
    as ((Hcode & Hstatus & _) & _).
  - reflexivity.
  - discriminate.
  - intros operation. reflexivity.
  - split; [exact Hcode | exact Hstatus].
Defined.

(** ** Capturing, restoring and removing a backup *)

Section Restoring.

Import BackupModels Manager.

Variable storagePath : path.

Lemma restore_loop_db (config : RestoreConfig) (restoreDir : path) (ids : list string)
    (w : World) :
  let w' :=
    fold_left
      (fun w deploymentID =>
         if Selective config && negb (HasDeployment config deploymentID) then w
         else if negb (TestRestore config)
              then (restoreDeployment deploymentID restoreDir w).2
              else w)
      ids w in
  db w' = db w /\ now w' = now w /\ FS.faulty (fs w') = FS.faulty (fs w).
Proof.
  cbv zeta. revert w. induction ids as [|id ids IH]; intros w; [now split|].
  cbn [fold_left]. destruct (IH
    (if Selective config && negb (HasDeployment config id) then w
     else if negb (TestRestore config) then (restoreDeployment id restoreDir w).2 else w))
    as (-> & -> & ->).
  destruct (Selective config && negb (HasDeployment config id)); [now split|].
  destruct (negb (TestRestore config)); [|now split].
  unfold restoreDeployment, loadJSON, FS.Open.
  destruct (bool_decide _); [now split|].
  destruct (FS.files _ !! _) as [[]|]; now split.
Qed.

Lemma performRestoreBody_db (backup : Backup) (config : RestoreConfig) (w : World) :
  db (performRestoreBody storagePath backup config w) = db w /\
  now (performRestoreBody storagePath backup config w) = now w.
Proof.
  unfold performRestoreBody.
  destruct (extractArchive _ _ _) as [[err|] f]; [now split|].
  destruct (restore_loop_db config (storagePath ++ ["restore"; ID backup])
              (DeploymentIDs backup) (with_fs w f)) as (-> & -> & _).
  now split.
Qed.

End Restoring.

(** X17.  [performRestore] leaves no trace: the store is unchanged,
    and nothing is left at or below the restore directory of the
    backup, whether the extraction succeeded or not. *)
Theorem performRestore_leaves_no_trace (storagePath : path) (backup : BackupModels.Backup)
    (config : BackupModels.RestoreConfig) (w : Manager.World) :
  let w' := Manager.performRestore storagePath backup config w in
  Manager.db w' = Manager.db w /\
  forall p, (storagePath ++ ["restore"; BackupModels.ID backup]) `prefix_of` p ->
            FS.files (Manager.fs w') !! p = None /\ p ∉ FS.dirs (Manager.fs w').
Proof.
  cbv zeta. unfold Manager.performRestore. split.
  - apply performRestoreBody_db.
  - intros p Hp. cbn [Manager.fs Manager.with_fs FS.RemoveAll FS.files FS.dirs FS.logged].
    split.
    + apply map_lookup_filter_None. right. intros x _ Hnot. now apply Hnot.
    + intros Hin. apply elem_of_filter in Hin as [Hnot _]. now apply Hnot.
Qed.

Section RestoreLoop.

Import BackupModels Manager.

Lemma restoreDeployment_oplog (deploymentID : string) (restoreDir : path) (w : World) :
  FS.oplog (fs (restoreDeployment deploymentID restoreDir w).2)
  = FS.oplog (fs w)
    ++ [FS.OpOpen (restoreDir ++ ["deployments"; deploymentID; "deployment.json"])].
Proof.
  unfold restoreDeployment, loadJSON, FS.Open.
  destruct (bool_decide _); [reflexivity|].
  destruct (FS.files _ !! _) as [[]|]; reflexivity.
Qed.

Lemma restore_loop_oplog (config : RestoreConfig) (restoreDir : path) (ids : list string)
    (w : World) :
  FS.oplog (fs (fold_left
                  (fun w deploymentID =>
                     if Selective config && negb (HasDeployment config deploymentID) then w
                     else if negb (TestRestore config)
                          then (restoreDeployment deploymentID restoreDir w).2
                          else w)
                  ids w))
  = FS.oplog (fs w)
    ++ List.map (fun id => FS.OpOpen (restoreDir ++ ["deployments"; id; "deployment.json"]))
         (List.filter (fun id => negb (TestRestore config) && HasDeployment config id) ids).
Proof.
  revert w. induction ids as [|id ids IH]; intros w; cbn [fold_left List.filter List.map].
  - now rewrite app_nil_r.
  - rewrite IH. unfold HasDeployment at 1 3.
    destruct (Selective config) eqn:Hsel; cbn [negb andb].
    + destruct (existsb _ (rc_DeploymentIDs config)); cbn [negb].
      * destruct (TestRestore config); cbn [negb andb List.map]; [reflexivity|].
        rewrite restoreDeployment_oplog, <- app_assoc. reflexivity.
      * now rewrite andb_false_r.
    + destruct (TestRestore config); cbn [negb andb List.map]; [reflexivity|].
      rewrite restoreDeployment_oplog, <- app_assoc. reflexivity.
Qed.

End RestoreLoop.

(** X18.  Once the archive is extracted, [performRestore] opens the
    manifest of exactly the deployments of the backup that the
    request selects, in the order of the backup, and none at all in
    a test restore; a manifest that cannot be read does not stop the
    loop. *)
Theorem performRestore_reads_selected (storagePath : path) (backup : BackupModels.Backup)
    (config : BackupModels.RestoreConfig) (w : Manager.World) (f : FS.t) :
  let restoreDir := storagePath ++ ["restore"; BackupModels.ID backup] in
  Manager.extractArchive (BackupModels.StoragePath backup) restoreDir (Manager.fs w)
    = (None, f) ->
  FS.oplog (Manager.fs (Manager.performRestoreBody storagePath backup config w))
  = FS.oplog f
    ++ List.map (fun id => FS.OpOpen (restoreDir ++ ["deployments"; id; "deployment.json"]))
         (List.filter (fun id => negb (BackupModels.TestRestore config)
                                 && BackupModels.HasDeployment config id)
                      (BackupModels.DeploymentIDs backup)).
Proof.
  cbv zeta. intros Hextract. unfold Manager.performRestoreBody. rewrite Hextract.
  apply restore_loop_oplog.
Qed.

(** A selective restore of [deploy_1] from [backup_1]. *)
Lemma performRestore_reads_selected_witness :
  exists f,
    FS.oplog (Manager.fs (Manager.performRestoreBody Examples.storagePath Samples.backup1
                            Samples.selectOne
                            (Examples.restorableWorld DB.BackupStatusCompleted)))
    = FS.oplog f
      ++ [FS.OpOpen (Examples.storagePath
                     ++ ["restore"; "backup_1"; "deployments"; "deploy_1";
                         "deployment.json"])].
Proof.
  eexists.
  apply (performRestore_reads_selected Examples.storagePath Samples.backup1
           Samples.selectOne (Examples.restorableWorld DB.BackupStatusCompleted)).
  vm_compute. reflexivity.
Defined.

Section CreatingBackups.

Import BackupModels Manager.

Variable storagePath : path.



End CreatingBackups.



Section Capturing.

Import BackupModels Manager ManagerSteps.

Variable archiveSize : list (path * option FS.Document) -> Z.
Variable storagePath : path.

Lemma backupLoop_failed (backupDir : path) (ids : list string) (err : string) (w : World) :
  backupLoop backupDir ids (Some err, w) = (Some err, w).
Proof. induction ids as [|id ids IH]; [reflexivity | exact IH]. Qed.

Lemma backupLoop_cons (backupDir : path) (id : string) (ids : list string) (w : World) :
  backupLoop backupDir (id :: ids) (None, w)
  = backupLoop backupDir ids (backupDeployment id backupDir w).
Proof. reflexivity. Qed.

Lemma append_neq (s t : string) : t <> "" -> s <> s +:+ t.
Proof.
  intros Ht. induction s as [|c s IH]; intros H.
  - change ("" +:+ t) with t in H. congruence.
  - change (String c s +:+ t) with (String c (s +:+ t)) in H.
    injection H as H. now apply IH.
Qed.

Lemma sibling_not_below (dir : path) (a b : string) (rest : path) :
  a <> b -> ~ (dir ++ [a]) `prefix_of` (dir ++ b :: rest).
Proof.
  intros Hab [k Hk]. rewrite <- app_assoc in Hk. apply app_inv_head in Hk.
  injection Hk as Hk _. congruence.
Qed.

Lemma backupDeployment_frame (deploymentID : string) (backupDir : path) (w : World) (p : path) :
  ~ backupDir `prefix_of` p ->
  let w' := (backupDeployment deploymentID backupDir w).2 in
  db w' = db w /\ now w' = now w /\ FS.files (fs w') !! p = FS.files (fs w) !! p.
Proof.
  intros Hp. cbv zeta. unfold backupDeployment.
  destruct (DB.deployments (db w) !! deploymentID) as [row|]; [|now split].
  unfold FS.MkdirAll. cbn [FS.logged FS.faulty FS.files].
  destruct (bool_decide _); [now split|].
  destruct (existsb _ _); [now split|].
  unfold saveJSON, FS.Create. cbn [FS.logged FS.faulty FS.files FS.dirs FS.oplog].
  destruct (bool_decide _); [now split|].
  destruct (negb _); [now split|].
  destruct (FS.isDir _ _); [now split|].
  cbn [snd db now fs with_fs FS.files]. repeat split.
  apply lookup_insert_ne. intros <-. apply Hp.
  exists ["deployments"; deploymentID; "deployment.json"]. now rewrite <- app_assoc.
Qed.

Lemma backupLoop_unknown (backupDir : path) (ids : list string) (w : World) (id : string)
    (p : path) :
  ~ backupDir `prefix_of` p ->
  In id ids -> DB.deployments (db w) !! id = None ->
  exists err w1,
    backupLoop backupDir ids (None, w) = (Some err, w1) /\
    db w1 = db w /\ now w1 = now w /\ FS.files (fs w1) !! p = FS.files (fs w) !! p.
Proof.
  intros Hp. revert w. induction ids as [|id0 ids IH]; intros w Hin Hid; [destruct Hin|].
  rewrite backupLoop_cons.
  destruct (backupDeployment_frame id0 backupDir w p Hp) as (Hdb & Hnow & Hfiles).
  destruct (backupDeployment id0 backupDir w) as [[err|] w0] eqn:Hstep; cbn [snd] in *.
  - rewrite backupLoop_failed. now exists err, w0.
  - destruct Hin as [->|Hin].
    + unfold backupDeployment in Hstep. rewrite Hid in Hstep. discriminate.
    + destruct (IH w0 Hin) as (err & w1 & -> & Hdb1 & Hnow1 & Hfiles1);
        [now rewrite Hdb|].
      exists err, w1. repeat split; congruence.
Qed.

Lemma performBackup_unknown (backup : Backup) (config : BackupConfig) (w : World)
    (id : string) :
  In id (DeploymentIDs backup) -> DB.deployments (db w) !! id = None ->
  let w' := performBackup archiveSize storagePath backup config w in
  FS.files (fs w') !! (storagePath ++ [ID backup +:+ ".tar.gz"])
    = FS.files (fs w) !! (storagePath ++ [ID backup +:+ ".tar.gz"]) /\
  DB.deployments (db w') = DB.deployments (db w) /\
  DB.backups (db w') !! ID backup
    = (fun row =>
         {| DB.b_name := DB.b_name row; DB.b_type := DB.b_type row;
            DB.b_status := DB.BackupStatusCompleted;
            DB.b_size_bytes := DB.b_size_bytes row;
            DB.b_include_volumes := DB.b_include_volumes row;
            DB.b_encrypted := DB.b_encrypted row;
            DB.b_storage_path := DB.b_storage_path row;
            DB.b_deployment_ids := DB.b_deployment_ids row;
            DB.b_created_at := DB.b_created_at row;
            DB.b_completed_at := Some (now w) |}) <$> DB.backups (db w) !! ID backup.
Proof.
  intros Hin Hid. cbv zeta.
  unfold performBackup, performBackupBody.
  fold (backupLoop (storagePath ++ [ID backup]) (DeploymentIDs backup) (None, w)).
  destruct (backupLoop_unknown (storagePath ++ [ID backup]) (DeploymentIDs backup) w id
              (storagePath ++ [ID backup +:+ ".tar.gz"]))
    as (err & w1 & -> & Hdb & Hnow & Hfiles); try assumption.
  { apply sibling_not_below. now apply append_neq. }
  unfold updateBackupStatus.
  cbn [db fs now with_db DB.with_backups DB.backups DB.deployments bool_decide
       decide_rel orb].
  rewrite Hdb, Hnow. split; [exact Hfiles|]. split; [reflexivity|].
  rewrite !lookup_alter_eq. destruct (DB.backups (db w) !! ID backup); reflexivity.
Qed.

End Capturing.

(** X20.  When a deployment of the backup is not in the store,
    [performBackup] writes nothing at the archive's path, and the
    record still ends [completed], with the storage path and the size
    it had: the general form of C1. *)
Theorem performBackup_unknown_deployment
    (archiveSize : list (path * option FS.Document) -> Z) (storagePath : path)
    (backup : BackupModels.Backup) (config : BackupModels.BackupConfig)
    (w : Manager.World) (id : string) (row : DB.BackupRow) :
  In id (BackupModels.DeploymentIDs backup) ->
  DB.deployments (Manager.db w) !! id = None ->
  DB.backups (Manager.db w) !! BackupModels.ID backup = Some row ->
  let archivePath := storagePath ++ [BackupModels.ID backup +:+ ".tar.gz"] in
  let w' := Manager.performBackup archiveSize storagePath backup config w in
  FS.files (Manager.fs w') !! archivePath = FS.files (Manager.fs w) !! archivePath /\
  exists row',
    DB.backups (Manager.db w') !! BackupModels.ID backup = Some row' /\
    DB.b_status row' = DB.BackupStatusCompleted /\
    DB.b_storage_path row' = DB.b_storage_path row /\
    DB.b_size_bytes row' = DB.b_size_bytes row /\
    DB.b_completed_at row' = Some (Manager.now w).
Proof.
  intros Hin Hid Hrow. cbv zeta.
  destruct (performBackup_unknown archiveSize storagePath backup config w id Hin Hid)
    as (Hfiles & _ & Hrec).
  split; [exact Hfiles|]. rewrite Hrec, Hrow. eexists. split; [reflexivity|]. repeat split.
Qed.

Section CaptureSucceeds.

Import BackupModels Manager ManagerSteps.

Variable archiveSize : list (path * option FS.Document) -> Z.
Variable storagePath : path.
Variable backupID : string.

Local Abbreviation dir := (storagePath ++ [backupID]).
Local Abbreviation arch := (storagePath ++ [backupID +:+ ".tar.gz"]).
Local Abbreviation manifestPath id := ((dir ++ ["deployments"; id]) ++ ["deployment.json"]).














End CaptureSucceeds.



(** The backup of [deploy_404]. *)
Lemma performBackup_unknown_deployment_witness :
  exists row',
    DB.backups
      (Manager.db
         (Manager.performBackup Examples.archiveSize Examples.storagePath
            (Samples.started Examples.unknownDeployment) Examples.unknownDeployment
            (Examples.created Examples.unknownDeployment)))
      !! "backup_1700000000" = Some row' /\
    DB.b_status row' = DB.BackupStatusCompleted /\
    DB.b_storage_path row' = [].
Proof.
  destruct (performBackup_unknown_deployment Examples.archiveSize Examples.storagePath
              (Samples.started Examples.unknownDeployment) Examples.unknownDeployment
              (Examples.created Examples.unknownDeployment) "deploy_404"
              (Manager.rowOfBackup (Samples.started Examples.unknownDeployment) None))
    as (_ & row' & Hrow & Hstatus & Hpath & _).
  - left. reflexivity.
  - reflexivity.
  - vm_compute. reflexivity.
  - exists row'. split; [exact Hrow|]. split; [exact Hstatus | exact Hpath].
Defined.



Section Scheduling.

Import BackupModels Scheduler.

Lemma getActiveDeployments_spec (w : World) (id : string) :
  In id (getActiveDeployments w) <->
  exists row, DB.deployments (Manager.db (manager w)) !! id = Some row
              /\ DB.status row = Models.StatusRunning.
Proof.
  unfold getActiveDeployments. rewrite <- list_elem_of_In, list_elem_of_fmap. split.
  - intros ([id' row] & -> & Hin). apply list_elem_of_In, filter_In in Hin as [Hin Hrun].
    apply list_elem_of_In, elem_of_map_to_list in Hin. apply bool_decide_eq_true in Hrun.
    now exists row.
  - intros (row & Hrow & Hrun). exists (id, row). split; [reflexivity|].
    apply list_elem_of_In, filter_In. split.
    + now apply list_elem_of_In, elem_of_map_to_list.
    + now apply bool_decide_eq_true.
Qed.

Lemma createDeploymentBackups_ids (ids : list string) (w : World) :
  Manager.getDeploymentIDsFromConfig
    {| bc_Name := ""; bc_Type := ""; bc_IncludeVolumes := false; bc_Encrypted := false;
       bc_Deployments := createDeploymentBackups ids w |} = ids.
Proof.
  unfold Manager.getDeploymentIDsFromConfig, createDeploymentBackups. cbn [bc_Deployments].
  rewrite map_map. cbn [db_ID]. apply map_id.
Qed.

Lemma scheduled_name_not_empty (name stamp : string) :
  String.eqb (name +:+ "_" +:+ stamp) "" = false.
Proof.
  destruct name as [|c name]; [|reflexivity].
  change ("" +:+ "_" +:+ stamp) with (String "_" stamp). reflexivity.
Qed.

Lemma CreateBackup_task (storagePath : path) (config : BackupConfig) (w : Manager.World) :
  (exists backup,
      (Manager.CreateBackup storagePath config w).1.1 = inl backup /\
      (Manager.CreateBackup storagePath config w).2 = Some (Manager.PerformBackup backup config) /\
      DeploymentIDs backup = Manager.getDeploymentIDsFromConfig config) \/
  (exists err,
      (Manager.CreateBackup storagePath config w).1.1 = inr err /\
      (Manager.CreateBackup storagePath config w).2 = None).
Proof.
  unfold Manager.CreateBackup.
  destruct (FS.MkdirAll _ _) as [[err|] f]; [right; eauto|].
  destruct (Manager.saveBackupRecord _ _) as [[err|] d]; [right; eauto|].
  left. eexists. split; [reflexivity|]. split; reflexivity.
Qed.

End Scheduling.

(** X23.  The scheduler asks the manager for a backup only of a
    selection that is not empty: with no running deployment
    [executeScheduledBackup] does nothing; a goroutine it starts is a
    backup, of type [scheduled], whose configuration passes
    [BackupConfig.Validate] and whose deployments are exactly the
    running ones. *)
Theorem executeScheduledBackup_selection (storagePath : path) (formatTime : Z -> string)
    (schedule : Scheduler.BackupSchedule) (w : Scheduler.World) :
  let result := Scheduler.executeScheduledBackup storagePath formatTime schedule w in
  (Scheduler.getActiveDeployments w = [] -> result = (schedule, w, None)) /\
  (forall task, result.2 = Some task ->
     exists backup config,
       task = Manager.PerformBackup backup config /\
       BackupModels.BackupConfig_Validate config = None /\
       BackupModels.bc_Type config = BackupModels.BackupTypeScheduled /\
       BackupModels.DeploymentIDs backup = Scheduler.getActiveDeployments w /\
       BackupModels.DeploymentIDs backup <> [] /\
       forall id,
         In id (BackupModels.DeploymentIDs backup) <->
         exists row,
           DB.deployments (Manager.db (Scheduler.manager w)) !! id = Some row /\
           DB.status row = Models.StatusRunning).
Proof.
  cbv zeta. unfold Scheduler.executeScheduledBackup. split.
  - intros ->. reflexivity.
  - intros task.
    destruct (List.length (Scheduler.getActiveDeployments w) =? 0)%nat eqn:Hlen;
      [discriminate|].
    set (config := {| BackupModels.bc_Name := _ |}).
    destruct (CreateBackup_task storagePath config (Scheduler.manager w))
      as [(backup & Hb & Ht & Hids)|(err & He & Ht)].
    + destruct (Manager.CreateBackup storagePath config (Scheduler.manager w))
        as [[[b|e] mw] t]; cbn [fst snd] in *; [|discriminate].
      subst t. intros [= <-]. exists backup, config.
      split; [reflexivity|].
      assert (Hsel : BackupModels.DeploymentIDs backup = Scheduler.getActiveDeployments w).
      { rewrite Hids. apply createDeploymentBackups_ids. }
      split.
      { unfold BackupModels.BackupConfig_Validate. subst config.
        cbn [BackupModels.bc_Name BackupModels.bc_Deployments].
        rewrite scheduled_name_not_empty.
        unfold Scheduler.createDeploymentBackups. rewrite length_map, Hlen. reflexivity. }
      split; [reflexivity|]. split; [exact Hsel|]. split.
      { rewrite Hsel. intros Hnil. rewrite Hnil in Hlen. discriminate. }
      intros id. rewrite Hsel. apply getActiveDeployments_spec.
    + destruct (Manager.CreateBackup storagePath config (Scheduler.manager w))
        as [[[b|e] mw] t]; cbn [fst snd] in *; [discriminate|].
      subst t. discriminate.
Qed.

(** X24.  [DeleteBackup] fails for an unknown id and changes
    nothing; for a known one, whatever its status, it returns [nil],
    removes the record and nothing else from the store, leaves
    nothing at or below the staging directory, and leaves no file at
    the recorded storage path when that path can be written. *)
Theorem DeleteBackup_removes (storagePath : path) (backupID : string) (w : Manager.World) :
  let result := BackupRemoval.DeleteBackup storagePath backupID w in
  (DB.backups (Manager.db w) !! backupID = None ->
   result = (Some "sql: no rows in result set", w)) /\
  (forall row,
      DB.backups (Manager.db w) !! backupID = Some row ->
      result.1 = None /\
      DB.backups (Manager.db result.2) = delete backupID (DB.backups (Manager.db w)) /\
      DB.deployments (Manager.db result.2) = DB.deployments (Manager.db w) /\
      (forall p, (storagePath ++ [backupID]) `prefix_of` p ->
                 FS.files (Manager.fs result.2) !! p = None
                 /\ p ∉ FS.dirs (Manager.fs result.2)) /\
      (DB.b_storage_path row <> [] ->
       DB.b_storage_path row ∉ FS.faulty (Manager.fs w) ->
       FS.files (Manager.fs result.2) !! DB.b_storage_path row = None)).
Proof.
  cbv zeta. unfold BackupRemoval.DeleteBackup, Manager.getBackup. split.
  - intros ->. reflexivity.
  - intros row ->. cbn [fst snd BackupModels.StoragePath Manager.db Manager.fs
                        Manager.with_db Manager.with_fs DB.with_backups DB.backups
                        DB.deployments].
    split; [reflexivity|]. split; [reflexivity|]. split; [reflexivity|]. split.
    + intros p Hp. unfold FS.RemoveAll, FS.logged. cbn [FS.files FS.dirs]. split.
      * apply map_lookup_filter_None. right. intros x _ Hnot. now apply Hnot.
      * intros Hin. apply elem_of_filter in Hin as [Hnot _]. now apply Hnot.
    + intros Hne Hok. rewrite bool_decide_eq_false_2 by exact Hne. cbn [negb].
      unfold FS.RemoveAll, FS.logged. cbn [FS.files FS.dirs].
      apply map_lookup_filter_None. left.
      unfold BackupRemoval.Remove. rewrite bool_decide_eq_false_2 by exact Hok.
      destruct (bool_decide (is_Some (FS.files (Manager.fs w) !! DB.b_storage_path row)))
        eqn:Hfile.
      * cbn [FS.files]. apply lookup_delete_eq.
      * apply bool_decide_eq_false in Hfile.
        assert (Hnone : FS.files (Manager.fs w) !! DB.b_storage_path row = None).
        { destruct (FS.files (Manager.fs w) !! DB.b_storage_path row); [|reflexivity].
          exfalso. apply Hfile. eauto. }
        destruct (existsb _ _); exact Hnone.
Qed.

(** ** Short archives, wrong key sizes and the key store *)

Section ShortArchives.

Import Encryption.

Lemma ReadFull_eof (fuel : nat) (r r' : Reader) (min : nat) :
  (0 < min)%nat ->
  Read r min = ([], Some EOF, r') ->
  ReadFull (S fuel) r min [] = Some ([], Some EOF, r').
Proof.
  intros Hmin Hread. cbn [ReadFull List.length].
  destruct min; [lia|]. cbn [Nat.leb]. rewrite Nat.sub_0_r, Hread.
  cbn [app List.length Nat.leb Nat.ltb andb]. reflexivity.
Qed.

Lemma ReadFull_short (fuel : nat) (r r1 r2 : Reader) (min : nat) (data : list N) :
  (0 < List.length data < min)%nat ->
  Read r min = (data, None, r1) ->
  Read r1 (min - List.length data) = ([], Some EOF, r2) ->
  ReadFull (S (S fuel)) r min [] = Some (data, Some ErrUnexpectedEOF, r2).
Proof.
  intros [Hpos Hlt] Hread1 Hread2.
  rewrite ReadFull_more; cbn [List.length]; rewrite ?Nat.sub_0_r, ?Hread1; try lia;
    [|reflexivity].
  cbn [fst snd app]. cbn [ReadFull].
  replace (min <=? List.length data)%nat with false by (symmetry; apply Nat.leb_gt; lia).
  rewrite Hread2, app_nil_r.
  replace (min <=? List.length data)%nat with false by (symmetry; apply Nat.leb_gt; lia).
  replace (0 <? List.length data)%nat with true by (symmetry; apply Nat.ltb_lt; lia).
  reflexivity.
Qed.

Lemma ReadFull_full (fuel : nat) (r r1 : Reader) (min : nat) (data : list N) :
  (0 < min)%nat -> List.length data = min ->
  Read r min = (data, None, r1) ->
  ReadFull (S fuel) r min [] = Some (data, None, r1).
Proof.
  intros Hmin Hlen Hread.
  rewrite ReadFull_more; cbn [List.length]; rewrite ?Nat.sub_0_r, ?Hread; try lia;
    [|reflexivity].
  cbn [fst snd app]. apply ReadFull_done. lia.
Qed.

(** The first [Read] of a decrypting reader over an opened file. *)
Lemma io_Read_decrypted_file (src key : list N) (n : nat) :
  exists dr,
    io_Read (NewDecryptedReader (FileReader src) key) n =
    if (List.length src =? 0)%nat then Some ([], Some EOF, dr)
    else if (List.length src <? 16)%nat then Some ([], Some ErrUnexpectedEOF, dr)
    else match AES.NewCipher key with
         | None => Some ([], Some KeySizeError, dr)
         | Some block =>
             io_Read {| dr_reader := FileReader (drop 16 src);
                        dr_cipher := Some (CFB.NewCFBDecrypter block (take 16 src));
                        ivRead := true; dr_key := key |} n
         end.
Proof.
  unfold io_Read at 1, DecryptedReader_Read, NewDecryptedReader.
  cbn [ivRead negb dr_reader dr_key dr_cipher]. change AES.BlockSize with 16%nat.
  destruct src as [|b src].
  - rewrite (ReadFull_eof _ _ (FileReader [])) by (try lia; reflexivity).
    eexists. reflexivity.
  - destruct (Nat.ltb_spec (List.length (b :: src)) 16) as [Hshort|Hlong].
    + rewrite (ReadFull_short _ _ (FileReader []) (FileReader []) _ (b :: src)).
      * eexists. reflexivity.
      * simpl in *. lia.
      * rewrite Read_File_cons by (try lia; discriminate).
        rewrite take_ge, drop_ge by lia. reflexivity.
      * apply Read_File_nil. lia.
    + rewrite (ReadFull_full _ _ (FileReader (drop 16 (b :: src))) _ (take 16 (b :: src))).
      * cbn [List.length Nat.eqb]. destruct (AES.NewCipher key) as [block|].
        -- exists (NewDecryptedReader (FileReader []) key).
           unfold io_Read, DecryptedReader_Read. cbn [ivRead negb dr_cipher]. reflexivity.
        -- eexists. reflexivity.
      * lia.
      * rewrite length_take. lia.
      * apply Read_File_cons; [lia | discriminate].
Qed.

End ShortArchives.

(** X25.  What [VerifyKey] answers besides the case of C10: an empty
    archive is accepted with any key, even one of no AES length; an
    archive of one to fifteen bytes gives [io.ErrUnexpectedEOF]; an
    archive of sixteen bytes or more with a key of no AES length
    gives the key-size error. *)
Theorem VerifyKey_outcomes (archive key : list N) :
  (archive = [] -> Encryption.VerifyKey archive key = Some None) /\
  ((0 < List.length archive < 16)%nat ->
   Encryption.VerifyKey archive key = Some (Some Encryption.ErrUnexpectedEOF)) /\
  ((16 <= List.length archive)%nat ->
   List.length key ∉ [16; 24; 32]%nat ->
   Encryption.VerifyKey archive key = Some (Some Encryption.KeySizeError)).
Proof.
  unfold Encryption.VerifyKey.
  unfold Encryption.io_Read, Encryption.DecryptedReader_Read, Encryption.NewDecryptedReader.
  cbn [Encryption.ivRead negb Encryption.dr_reader Encryption.dr_key Encryption.dr_cipher].
  change AES.BlockSize with 16%nat.
  split; [|split].
  - intros ->. rewrite Read_File_nil by (apply Nat.ltb_lt; reflexivity).
    rewrite (ReadFull_eof _ _ (Encryption.SingleUseReader [] 0)).
    + reflexivity.
    + lia.
    + apply Read_SingleUse_end. simpl. lia.
  - intros [Hpos Hshort].
    rewrite Read_File_cons;
      [|apply Nat.ltb_lt; reflexivity | destruct archive; [simpl in Hpos; lia | discriminate]].
    assert (Htake : take 1024 archive = archive) by (apply take_ge; lia).
    rewrite Htake.
    rewrite (ReadFull_short _ _ (Encryption.SingleUseReader archive (List.length archive))
               (Encryption.SingleUseReader archive (List.length archive)) _ archive).
    + reflexivity.
    + lia.
    + rewrite Read_SingleUse_more by lia. rewrite drop_0.
      rewrite take_ge by lia. reflexivity.
    + apply Read_SingleUse_end. lia.
  - intros Hlong Hkey.
    rewrite Read_File_cons;
      [|apply Nat.ltb_lt; reflexivity | destruct archive; [simpl in Hlong; lia | discriminate]].
    set (testData := take 1024 archive).
    assert (Htest : (16 <= List.length testData)%nat).
    { subst testData. rewrite length_take. apply Nat.min_glb; [|exact Hlong].
      apply Nat.leb_le. reflexivity. }
    rewrite (ReadFull_full _ _
               (Encryption.SingleUseReader testData (List.length (take 16 testData))) _
               (take 16 testData)).
    + unfold AES.NewCipher. rewrite bool_decide_eq_false_2 by exact Hkey. reflexivity.
    + lia.
    + rewrite length_take. lia.
    + rewrite Read_SingleUse_more by lia. reflexivity.
Qed.

(** X26.  The failures of [DecryptFile] and [EncryptFile]: an empty
    source decrypts to an empty file without error; a source of one
    to fifteen bytes fails with [io.ErrUnexpectedEOF]; a key of no
    AES length fails with the key-size error; in each case nothing
    is written to the destination. *)
Theorem DecryptFile_rejects (fuel size : nat) (src key iv : list N) :
  (src = [] -> Encryption.DecryptFile (S fuel) size src key = Some ([], None)) /\
  ((0 < List.length src < 16)%nat ->
   Encryption.DecryptFile (S fuel) size src key
     = Some ([], Some Encryption.ErrUnexpectedEOF)) /\
  ((16 <= List.length src)%nat ->
   List.length key ∉ [16; 24; 32]%nat ->
   Encryption.DecryptFile (S fuel) size src key = Some ([], Some Encryption.KeySizeError)) /\
  (List.length key ∉ [16; 24; 32]%nat ->
   Encryption.EncryptFile fuel size src key iv = Some ([], Some Encryption.KeySizeError)).
Proof.
  unfold Encryption.DecryptFile. rewrite Copy_step.
  destruct (io_Read_decrypted_file src key size) as [dr ->].
  split; [|split; [|split]].
  - intros ->. reflexivity.
  - intros [Hpos Hshort].
    replace (List.length src =? 0)%nat with false by (symmetry; apply Nat.eqb_neq; lia).
    replace (List.length src <? 16)%nat with true by (symmetry; apply Nat.ltb_lt; lia).
    reflexivity.
  - intros Hlong Hkey.
    replace (List.length src =? 0)%nat with false by (symmetry; apply Nat.eqb_neq; lia).
    replace (List.length src <? 16)%nat with false by (symmetry; apply Nat.ltb_ge; lia).
    unfold AES.NewCipher. rewrite bool_decide_eq_false_2 by exact Hkey. reflexivity.
  - intros Hkey. unfold Encryption.EncryptFile, Encryption.NewEncryptedReader, AES.NewCipher.
    rewrite bool_decide_eq_false_2 by exact Hkey. reflexivity.
Qed.

Section Hex.

Import KeyStore.

Lemma fromHexChar_hexDigit (n : N) :
  (n < 16)%N -> fromHexChar (hexDigit n) = Some n.
Proof.
  intros Hn.
  assert (Hall : forallb (fun m => match fromHexChar (hexDigit m) with
                                   | Some k => N.eqb k m
                                   | None => false
                                   end) (List.map N.of_nat (seq 0 16)) = true)
    by (vm_compute; reflexivity).
  rewrite forallb_forall in Hall. specialize (Hall n).
  destruct (fromHexChar (hexDigit n)) as [k|].
  - f_equal. apply N.eqb_eq, Hall. apply in_map_iff. exists (N.to_nat n).
    split; [apply N2Nat.id | apply in_seq; lia].
  - discriminate Hall. apply in_map_iff. exists (N.to_nat n).
    split; [apply N2Nat.id | apply in_seq; lia].
Qed.

Lemma nibbles (v : N) : N.lor (N.shiftl (N.shiftr v 4) 4) (N.land v 15) = v.
Proof.
  apply N.bits_inj. intros i. rewrite N.lor_spec, N.land_spec.
  change 15%N with (N.ones 4).
  destruct (N.lt_ge_cases i 4) as [Hlow|Hhigh].
  - rewrite N.shiftl_spec_low, N.ones_spec_low by lia. apply andb_true_r.
  - rewrite N.shiftl_spec_high', N.shiftr_spec', N.ones_spec_high by lia.
    rewrite andb_false_r, orb_false_r. f_equal. lia.
Qed.

Lemma DecodeString_EncodeToString (key : list N) :
  (forall v, In v key -> (v < 256)%N) -> DecodeString (EncodeToString key) = Some key.
Proof.
  induction key as [|v key IH]; intros Hbytes; [reflexivity|].
  cbn [EncodeToString DecodeString].
  rewrite !fromHexChar_hexDigit.
  - rewrite IH by (intros x Hx; apply Hbytes; now right). now rewrite nibbles.
  - change 15%N with (N.ones 4). rewrite N.land_ones. now apply N.mod_lt.
  - rewrite N.shiftr_div_pow2. apply N.Div0.div_lt_upper_bound.
    apply (Hbytes v). now left.
Qed.

Lemma list_ascii_of_append (s t : string) :
  list_ascii_of_string (s +:+ t) = list_ascii_of_string s ++ list_ascii_of_string t.
Proof.
  induction s as [|c s IH]; [reflexivity|].
  change (String c s +:+ t) with (String c (s +:+ t)). cbn [list_ascii_of_string].
  now rewrite IH.
Qed.

Lemma append_inv_tail (s s' t : string) : s +:+ t = s' +:+ t -> s = s'.
Proof.
  intros H. apply (f_equal list_ascii_of_string) in H.
  rewrite !list_ascii_of_append in H. apply app_inv_tail in H.
  rewrite <- (string_of_list_ascii_of_string s), <- (string_of_list_ascii_of_string s').
  now rewrite H.
Qed.

Lemma keyPath_inj (keyStorage : path) (id id' : string) :
  keyPath keyStorage id = keyPath keyStorage id' -> id = id'.
Proof.
  unfold keyPath. intros H. apply app_inv_head in H. injection H as H.
  now apply append_inv_tail in H.
Qed.

Lemma StoreKey_stored (keyStorage : path) (backupID : string) (key : list N) (w w' : World) :
  StoreKey keyStorage backupID key w = (None, w') ->
  files w' = <[keyPath keyStorage backupID := EncodeToString key]> (files w) /\
  (keyPath keyStorage backupID ∉ faulty w') /\
  (keyPath keyStorage backupID ∉ dirs w').
Proof.
  unfold StoreKey. destruct (_ || _); [discriminate|].
  cbn [faulty dirs files].
  destruct (bool_decide (keyPath keyStorage backupID ∈ faulty w)) eqn:Hf; [discriminate|].
  cbn [orb].
  destruct (bool_decide (keyPath keyStorage backupID ∈ dirs w ∪ _)) eqn:Hd; [discriminate|].
  intros [= Hw]. subst w'. cbn [faulty dirs files].
  apply bool_decide_eq_false in Hf, Hd. now repeat split.
Qed.

End Hex.

(** X27.  The key store: a key of bytes that [StoreKey] has stored is
    what [RetrieveKey] returns (hex decoding undoes hex encoding);
    the key files of other backups are untouched; [DeleteKey] then
    succeeds, and the key can no longer be retrieved. *)
Theorem RetrieveKey_StoreKey (keyStorage : path) (backupID : string) (key : list N)
    (w w' : KeyStore.World) :
  (forall v, In v key -> (v < 256)%N) ->
  KeyStore.StoreKey keyStorage backupID key w = (None, w') ->
  KeyStore.RetrieveKey keyStorage backupID w' = inl key /\
  (forall other, other <> backupID ->
     KeyStore.files w' !! KeyStore.keyPath keyStorage other
       = KeyStore.files w !! KeyStore.keyPath keyStorage other) /\
  (KeyStore.DeleteKey keyStorage backupID w').1 = None /\
  KeyStore.RetrieveKey keyStorage backupID (KeyStore.DeleteKey keyStorage backupID w').2
    = inr KeyStore.ErrOpenKeyFile.
Proof.
  intros Hbytes Hstore.
  destruct (StoreKey_stored keyStorage backupID key w w' Hstore) as (Hfiles & Hfaulty & Hdirs).
  split; [|split].
  - unfold KeyStore.RetrieveKey. rewrite !bool_decide_eq_false_2 by assumption.
    rewrite Hfiles, lookup_insert_eq. now rewrite DecodeString_EncodeToString.
  - intros other Hother. rewrite Hfiles. apply lookup_insert_ne.
    intros H. apply keyPath_inj in H. congruence.
  - unfold KeyStore.DeleteKey. rewrite !bool_decide_eq_false_2 by assumption.
    cbn [fst snd]. split; [reflexivity|].
    unfold KeyStore.RetrieveKey. cbn [KeyStore.faulty KeyStore.dirs KeyStore.files].
    rewrite !bool_decide_eq_false_2 by assumption. now rewrite lookup_delete_eq.
Qed.

(** [otherKey] stored for [backup_1] in an empty key store. *)
Lemma RetrieveKey_StoreKey_witness :
  KeyStore.RetrieveKey Examples.storagePath "backup_1"
    (KeyStore.StoreKey Examples.storagePath "backup_1" Examples.otherKey
       Samples.emptyKeys).2
  = inl Examples.otherKey.
Proof.
  apply (RetrieveKey_StoreKey Examples.storagePath "backup_1" Examples.otherKey
           Samples.emptyKeys).
  - intros v Hv. unfold Examples.otherKey in Hv. apply in_app_or in Hv as [Hv|[<-|[]]].
    + apply repeat_spec in Hv. subst v. reflexivity.
    + reflexivity.
  - vm_compute. reflexivity.
Defined.

(** ** The configuration map and the stack status *)

Section EnvVars.

Import DeploymentModel.

Lemma GetEnvVar_config (d : Deployment) (config : gmap string Value) (key : string) :
  Config d = Some config ->
  GetEnvVar d key =
    match config !! "environment" with
    | Some (VMap envMap) =>
        match envMap !! key with
        | Some (VString strValue) => (strValue, true)
        | _ => ("", false)
        end
    | _ => ("", false)
    end.
Proof. intros H. unfold GetEnvVar. now rewrite H. Qed.

End EnvVars.

(** X28.  [SetEnvVar] and [GetEnvVar]: when the configuration has no
    [environment] entry, or one that is a [map[string]interface{}],
    the variable set is the variable read and the other variables
    read as before; when the entry is anything else (the
    [map[string]string] that [Create] puts there, for one),
    [SetEnvVar] changes nothing and [GetEnvVar] finds no variable. *)
Theorem SetEnvVar_GetEnvVar (d : DeploymentModel.Deployment) (key value : string) :
  let d' := DeploymentModel.SetEnvVar d key value in
  match default ∅ (DeploymentModel.Config d) !! "environment" with
  | None | Some (DeploymentModel.VMap _) =>
      DeploymentModel.GetEnvVar d' key = (value, true) /\
      forall other, other <> key ->
                    DeploymentModel.GetEnvVar d' other = DeploymentModel.GetEnvVar d other
  | Some _ =>
      DeploymentModel.Config d' = DeploymentModel.Config d /\
      forall any, DeploymentModel.GetEnvVar d' any = ("", false)
  end.
Proof.
  cbv zeta. unfold DeploymentModel.SetEnvVar.
  destruct (DeploymentModel.Config d) as [config|] eqn:Hconfig;
    cbn [default from_option]; unfold id.
  - destruct (config !! "environment") as [env|] eqn:Henv.
    + rewrite bool_decide_eq_true_2 by eauto. cbv iota. rewrite Henv.
      destruct env;
        try (split; [cbn; congruence|];
             intros any; erewrite GetEnvVar_config by reflexivity; now rewrite Henv).
      split.
      * erewrite GetEnvVar_config by reflexivity. now rewrite !lookup_insert_eq.
      * intros other Hother. erewrite GetEnvVar_config by reflexivity.
        rewrite lookup_insert_eq, lookup_insert_ne by congruence.
        erewrite (GetEnvVar_config d) by eassumption. now rewrite Henv.
    + rewrite bool_decide_eq_false_2 by (now intros [? ?]). cbv iota.
      rewrite lookup_insert_eq. split.
      * erewrite GetEnvVar_config by reflexivity. now rewrite !lookup_insert_eq.
      * intros other Hother. erewrite GetEnvVar_config by reflexivity.
        rewrite lookup_insert_eq, lookup_insert_ne, lookup_empty by congruence.
        erewrite (GetEnvVar_config d) by eassumption. now rewrite Henv.
  - rewrite lookup_empty. rewrite bool_decide_eq_false_2 by (now intros [? ?]). cbv iota.
    rewrite lookup_insert_eq. split.
    + erewrite GetEnvVar_config by reflexivity. now rewrite !lookup_insert_eq.
    + intros other Hother. erewrite GetEnvVar_config by reflexivity.
      rewrite lookup_insert_eq, lookup_insert_ne, lookup_empty by congruence.
      unfold DeploymentModel.GetEnvVar. now rewrite Hconfig.
Qed.

Section StackStatus.

Import StackModel.

Lemma filter_all {A} (f : A -> bool) (l : list A) :
  List.length (List.filter f l) = List.length l <-> forallb f l = true.
Proof.
  induction l as [|x l IH]; [now split|]. cbn [List.filter forallb].
  pose proof (filter_length_le f l) as Hle.
  destruct (f x); cbn [List.length andb].
  - rewrite <- IH. split; lia.
  - split; [lia | discriminate].
Qed.

Lemma filter_none {A} (f : A -> bool) (l : list A) :
  List.length (List.filter f l) = 0%nat <-> (forall x, In x l -> f x = false).
Proof.
  induction l as [|x l IH]; [now split|]. cbn [List.filter].
  destruct (f x) eqn:Hx; cbn [List.length].
  - split; [lia|]. intros H. specialize (H x (or_introl eq_refl)). congruence.
  - rewrite IH. split.
    + intros H y [<-|Hy]; auto.
    + intros H y Hy. apply H. now right.
Qed.

End StackStatus.

(** X29.  [Stack.UpdateStatus] keeps the services and agrees with
    the other methods: the status is [running] exactly when
    [IsRunning] holds, [unknown] exactly when the stack has no
    service, [stopped] exactly when it has services and none is
    running; a stack that can be started cannot be stopped, and on a
    stack without services no operation can be performed. *)
Theorem UpdateStatus_agrees (now : Z) (s : StackModel.Stack) :
  let s' := StackModel.UpdateStatus now s in
  StackModel.Services s' = StackModel.Services s /\
  (StackModel.s_Status s' = StackModel.StackStatusRunning <->
   StackModel.IsRunning s = true) /\
  (StackModel.s_Status s' = StackModel.StackStatusUnknown <-> StackModel.Services s = []) /\
  (StackModel.s_Status s' = StackModel.StackStatusStopped <->
   StackModel.Services s <> [] /\
   forall service, In service (StackModel.Services s) ->
                   StackModel.Status service <> "running") /\
  (StackModel.CanPerformOperation s' StackModel.OperationStart = true ->
   StackModel.CanPerformOperation s' StackModel.OperationStop = false) /\
  (StackModel.Services s = [] ->
   forall op, StackModel.CanPerformOperation s' op = false).
Proof.
  cbv zeta. unfold StackModel.UpdateStatus, StackModel.IsRunning,
    StackModel.GetRunningServices, StackModel.GetTotalServices.
  set (f := fun x => String.eqb (StackModel.Status x) "running").
  destruct (StackModel.Services s) as [|service rest] eqn:Hservices.
  - cbn. repeat split; try discriminate; try congruence.
    + intros [H _]. now destruct H.
    + intros _ op. now destruct op.
  - change (List.length (service :: rest) =? 0)%nat with false. cbv iota.
    set (l := service :: rest).
    cbn [StackModel.s_Status StackModel.Services StackModel.CanPerformOperation].
    assert (Hne : l <> []) by discriminate.
    destruct (List.length (List.filter f l) =? List.length l)%nat eqn:Hall.
    + apply Nat.eqb_eq, filter_all in Hall.
      split; [reflexivity|]. split; [now split|]. split; [now split|]. split.
      { split; [discriminate|]. intros [_ Hnone]. exfalso.
        apply (Hnone service); [now left|].
        apply forallb_forall with (x := service) in Hall; [|now left].
        now apply String.eqb_eq. }
      split; [discriminate | now intros].
    + assert (Hf : forallb f l = false).
      { destruct (forallb f l) eqn:H; [|reflexivity].
        apply filter_all, Nat.eqb_eq in H. congruence. }
      destruct (List.length (List.filter f l) =? 0)%nat eqn:Hnone.
      * apply Nat.eqb_eq in Hnone.
        split; [reflexivity|]. split; [split; [discriminate | congruence]|].
        split; [now split|]. split.
        { split; [|reflexivity]. intros _. split; [exact Hne|].
          intros x Hx Hrun. apply (proj1 (filter_none f l) Hnone) in Hx.
          unfold f in Hx. apply String.eqb_neq in Hx. contradiction. }
        split; [reflexivity | now intros].
      * apply Nat.eqb_neq in Hnone.
        split; [reflexivity|]. split; [split; [discriminate | congruence]|].
        split; [now split|]. split.
        { split; [discriminate|]. intros [_ Hno]. exfalso. apply Hnone.
          apply filter_none. intros x Hx. apply String.eqb_neq. now apply Hno. }
        split; [discriminate | now intros].
Qed.
